(** * ng-lazy: the lazy-service proxy engine

    A shallow embedding of [src/utils.ts] (the [Deferred] promise),
    [src/creator.ts] (the creator strategies, as far as the loader looks at
    them), [src/lazy.ts] (the factory builder and [LazyServiceLoader]) and
    [src/differential.ts] (the differential factory builder).

    JavaScript runs one job at a time.  The model follows that: every
    synchronous call from the outside (an operation on a surrogate, a loader
    method, a destroy callback) and every job of the promise machinery (the
    continuation of the async function [create] after its [await], the
    reaction registered by [.catch]) is one atomic step on the loader state.
    Caller-supplied code (the construction closure, the creator behind the
    [LazilyCreated] marker, the determinant function) is given by what a call
    of it evaluates to; it does not call back into the loader while it runs.
    Promises derived from a [Deferred] with [then]/[catch] are ordinary
    promises.  A real instance is an ordinary extensible object whose members
    are plain data, so that [Reflect.get], [Reflect.set] and [Reflect.has] on
    it are a lookup, an update and a membership test.  Proxies and real
    instances draw their identities from one counter. *)

From Stdlib Require Import Ascii String.
From stdpp Require Import gmap strings list fin_maps.

(** ** Values, errors, promise states *)

(** A JavaScript value as far as the loader distinguishes them: [undefined],
    an object reference (identity [a]), or any other primitive. *)
Inductive JsVal :=
| Undefined
| Prim (n : nat)
| Ref (a : nat).

(** An object on the heap: the members reachable on it, by name. *)
Abbreviation Obj := (gmap string JsVal).

(** What a [throw] or a rejection carries.  The first three are the error
    classes of the library; [Thrown] stands for any value thrown by
    caller-supplied code. *)
Inductive JsError :=
| ServiceNotReadyError (msg : string)
| OperationNotSupportedError (msg : string)
| UnexpectedDeterminantError (msg : string)
| TypeError (msg : string)
| Error (msg : string)
| Thrown (payload : nat).

Inductive Completion (A : Type) :=
| Normal (a : A)
| Throw (e : JsError).
Arguments Normal {A} a.
Arguments Throw {A} e.

Inductive PromiseState (A : Type) :=
| Pending
| Fulfilled (v : A)
| Rejected (e : JsError).
Arguments Pending {A}.
Arguments Fulfilled {A} v.
Arguments Rejected {A} e.

(** The resolving functions of a promise only act on a pending promise. *)
Definition settle {A} (s p : PromiseState A) : PromiseState A :=
  match p with
  | Pending => s
  | _ => p
  end.

(** What [async f() { await p; }] settles to, given what [p] settles to. *)
Definition awaited {A} (p : PromiseState A) : PromiseState unit :=
  match p with
  | Pending => Pending
  | Fulfilled _ => Fulfilled tt
  | Rejected e => Rejected e
  end.

(** ** utils.ts: [Deferred] *)

Record Deferred (T : Type) := mkDeferred {
  isResolved : bool;          (* #isResolved *)
  value : option T;           (* #value *)
  state : PromiseState T;     (* the state of the promise itself *)
}.
Arguments mkDeferred {T}.
Arguments isResolved {T}.
Arguments value {T}.
Arguments state {T}.

Definition newDeferred {T} : Deferred T :=
  mkDeferred false None Pending.

Definition resolve {T} (v : T) (d : Deferred T) : Deferred T :=
  mkDeferred true
             (if isResolved d then value d else Some v)
             (settle (Fulfilled v) (state d)).

Definition reject {T} (error : JsError) (d : Deferred T) : Deferred T :=
  mkDeferred true (value d) (settle (Rejected error) (state d)).

(** A call of one of the two resolving functions. *)
Inductive Settlement (T : Type) :=
| CallResolve (v : T)
| CallReject (error : JsError).
Arguments CallResolve {T} v.
Arguments CallReject {T} error.

Definition applySettlement {T} (d : Deferred T) (c : Settlement T) : Deferred T :=
  match c with
  | CallResolve v => resolve v d
  | CallReject e => reject e d
  end.

(** ** creator.ts: what the loader sees of a [LazilyCreated] *)

Abbreviation Injector := nat.

(** [{service, destroy}]: the address of the real instance and the identity
    of its teardown callback. *)
Record Created := mkCreated {
  service : nat;
  teardown : nat;
}.

(** A call of the function stored under [lazilyCreatedMarker]: it throws, or
    builds the instance [instance] and returns it with a teardown callback. *)
Inductive CreatorOutcome :=
| CreatorThrows (e : JsError)
| CreatorReturns (instance : Obj) (destroyCallback : nat).

Abbreviation Creator := (Injector -> CreatorOutcome).

(** The value the construction closure yields, seen through
    [?.[lazilyCreatedMarker]]: no creator (nullish, or an object without the
    marker), or the creator. *)
Inductive Yielded :=
| NotLazilyCreated
| LazilyCreated (creator : Creator).

(** A call of a construction closure, followed by the [await] of what it
    returns: the call throws, the awaited value rejects, or the [await]
    yields a value. *)
Inductive FactoryOutcome :=
| FactoryThrows (e : JsError)
| FactoryRejects (e : JsError)
| FactoryYields (y : Yielded).

(** The calls a construction closure makes while it runs, as a call tree: the
    differential closure evaluates its determinant function and calls the
    implementation closure it selected. *)
#[warnings="-register-all"] Inductive ClosureEvent :=
| EvalDeterminant
| CallImplementation (inner : list ClosureEvent).

(** [LazyFactoryFn]: a construction closure, run in an injection context. *)
Abbreviation LazyFactoryFn := (Injector -> list ClosureEvent * FactoryOutcome).

Definition isEvalDeterminant (e : ClosureEvent) : bool :=
  match e with
  | EvalDeterminant => true
  | CallImplementation _ => false
  end.

(** How often the closure itself evaluated the determinant function. *)
Definition determinantEvaluations (evs : list ClosureEvent) : nat :=
  length (filter (fun e => isEvalDeterminant e = true) evs).

(** ** differential.ts *)

Definition quote : string := String "034"%char EmptyString.

Section differential.
Context {DeterminantT : Type} `{Countable DeterminantT}.
(** [String(determinant)] *)
Variable toString : DeterminantT -> string.

Definition unexpectedDeterminant (determinant : DeterminantT) : JsError :=
  UnexpectedDeterminantError
    ("Got determinant " +:+ quote +:+ toString determinant +:+ quote
       +:+ " which has not been registered").

(** The state of one [differentialLazyFactory] builder. *)
Record DifferentialLazyFactory := mkDifferential {
  determine : Injector -> DeterminantT;
  fallbackServiceFactory : option LazyFactoryFn;
  serviceFactories : gmap DeterminantT LazyFactoryFn;
}.

Definition differentialLazyFactory
    (determine : Injector -> DeterminantT)
    (fallbackServiceFactory : option LazyFactoryFn) : DifferentialLazyFactory :=
  mkDifferential determine fallbackServiceFactory ∅.

Definition setImplementation (determinant : DeterminantT) (fn : LazyFactoryFn)
    (f : DifferentialLazyFactory) : DifferentialLazyFactory :=
  mkDifferential (determine f) (fallbackServiceFactory f)
                 (<[determinant := fn]> (serviceFactories f)).

(** [serviceFactories.get(determinant) ?? fallbackServiceFactory]: the
    closure the [??] chain selects, if any. *)
Definition selected (f : DifferentialLazyFactory) (determinant : DeterminantT)
    : option LazyFactoryFn :=
  match serviceFactories f !! determinant with
  | Some fn => Some fn
  | None => fallbackServiceFactory f
  end.

(** The closure handed to [lazyFactory]. *)
Definition differentialClosure (f : DifferentialLazyFactory) : LazyFactoryFn :=
  fun injector =>
    let determinant := determine f injector in
    match selected f determinant with
    | Some fn =>
        let '(inner, outcome) := fn injector in
        ([EvalDeterminant; CallImplementation inner], outcome)
    | None =>
        ([EvalDeterminant], FactoryThrows (unexpectedDeterminant determinant))
    end.
End differential.

(** ** lazy.ts: errors and messages *)

Definition newline : string := String "010"%char EmptyString.

Definition serviceNotReady (devMode : bool) (prop : string) : JsError :=
  if devMode
  then ServiceNotReadyError
         ("Lazy service is not ready yet" +:+ newline
            +:+ "Did you forget to mark property " +:+ prop +:+ " as safe?")
  else ServiceNotReadyError "Lazy service is not ready yet".

Definition notSupported (operation : string) : JsError :=
  OperationNotSupportedError
    ("Operation " +:+ operation +:+ " is not supported on lazy services").

Definition factoryDidNotCreate (devMode : bool) : JsError :=
  if devMode
  then Error "The factory function passed into LazyServiceLoader didn't call createFromInjectable, createFromModule, or createFromEnvironment"
  else Error "Factory function didn't create service".

Definition destroyedBeforeReady : JsError :=
  Error "The service has been destroyed before it finished creating".

(** What the engine throws for any operation on a revoked proxy. *)
Definition revokedProxy : JsError :=
  TypeError "illegal operation attempted on a revoked proxy".

(** [Reflect.get], [Reflect.set], [Reflect.has] with a non-object target. *)
Definition notAnObject : JsError :=
  TypeError "Reflect called on non-object".

(** ** lazy.ts: triggers, safe members, the factory builder *)

Inductive LazyCreationTrigger :=
| OnInjection
| OnAccess
| Explicit.

#[global] Instance LazyCreationTrigger_eq_dec : EqDecision LazyCreationTrigger.
Proof. solve_decision. Defined.

(** The [type] argument of [markSafeProperty] and [markSafeMethod]. *)
Inductive SafeType :=
| promise
| observable
| void.

(** The forwarding closure stored in [safeProperties] for a member. *)
Inductive SafeGetter :=
| SafeProperty (type : SafeType)
| SafeMethod (type : SafeType).

Module Builder.
(** The closure variables of one [lazyFactory] builder. *)
Record LazyFactory := mkLazyFactory {
  serviceFactory : LazyFactoryFn;
  safeProperties : gmap string SafeGetter;
  trigger : LazyCreationTrigger;
}.

Definition lazyFactory (serviceFactory : LazyFactoryFn) : LazyFactory :=
  mkLazyFactory serviceFactory ∅ OnInjection.

Definition createOn (t : LazyCreationTrigger) (f : LazyFactory) : LazyFactory :=
  mkLazyFactory (serviceFactory f) (safeProperties f) t.

Definition markSafeProperty (propertyName : string) (type : SafeType)
    (f : LazyFactory) : Completion LazyFactory :=
  match type with
  | promise | observable =>
      Normal (mkLazyFactory (serviceFactory f)
                (<[propertyName := SafeProperty type]> (safeProperties f))
                (trigger f))
  | void => Throw (TypeError "Unsupported safe property type: void")
  end.

Definition markSafeMethod (methodName : string) (type : SafeType)
    (f : LazyFactory) : LazyFactory :=
  mkLazyFactory (serviceFactory f)
    (<[methodName := SafeMethod type]> (safeProperties f))
    (trigger f).
End Builder.

(** ** lazy.ts: the closure of one [#create] call *)

(** The three closures [getValue] is bound to over time. *)
Inductive GetValue :=
| NotReady                       (* the initial one: throws ServiceNotReadyError *)
| Rethrow (error : JsError)      (* () => { throw error; } *)
| ReturnService (result : Created). (* () => result.service *)

(** The closures [getOrCreateValueAsync] and [getValueAsync] are bound to. *)
Inductive AsyncGetter :=
| CreateAndMemoize    (* the initial getOrCreateValueAsync: calls create() *)
| ThenService         (* () => moduleAndValuePromise.then(v => v.service) *)
| ReturnValuePromise. (* () => valuePromise *)

(** What [valuePromise] is fulfilled with: [result.service], or, when
    [create] returned [moduleAndValuePromise] itself, what that holds. *)
Inductive Resolution :=
| WithService (instance : nat)
| WithCreated (result : Created).

(** Where the async function [create] and [valuePromise] stand. *)
Inductive Construction :=
| NotStarted                       (* create() has not been called *)
| AtAwait (a : JsError + Yielded)  (* suspended at the await, which will throw or yield a *)
| Returned (instance : nat)        (* create() returned result.service; valuePromise not yet fulfilled *)
| Raised (error : JsError)         (* create() threw; the catch handler has not run yet *)
| Adopting                         (* create() returned moduleAndValuePromise and follows it *)
| Settled (v : JsError + Resolution). (* valuePromise is rejected or fulfilled *)

Record Surrogate := mkSurrogate {
  trigger : LazyCreationTrigger;
  serviceFactory : LazyFactoryFn;
  safeProperties : gmap string SafeGetter;
  injector : Injector;
  moduleAndValuePromise : Deferred Created;
  getValue : GetValue;
  getOrCreateValueAsync : AsyncGetter;
  getValueAsync : AsyncGetter;
  construction : Construction;
  revoked : bool;
}.

Definition setDeferred (d : Deferred Created) (s : Surrogate) : Surrogate :=
  mkSurrogate (trigger s) (serviceFactory s) (safeProperties s) (injector s)
    d (getValue s) (getOrCreateValueAsync s) (getValueAsync s)
    (construction s) (revoked s).

Definition setGetValue (g : GetValue) (s : Surrogate) : Surrogate :=
  mkSurrogate (trigger s) (serviceFactory s) (safeProperties s) (injector s)
    (moduleAndValuePromise s) g (getOrCreateValueAsync s) (getValueAsync s)
    (construction s) (revoked s).

Definition setConstruction (c : Construction) (s : Surrogate) : Surrogate :=
  mkSurrogate (trigger s) (serviceFactory s) (safeProperties s) (injector s)
    (moduleAndValuePromise s) (getValue s) (getOrCreateValueAsync s)
    (getValueAsync s) c (revoked s).

Definition revoke (s : Surrogate) : Surrogate :=
  mkSurrogate (trigger s) (serviceFactory s) (safeProperties s) (injector s)
    (moduleAndValuePromise s) (getValue s) (getOrCreateValueAsync s)
    (getValueAsync s) (construction s) true.

(** ** lazy.ts: the loader *)

Inductive Registration :=
| registrationOf (p : nat)    (* the record #create stores for proxy p *)
| dummyRegistration.

Record Loader := mkLoader {
  isDevMode : bool;
  services : gmap nat Registration;   (* #services, by proxy identity *)
  surrogates : gmap nat Surrogate;    (* the closure of each #create call *)
  objects : gmap nat Obj;             (* the real instances *)
  nextRef : nat;                      (* the next fresh object identity *)
}.

Definition newLoader (devMode : bool) : Loader :=
  mkLoader devMode ∅ ∅ ∅ 0.

Definition withServices (m : gmap nat Registration) (l : Loader) : Loader :=
  mkLoader (isDevMode l) m (surrogates l) (objects l) (nextRef l).

Definition withSurrogate (p : nat) (s : Surrogate) (l : Loader) : Loader :=
  mkLoader (isDevMode l) (services l) (<[p := s]> (surrogates l)) (objects l)
    (nextRef l).

Definition withObject (a : nat) (o : Obj) (l : Loader) : Loader :=
  mkLoader (isDevMode l) (services l) (surrogates l) (<[a := o]> (objects l))
    (nextRef l).

Definition allocate (l : Loader) : nat * Loader :=
  (nextRef l,
   mkLoader (isDevMode l) (services l) (surrogates l) (objects l)
     (S (nextRef l))).

(** Calls of caller-supplied code, as they happen. *)
Inductive Event :=
| InvokeFactory (p : nat) (inner : list ClosureEvent) (* serviceFactory() for surrogate p *)
| InvokeCreator (p : nat)                              (* creator(injector) *)
| InvokeTeardown (p : nat) (callback : nat).           (* result.destroy() *)

(** The promise a returned promise or forwarding wrapper waits for. *)
Inductive Source :=
| Immediately                  (* an already fulfilled promise *)
| OfDeferred (p : nat)         (* moduleAndValuePromise *)
| OfDeferredService (p : nat)  (* moduleAndValuePromise.then(v => v.service) *)
| OfValuePromise (p : nat).    (* valuePromise *)

Inductive Ret :=
| Val (v : JsVal)
| Bool (b : bool)
| DestroyFn (p : nat)                         (* the destroy closure of p *)
| FakeConstructor (p : nat)
| SafeForward (g : SafeGetter) (src : Source) (* safeGetter(src) *)
| PromiseOf (src : Source).                   (* async () => { await src } *)

Abbreviation Outcome := (Loader * list Event * Completion Ret)%type.

(** *** The closures defined inside [#create], for the surrogate [p] *)

(** The first [getOrCreateValueAsync]: [create()] runs up to its [await]
    (the construction closure is called there), then both async getters are
    rebound to [() => valuePromise]. *)
Definition startConstruction (p : nat) (s : Surrogate) : Surrogate * list Event :=
  let '(inner, outcome) := serviceFactory s (injector s) in
  let c := match outcome with
           | FactoryThrows e => Raised e
           | FactoryRejects e => AtAwait (inl e)
           | FactoryYields y => AtAwait (inr y)
           end in
  (mkSurrogate (trigger s) (serviceFactory s) (safeProperties s) (injector s)
     (moduleAndValuePromise s) (getValue s) ReturnValuePromise
     ReturnValuePromise c (revoked s),
   [InvokeFactory p inner]).

Definition callAsyncGetter (g : AsyncGetter) (p : nat) (s : Surrogate)
    : Surrogate * list Event * Source :=
  match g with
  | CreateAndMemoize =>
      let '(s', evs) := startConstruction p s in (s', evs, OfValuePromise p)
  | ThenService => (s, [], OfDeferredService p)
  | ReturnValuePromise => (s, [], OfValuePromise p)
  end.

Definition callGetValue (devMode : bool) (g : GetValue) (prop : string)
    : Completion nat :=
  match g with
  | NotReady => Throw (serviceNotReady devMode prop)
  | Rethrow error => Throw error
  | ReturnService result => Normal (service result)
  end.

Definition Reflect_get (l : Loader) (target : nat) (prop : string) : Outcome :=
  match objects l !! target with
  | Some o => (l, [], Normal (Val (default Undefined (o !! prop))))
  | None => (l, [], Throw notAnObject)
  end.

Definition Reflect_set (l : Loader) (target : nat) (prop : string)
    (newValue : JsVal) : Outcome :=
  match objects l !! target with
  | Some o => (withObject target (<[prop := newValue]> o) l, [], Normal (Bool true))
  | None => (l, [], Throw notAnObject)
  end.

Definition Reflect_has (l : Loader) (target : nat) (prop : string) : Outcome :=
  match objects l !! target with
  | Some o => (l, [], Normal (Bool (bool_decide (is_Some (o !! prop)))))
  | None => (l, [], Throw notAnObject)
  end.

(** The handler object of [Proxy.revocable]. *)
Definition get (p : nat) (prop : string) (s : Surrogate) (l : Loader) : Outcome :=
  if decide (prop = "ngOnDestroy") then (l, [], Normal (DestroyFn p))
  else if decide (prop = "constructor") then (l, [], Normal (FakeConstructor p))
  else
    match safeProperties s !! prop with
    | Some safeGetter =>
        let '(s', evs, src) := callAsyncGetter (getValueAsync s) p s in
        (withSurrogate p s' l, evs, Normal (SafeForward safeGetter src))
    | None =>
        match callGetValue (isDevMode l) (getValue s) prop with
        | Normal target => Reflect_get l target prop
        | Throw e => (l, [], Throw e)
        end
    end.

Definition set (p : nat) (prop : string) (newValue : JsVal) (s : Surrogate)
    (l : Loader) : Outcome :=
  if decide (prop = "ngOnDestroy")
  then (l, [], Throw (OperationNotSupportedError "ngOnDestroy cannot be edited"))
  else
    match safeProperties s !! prop with
    | Some _ =>
        (l, [], Throw (OperationNotSupportedError
                         "Properties marked as safe properties cannot be edited"))
    | None =>
        match callGetValue (isDevMode l) (getValue s) prop with
        | Normal target => Reflect_set l target prop newValue
        | Throw e => (l, [], Throw e)
        end
    end.

Definition has (p : nat) (prop : string) (s : Surrogate) (l : Loader) : Outcome :=
  if decide (prop = "ngOnDestroy") then (l, [], Normal (Bool true))
  else
    match safeProperties s !! prop with
    | Some _ => (l, [], Normal (Bool true))
    | None =>
        match callGetValue (isDevMode l) (getValue s) prop with
        | Normal target => Reflect_has l target prop
        | Throw e => (l, [], Throw e)
        end
    end.

(** The other traps of the handler object. *)
Inductive Trap :=
| getOwnPropertyDescriptor
| defineProperty
| deleteProperty
| getPrototypeOf
| setPrototypeOf
| isExtensible
| preventExtensions
| ownKeys.

Definition trapName (t : Trap) : string :=
  match t with
  | getOwnPropertyDescriptor => "getOwnPropertyDescriptor"
  | defineProperty => "defineProperty"
  | deleteProperty => "deleteProperty"
  | getPrototypeOf => "getPrototypeOf"
  | setPrototypeOf => "setPrototypeOf"
  | isExtensible => "isExtensible"
  | preventExtensions => "preventExtensions"
  | ownKeys => "ownKeys"
  end.

Definition otherTrap (t : Trap) (s : Surrogate) (l : Loader) : Outcome :=
  (l, [], Throw (notSupported (trapName t))).

(** An operation on the proxy [p]: a revoked proxy throws before any trap of
    its handler runs. *)
Definition onProxy (p : nat) (trap : Surrogate -> Loader -> Outcome) (l : Loader)
    : Outcome :=
  match surrogates l !! p with
  | None => (l, [], Normal (Val Undefined))
  | Some s => if revoked s then (l, [], Throw revokedProxy) else trap s l
  end.

(** The [destroy] closure. *)
Definition destroy (p : nat) (l : Loader) : Loader * list Event :=
  match surrogates l !! p with
  | None => (l, [])
  | Some s =>
      match services l !! p with
      | None => (l, [])                 (* #services.delete(proxy) is false *)
      | Some _ =>
          let l := withServices (delete p (services l)) l in
          let s := revoke s in
          if isResolved (moduleAndValuePromise s)
          then
            match value (moduleAndValuePromise s) with
            | Some result =>
                (withSurrogate p s l, [InvokeTeardown p (teardown result)])
            | None => (withSurrogate p s l, [])
            end
          else
            (withSurrogate p
               (setDeferred
                  (reject destroyedBeforeReady (moduleAndValuePromise s)) s) l,
             [])
      end
  end.

(** The continuation of [create()] after its [await]. *)
Definition resumeCreate (p : nat) (l : Loader) : Loader * list Event :=
  match surrogates l !! p with
  | None => (l, [])
  | Some s =>
      match construction s with
      | AtAwait (inl e) =>
          (withSurrogate p (setConstruction (Raised e) s) l, [])
      | AtAwait (inr NotLazilyCreated) =>
          (withSurrogate p
             (setConstruction (Raised (factoryDidNotCreate (isDevMode l))) s) l,
           [])
      | AtAwait (inr (LazilyCreated creator)) =>
          if isResolved (moduleAndValuePromise s)
          then (withSurrogate p (setConstruction Adopting s) l, [])
          else
            match creator (injector s) with
            | CreatorThrows e =>
                (withSurrogate p (setConstruction (Raised e) s) l,
                 [InvokeCreator p])
            | CreatorReturns instance callback =>
                let '(a, l) := allocate l in
                let result := mkCreated a callback in
                let s := setDeferred (resolve result (moduleAndValuePromise s)) s in
                let s := setGetValue (ReturnService result) s in
                (withSurrogate p (setConstruction (Returned a) s)
                   (withObject a instance l),
                 [InvokeCreator p])
            end
      | _ => (l, [])
      end
  end.

(** The handler passed to [create().catch]. *)
Definition catchHandler (error : JsError) (s : Surrogate) : Surrogate :=
  let s := setDeferred (reject error (moduleAndValuePromise s)) s in
  let s := setGetValue (Rethrow error) s in
  setConstruction (Settled (inl error)) s.

(** The reaction of [valuePromise] to the settlement of [create()]. *)
Definition react (p : nat) (l : Loader) : Loader :=
  match surrogates l !! p with
  | None => l
  | Some s =>
      match construction s with
      | Returned a =>
          withSurrogate p (setConstruction (Settled (inr (WithService a))) s) l
      | Raised e => withSurrogate p (catchHandler e s) l
      | Adopting =>
          match state (moduleAndValuePromise s) with
          | Pending => l
          | Fulfilled r =>
              withSurrogate p (setConstruction (Settled (inr (WithCreated r))) s) l
          | Rejected e => withSurrogate p (catchHandler e s) l
          end
      | _ => l
      end
  end.

(** *** [LazyServiceLoader] *)

Definition create (trigger : LazyCreationTrigger) (serviceFactory : LazyFactoryFn)
    (safeProperties : gmap string SafeGetter) (injector : Injector) (l : Loader)
    : Outcome :=
  let '(p, l) := allocate l in
  let s := mkSurrogate trigger serviceFactory safeProperties injector
             newDeferred NotReady CreateAndMemoize
             (if decide (trigger = Explicit) then ThenService
              else CreateAndMemoize)
             NotStarted false in
  let l := withServices (<[p := registrationOf p]> (services l)) l in
  if decide (trigger = OnInjection)
  then let '(s', evs) := startConstruction p s in
       (withSurrogate p s' l, evs, Normal (Val (Ref p)))
  else (withSurrogate p s l, [], Normal (Val (Ref p))).

(** Calling the builder: [inject(LazyServiceLoader).#create(trigger,
    serviceFactory, new Map(safeProperties))]. *)
Definition build (f : Builder.LazyFactory) (injector : Injector) (l : Loader)
    : Outcome :=
  create (Builder.trigger f) (Builder.serviceFactory f)
    (Builder.safeProperties f) injector l.

Definition getServiceRegistration (l : Loader) (service : JsVal) : Registration :=
  match service with
  | Ref a => default dummyRegistration (services l !! a)
  | _ => dummyRegistration
  end.

(** The members of a registration. *)
Definition registrationIsReady (l : Loader) (r : Registration) : bool :=
  match r with
  | dummyRegistration => true
  | registrationOf p =>
      match surrogates l !! p with
      | Some s => isResolved (moduleAndValuePromise s)
      | None => true
      end
  end.

Definition registrationWhenReady (r : Registration) : Source :=
  match r with
  | dummyRegistration => Immediately
  | registrationOf p => OfDeferred p
  end.

Definition registrationLoad (r : Registration) (l : Loader) : Outcome :=
  match r with
  | dummyRegistration => (l, [], Normal (PromiseOf Immediately))
  | registrationOf p =>
      match surrogates l !! p with
      | Some s =>
          let '(s', evs, src) := callAsyncGetter (getOrCreateValueAsync s) p s in
          (withSurrogate p s' l, evs, Normal (PromiseOf src))
      | None => (l, [], Normal (PromiseOf Immediately))
      end
  end.

Definition registrationDestroy (r : Registration) (l : Loader)
    : Loader * list Event :=
  match r with
  | dummyRegistration => (l, [])
  | registrationOf p => destroy p l
  end.

Definition load (service : JsVal) (l : Loader) : Outcome :=
  registrationLoad (getServiceRegistration l service) l.

Definition isReady (service : JsVal) (l : Loader) : bool :=
  registrationIsReady l (getServiceRegistration l service).

Definition whenReady (service : JsVal) (l : Loader) : Source :=
  registrationWhenReady (getServiceRegistration l service).

(** One round of the loop in [ngOnDestroy]. *)
Definition destroyNext (acc : Loader * list Event) (registration : Registration)
    : Loader * list Event :=
  ((registrationDestroy registration acc.1).1,
   acc.2 ++ (registrationDestroy registration acc.1).2).

Definition ngOnDestroy (l : Loader) : Loader * list Event :=
  foldl destroyNext (l, []) (map_to_list (services l)).*2.

(** *** Observing promises *)

Definition valuePromise (s : Surrogate) : PromiseState Resolution :=
  match construction s with
  | Settled (inl e) => Rejected e
  | Settled (inr v) => Fulfilled v
  | _ => Pending
  end.

(** What a promise returned by [load] or [whenReady] has settled to in the
    loader state [l], once the reactions on its source have run. *)
Definition settledAs (l : Loader) (src : Source) : PromiseState unit :=
  match src with
  | Immediately => Fulfilled tt
  | OfDeferred p | OfDeferredService p =>
      match surrogates l !! p with
      | Some s => awaited (state (moduleAndValuePromise s))
      | None => Pending
      end
  | OfValuePromise p =>
      match surrogates l !! p with
      | Some s => awaited (valuePromise s)
      | None => Pending
      end
  end.

(** *** Steps *)

Inductive Op :=
| Create (trigger : LazyCreationTrigger) (serviceFactory : LazyFactoryFn)
         (safeProperties : gmap string SafeGetter) (injector : Injector)
| Get (p : nat) (prop : string)
| Set_ (p : nat) (prop : string) (newValue : JsVal)
| Has (p : nat) (prop : string)
| Other (p : nat) (t : Trap)
| Load (service : JsVal)
| IsReady (service : JsVal)
| WhenReady (service : JsVal)
| Destroy (p : nat)          (* a call of the destroy closure of p *)
| NgOnDestroy                (* LazyServiceLoader.ngOnDestroy *)
| ResumeCreate (p : nat)     (* job: create() of p continues after its await *)
| React (p : nat).           (* job: the reaction of p's valuePromise *)

Definition step (l : Loader) (op : Op) : Outcome :=
  match op with
  | Create trigger serviceFactory safeProperties injector =>
      create trigger serviceFactory safeProperties injector l
  | Get p prop => onProxy p (get p prop) l
  | Set_ p prop newValue => onProxy p (set p prop newValue) l
  | Has p prop => onProxy p (has p prop) l
  | Other p t => onProxy p (otherTrap t) l
  | Load service => load service l
  | IsReady service => (l, [], Normal (Bool (isReady service l)))
  | WhenReady service => (l, [], Normal (PromiseOf (whenReady service l)))
  | Destroy p => (destroy p l, Normal (Val Undefined))
  | NgOnDestroy => (ngOnDestroy l, Normal (Val Undefined))
  | ResumeCreate p => (resumeCreate p l, Normal (Val Undefined))
  | React p => (react p l, [], Normal (Val Undefined))
  end.

(** A run: the loader and the calls of caller-supplied code so far. *)
Definition exec (st : Loader * list Event) (op : Op) : Loader * list Event :=
  ((step st.1 op).1.1, st.2 ++ (step st.1 op).1.2).

Definition run (ops : list Op) (st : Loader * list Event) : Loader * list Event :=
  foldl exec st ops.

Definition start (devMode : bool) : Loader * list Event :=
  (newLoader devMode, []).

(** The calls made for the surrogate [p] in a trace. *)
Definition factoryCalls (p : nat) (tr : list Event) : list (list ClosureEvent) :=
  omap (fun e => match e with
                 | InvokeFactory q inner =>
                     if decide (q = p) then Some inner else None
                 | _ => None
                 end) tr.

Definition creatorCalls (p : nat) (tr : list Event) : list unit :=
  omap (fun e => match e with
                 | InvokeCreator q => if decide (q = p) then Some tt else None
                 | _ => None
                 end) tr.

Definition teardownCalls (p : nat) (tr : list Event) : list nat :=
  omap (fun e => match e with
                 | InvokeTeardown q callback =>
                     if decide (q = p) then Some callback else None
                 | _ => None
                 end) tr.

(** * The words of the specification *)

(** How far the construction of a surrogate has come.  The outcome is settled
    in the job that either resolves [moduleAndValuePromise] and rebinds
    [getValue] to the real instance ([create] returns), or rejects it and
    rebinds [getValue] to rethrow (the catch handler runs).  Before that job
    the construction is in flight, also while a failure of [create] is still
    on its way to the catch handler. *)
Inductive Phase :=
| NotBegun
| InFlight
| Succeeded
| Failed.

Definition phase (s : Surrogate) : Phase :=
  match construction s with
  | NotStarted => NotBegun
  | AtAwait _ | Raised _ | Adopting => InFlight
  | Returned _ | Settled (inr _) => Succeeded
  | Settled (inl _) => Failed
  end.

(** The member names the handlers answer themselves, whatever is declared
    safe. *)
Definition intercepted (prop : string) : bool :=
  bool_decide (prop = "ngOnDestroy") || bool_decide (prop = "constructor").

(** An operation that is [loader.load] of the surrogate [p]. *)
Definition loads (p : nat) (op : Op) : bool :=
  match op with
  | Load (Ref a) => bool_decide (a = p)
  | _ => false
  end.

(** The surrogate an operation works on. *)
Definition target (l : Loader) (op : Op) : option nat :=
  match op with
  | Create _ _ _ _ => Some (nextRef l)
  | Get p _ | Set_ p _ _ | Has p _ | Other p _ => Some p
  | Destroy p | ResumeCreate p | React p => Some p
  | Load (Ref p) => Some p
  | Load _ | IsReady _ | WhenReady _ | NgOnDestroy => None
  end.

(** * Invariants of the loader *)

(** The flag, the stored value and the promise of a Deferred agree. *)
Definition deferredWf {T} (d : Deferred T) : Prop :=
  match state d with
  | Pending => isResolved d = false /\ value d = None
  | Fulfilled v => isResolved d = true /\ value d = Some v
  | Rejected _ => isResolved d = true /\ value d = None
  end.

(** The surrogate an event belongs to. *)
Definition eventSurrogate (e : Event) : nat :=
  match e with
  | InvokeFactory p _ => p
  | InvokeCreator p => p
  | InvokeTeardown p _ => p
  end.

(** Both async getters are [() => valuePromise]. *)
Definition memoized (s : Surrogate) : Prop :=
  getOrCreateValueAsync s = ReturnValuePromise /\
  getValueAsync s = ReturnValuePromise.

(** As long as nothing settled it, the Deferred of a registered surrogate is
    pending and that of a destroyed one carries the destruction error. *)
Definition unsettled (reg : bool) (d : Deferred Created) : Prop :=
  state d = if reg then Pending else Rejected destroyedBeforeReady.

(** What holds of the closure variables in each state of the construction:
    [reg] tells whether the surrogate is registered, [fc] and [cc] are the
    calls of its construction closure and of its creator so far, [objs] is
    the heap. *)
Definition phaseInv (reg : bool) (fc : list (list ClosureEvent))
    (cc : list unit) (objs : gmap nat Obj) (s : Surrogate) : Prop :=
  let d := moduleAndValuePromise s in
  let inner := (serviceFactory s (injector s)).1 in
  match construction s with
  | NotStarted =>
      getOrCreateValueAsync s = CreateAndMemoize /\
      getValueAsync s = (if decide (trigger s = Explicit) then ThenService
                         else CreateAndMemoize) /\
      getValue s = NotReady /\ unsettled reg d /\ fc = [] /\ cc = []
  | AtAwait _ =>
      memoized s /\ getValue s = NotReady /\ unsettled reg d /\
      fc = [inner] /\ cc = []
  | Raised _ =>
      memoized s /\ getValue s = NotReady /\ unsettled reg d /\
      fc = [inner] /\ length cc <= 1
  | Returned a | Settled (inr (WithService a)) =>
      memoized s /\
      (exists r, service r = a /\ getValue s = ReturnService r /\
                 state d = Fulfilled r) /\
      is_Some (objs !! a) /\ fc = [inner] /\ cc = [tt]
  | Adopting =>
      memoized s /\ getValue s = NotReady /\ reg = false /\
      state d = Rejected destroyedBeforeReady /\ fc = [inner] /\ cc = []
  | Settled (inr (WithCreated _)) => False
  | Settled (inl e) =>
      memoized s /\ getValue s = Rethrow e /\
      (state d = Rejected e \/
       (reg = false /\ state d = Rejected destroyedBeforeReady)) /\
      fc = [inner] /\ length cc <= 1
  end.

(** The invariant of one surrogate; [tc] are the calls of its teardown
    callback so far. *)
Record surrogateInv (reg : bool) (fc : list (list ClosureEvent))
    (cc : list unit) (tc : list nat) (objs : gmap nat Obj) (s : Surrogate)
    : Prop := mkSurrogateInv {
  si_wf : deferredWf (moduleAndValuePromise s);
  si_revoked : revoked s = negb reg;
  si_teardown :
    tc = if reg then []
         else match state (moduleAndValuePromise s) with
              | Fulfilled r => [teardown r]
              | _ => []
              end;
  si_phase : phaseInv reg fc cc objs s;
}.

(** [#services.has(p)] *)
Definition isRegistered (l : Loader) (p : nat) : bool :=
  bool_decide (is_Some (services l !! p)).

(** The invariant of a loader and the trace that led to it: every closure
    satisfies its invariant, a registration belongs to the proxy it is stored
    under, and identities not yet handed out are unused. *)
Record Inv (st : Loader * list Event) : Prop := mkInv {
  inv_surrogate : forall p s,
    surrogates st.1 !! p = Some s ->
    surrogateInv (isRegistered st.1 p) (factoryCalls p st.2)
      (creatorCalls p st.2) (teardownCalls p st.2) (objects st.1) s;
  inv_services : forall p r,
    services st.1 !! p = Some r ->
    r = registrationOf p /\ is_Some (surrogates st.1 !! p);
  inv_surrogates_fresh : forall p,
    is_Some (surrogates st.1 !! p) -> p < nextRef st.1;
  inv_objects_fresh : forall a,
    is_Some (objects st.1 !! a) -> a < nextRef st.1;
  inv_events_fresh : Forall (fun e => eventSurrogate e < nextRef st.1) st.2;
}.

(** A step that only touched the surrogate [p]. *)
Definition sameElsewhere (p : nat) (l l' : Loader) (evs : list Event) : Prop :=
  isDevMode l' = isDevMode l /\
  Forall (fun e => eventSurrogate e = p) evs /\
  forall q, q <> p ->
    surrogates l' !! q = surrogates l !! q /\
    services l' !! q = services l !! q.

(** Since the state [st0] the surrogate [p] has been unregistered, nothing was
    called for it and its Deferred kept its state. *)
Definition unregisteredLike (p : nat) (st0 st : Loader * list Event) : Prop :=
  Inv st /\
  services st.1 !! p = None /\
  factoryCalls p st.2 = factoryCalls p st0.2 /\
  creatorCalls p st.2 = creatorCalls p st0.2 /\
  teardownCalls p st.2 = teardownCalls p st0.2 /\
  exists s0 s, surrogates st0.1 !! p = Some s0 /\ surrogates st.1 !! p = Some s /\
    revoked s = true /\
    state (moduleAndValuePromise s) = state (moduleAndValuePromise s0).

(** The surrogate [p] has the [Explicit] trigger and the safe members [safe],
    and its construction has not started. *)
Definition idle (p : nat) (safe : gmap string SafeGetter)
    (st : Loader * list Event) : Prop :=
  Inv st /\
  exists s, surrogates st.1 !! p = Some s /\ trigger s = Explicit /\
    construction s = NotStarted /\ safeProperties s = safe.

(** * The demo application *)

(** demo/src/app: the members of [LazyServiceImpl] that are not declared safe,
    the safe members declared for [LazyService], and its construction
    closure. *)
Definition LazyServiceImpl : Obj := {["unsafeProperty" := Prim 42]}.

Definition demoSafeProperties : gmap string SafeGetter :=
  <["safePromise" := SafeProperty promise]>
    (<["safeObservable" := SafeProperty observable]>
       (<["safePromiseMethod" := SafeMethod promise]>
          (<["safeObservableMethod" := SafeMethod observable]>
             {["safeVoidMethod" := SafeMethod void]}))).

(** [() => import(...).then(mod => createFromInjectable(mod.LazyServiceImpl))] *)
Definition demoFactory : LazyFactoryFn :=
  fun _ => ([], FactoryYields
                  (LazilyCreated (fun _ => CreatorReturns LazyServiceImpl 7))).

(** The same factory when the import fails. *)
Definition brokenFactory : LazyFactoryFn :=
  fun _ => ([], FactoryRejects (Thrown 1)).

(** A surrogate created on injection whose construction fails. *)
Definition failedRun : list Op :=
  [Create OnInjection brokenFactory demoSafeProperties 0; ResumeCreate 0;
   React 0].

(** The closure of a surrogate of the demo service right after [#create],
    for a trigger other than [OnInjection]. *)
Definition idleSurrogate (t : LazyCreationTrigger) : Surrogate :=
  mkSurrogate t demoFactory demoSafeProperties 0 newDeferred NotReady
    CreateAndMemoize
    (if decide (t = Explicit) then ThenService else CreateAndMemoize)
    NotStarted false.

(** The same once a trigger has called [create()]. *)
Definition awaitingSurrogate (t : LazyCreationTrigger) : Surrogate :=
  mkSurrogate t demoFactory demoSafeProperties 0 newDeferred NotReady
    ReturnValuePromise ReturnValuePromise
    (AtAwait (inr (LazilyCreated (fun _ => CreatorReturns LazyServiceImpl 7))))
    false.

(** A surrogate of the demo service that is loaded and constructed. *)
Definition readyRun : list Op :=
  [Create OnAccess demoFactory demoSafeProperties 0; Load (Ref 0);
   ResumeCreate 0; React 0].

(** Its closure: the real instance has the identity 1. *)
Definition readySurrogate : Surrogate :=
  mkSurrogate OnAccess demoFactory demoSafeProperties 0
    (resolve (mkCreated 1 7) newDeferred) (ReturnService (mkCreated 1 7))
    ReturnValuePromise ReturnValuePromise (Settled (inr (WithService 1)))
    false.


(** * Tactics *)

Create Rewrite HintDb calls.

(** Splits the calls of a trace that ends in the events of one step. *)
Ltac calls_simpl :=
  autorewrite with calls;
  simpl; rewrite ?decide_True by done; rewrite ?app_nil_r.

(** Closes a goal about a step that left the closure of a surrogate as it
    was: no calls, and the same surrogate or an updated copy of it. *)
Ltac same_surrogate :=
  simpl; split; [done|]; split; [done|]; eexists;
  split; [first [eassumption|apply lookup_insert_eq]|done].

(** * Lemmas *)

(** ** The Deferred *)

Lemma newDeferred_wf {T} : deferredWf (@newDeferred T).
Proof. by split. Qed.

Lemma resolve_wf {T} (v : T) d : deferredWf d -> deferredWf (resolve v d).
Proof.
  unfold deferredWf, resolve; simpl.
  destruct (state d); simpl; intros [Hr Hv]; rewrite ?Hr, ?Hv; by split.
Qed.

Lemma reject_wf {T} e (d : Deferred T) : deferredWf d -> deferredWf (reject e d).
Proof.
  unfold deferredWf, reject; simpl.
  destruct (state d); simpl; intros [Hr Hv]; rewrite ?Hr, ?Hv; by split.
Qed.

Lemma applySettlement_wf {T} (d : Deferred T) c :
  deferredWf d -> deferredWf (applySettlement d c).
Proof. destruct c; [apply resolve_wf | apply reject_wf]. Qed.

Lemma settlements_wf {T} (cs : list (Settlement T)) :
  deferredWf (foldl applySettlement newDeferred cs).
Proof.
  assert (forall d, deferredWf d -> deferredWf (foldl applySettlement d cs)) as Hgen.
  { induction cs as [|c cs IH]; simpl; [done|].
    intros d Hd. by apply IH, applySettlement_wf. }
  apply Hgen, newDeferred_wf.
Qed.

Lemma wf_isResolved {T} (d : Deferred T) :
  deferredWf d -> isResolved d = true <-> state d <> Pending.
Proof.
  unfold deferredWf. destruct (state d); intros [Hr Hv]; rewrite Hr; split;
    congruence.
Qed.

Lemma wf_pending {T} (d : Deferred T) :
  deferredWf d -> state d = Pending -> isResolved d = false.
Proof. unfold deferredWf. intros Hwf Hs. rewrite Hs in Hwf. by destruct Hwf. Qed.

Lemma wf_rejected {T} (d : Deferred T) e :
  deferredWf d -> state d = Rejected e -> isResolved d = true /\ value d = None.
Proof. unfold deferredWf. intros Hwf Hs. by rewrite Hs in Hwf. Qed.

Lemma wf_fulfilled {T} (d : Deferred T) v :
  deferredWf d -> state d = Fulfilled v -> isResolved d = true /\ value d = Some v.
Proof. unfold deferredWf. intros Hwf Hs. by rewrite Hs in Hwf. Qed.

(** ** Traces *)

Lemma factoryCalls_app p tr1 tr2 :
  factoryCalls p (tr1 ++ tr2) = factoryCalls p tr1 ++ factoryCalls p tr2.
Proof. apply omap_app. Qed.

Lemma creatorCalls_app p tr1 tr2 :
  creatorCalls p (tr1 ++ tr2) = creatorCalls p tr1 ++ creatorCalls p tr2.
Proof. apply omap_app. Qed.

Lemma teardownCalls_app p tr1 tr2 :
  teardownCalls p (tr1 ++ tr2) = teardownCalls p tr1 ++ teardownCalls p tr2.
Proof. apply omap_app. Qed.

#[local] Hint Rewrite factoryCalls_app creatorCalls_app teardownCalls_app : calls.

Lemma factoryCalls_cons p e tr :
  factoryCalls p (e :: tr) = factoryCalls p [e] ++ factoryCalls p tr.
Proof. apply (factoryCalls_app p [e] tr). Qed.

Lemma creatorCalls_cons p e tr :
  creatorCalls p (e :: tr) = creatorCalls p [e] ++ creatorCalls p tr.
Proof. apply (creatorCalls_app p [e] tr). Qed.

Lemma teardownCalls_cons p e tr :
  teardownCalls p (e :: tr) = teardownCalls p [e] ++ teardownCalls p tr.
Proof. apply (teardownCalls_app p [e] tr). Qed.

Lemma calls_of_other p q evs :
  Forall (fun e => eventSurrogate e = p) evs -> q <> p ->
  factoryCalls q evs = [] /\ creatorCalls q evs = [] /\ teardownCalls q evs = [].
Proof.
  intros Hall Hne. induction Hall as [|e evs He _ IH]; [done|].
  destruct IH as (IH1 & IH2 & IH3).
  rewrite factoryCalls_cons, creatorCalls_cons, teardownCalls_cons,
    IH1, IH2, IH3.
  destruct e; simpl in *; subst; by rewrite ?decide_False.
Qed.

(** ** Every step keeps the invariant *)

Lemma phaseInv_objects reg fc cc (objs objs' : gmap nat Obj) s :
  (forall a, is_Some (objs !! a) -> is_Some (objs' !! a)) ->
  phaseInv reg fc cc objs s -> phaseInv reg fc cc objs' s.
Proof.
  intros Hsub. unfold phaseInv.
  destruct (construction s) as [| | | | |[|[]]]; try done.
  all: intros (Hm & Hr & Ho & Hfc & Hcc); split_and!; auto.
Qed.

Lemma surrogateInv_objects reg fc cc tc (objs objs' : gmap nat Obj) s :
  (forall a, is_Some (objs !! a) -> is_Some (objs' !! a)) ->
  surrogateInv reg fc cc tc objs s -> surrogateInv reg fc cc tc objs' s.
Proof.
  intros Hsub [? ? ? ?]. split; eauto using phaseInv_objects.
Qed.

Lemma calls_of_fresh n p tr :
  Forall (fun e => eventSurrogate e < n) tr -> n <= p ->
  factoryCalls p tr = [] /\ creatorCalls p tr = [] /\ teardownCalls p tr = [].
Proof.
  intros Hall Hle. induction Hall as [|e evs He _ IH]; [done|].
  destruct IH as (IH1 & IH2 & IH3).
  rewrite factoryCalls_cons, creatorCalls_cons, teardownCalls_cons,
    IH1, IH2, IH3.
  destruct e; simpl in *; rewrite ?decide_False; auto; lia.
Qed.

Lemma Inv_start devMode : Inv (start devMode).
Proof.
  split; simpl.
  - intros p s Hs. by rewrite lookup_empty in Hs.
  - intros p r Hr. by rewrite lookup_empty in Hr.
  - intros p [s Hs]. by rewrite lookup_empty in Hs.
  - intros p [s Hs]. by rewrite lookup_empty in Hs.
  - constructor.
Qed.

Lemma Inv_update l tr p s' m' o' n' evs :
  Inv (l, tr) ->
  p < n' ->
  (forall q, q <> p -> m' !! q = services l !! q) ->
  (forall r, m' !! p = Some r -> r = registrationOf p) ->
  (forall a, is_Some (objects l !! a) -> is_Some (o' !! a)) ->
  (forall a, is_Some (o' !! a) -> a < n') ->
  nextRef l <= n' ->
  Forall (fun e => eventSurrogate e = p) evs ->
  surrogateInv (bool_decide (is_Some (m' !! p))) (factoryCalls p (tr ++ evs))
    (creatorCalls p (tr ++ evs)) (teardownCalls p (tr ++ evs)) o' s' ->
  Inv (mkLoader (isDevMode l) m' (<[p := s']> (surrogates l)) o' n', tr ++ evs).
Proof.
  intros HI Hp Hm Hmp Ho Hof Hn Hevs Hs.
  destruct HI as [Hsur Hserv Hsf Hobf Hevf]; simpl in *.
  split; simpl.
  - intros q s0. destruct (decide (q = p)) as [->|Hne].
    + rewrite lookup_insert_eq. intros [= <-]. exact Hs.
    + rewrite lookup_insert_ne by done. intros Hq.
      destruct (calls_of_other p q evs Hevs Hne) as (E1 & E2 & E3).
      rewrite factoryCalls_app, creatorCalls_app, teardownCalls_app,
        E1, E2, E3, !app_nil_r.
      unfold isRegistered; simpl. rewrite (Hm q Hne).
      eapply surrogateInv_objects; [exact Ho|]. by apply Hsur.
  - intros q r. destruct (decide (q = p)) as [->|Hne].
    + intros Hr. split; [by apply Hmp|]. rewrite lookup_insert_eq. eauto.
    + rewrite (Hm q Hne). intros Hr. destruct (Hserv q r Hr) as [-> ?].
      split; [done|]. by rewrite lookup_insert_ne.
  - intros q. destruct (decide (q = p)) as [->|Hne]; [done|].
    rewrite lookup_insert_ne by done. intros H'. specialize (Hsf _ H'). lia.
  - exact Hof.
  - apply Forall_app. split.
    + eapply Forall_impl; [exact Hevf|]. simpl. intros; lia.
    + eapply Forall_impl; [exact Hevs|]. simpl. by intros ? ->.
Qed.

Lemma Inv_silent l tr : Inv (l, tr) -> Inv (l, tr ++ []).
Proof. by rewrite app_nil_r. Qed.

Lemma Inv_withObject l tr a o :
  Inv (l, tr) -> is_Some (objects l !! a) -> Inv (withObject a o l, tr ++ []).
Proof.
  rewrite app_nil_r.
  intros [Hsur Hserv Hsf Hobf Hevf] Ha; simpl in *.
  assert (forall b, is_Some (objects l !! b) ->
                    is_Some (<[a := o]> (objects l) !! b)) as Hsub.
  { intros b Hb. destruct (decide (b = a)) as [->|Hne].
    - rewrite lookup_insert_eq. eauto.
    - by rewrite lookup_insert_ne. }
  split; simpl; auto.
  - intros p s Hs. eapply surrogateInv_objects; [exact Hsub|].
    by apply (Hsur p s).
  - intros b. destruct (decide (b = a)) as [->|Hne]; [auto|].
    rewrite lookup_insert_ne by done. auto.
Qed.

(** Starting the construction. *)
Lemma startConstruction_inv p reg fc cc tc objs s :
  surrogateInv reg fc cc tc objs s ->
  construction s = NotStarted ->
  surrogateInv reg (fc ++ factoryCalls p (startConstruction p s).2)
    (cc ++ creatorCalls p (startConstruction p s).2)
    (tc ++ teardownCalls p (startConstruction p s).2) objs
    (startConstruction p s).1 /\
  Forall (fun e => eventSurrogate e = p) (startConstruction p s).2.
Proof.
  intros [Hwf Hrev Htd Hph] Hc. unfold phaseInv in Hph. rewrite Hc in Hph.
  destruct Hph as (Hg & Hga & Hgv & Hun & -> & ->).
  unfold startConstruction.
  destruct (serviceFactory s (injector s)) as [inner outcome] eqn:Hsf.
  simpl. rewrite decide_True by done. rewrite !app_nil_r.
  split; [|by repeat constructor].
  split; simpl; auto.
  unfold phaseInv; simpl. rewrite Hsf; simpl.
  destruct outcome; simpl; unfold memoized; simpl; split_and!; auto.
Qed.

Lemma creating_NotStarted reg fc cc tc objs s :
  surrogateInv reg fc cc tc objs s ->
  getValueAsync s = CreateAndMemoize \/ getOrCreateValueAsync s = CreateAndMemoize ->
  construction s = NotStarted.
Proof.
  intros [_ _ _ Hph] Hg. unfold phaseInv, memoized in Hph.
  destruct (construction s) as [| | | | |[|[]]]; try done.
  all: destruct Hph as ([Hm1 Hm2] & _); rewrite Hm1, Hm2 in Hg; by destruct Hg.
Qed.

Lemma callAsyncGetter_inv g p reg fc cc tc objs s :
  surrogateInv reg fc cc tc objs s ->
  g = getValueAsync s \/ g = getOrCreateValueAsync s ->
  surrogateInv reg (fc ++ factoryCalls p (callAsyncGetter g p s).1.2)
    (cc ++ creatorCalls p (callAsyncGetter g p s).1.2)
    (tc ++ teardownCalls p (callAsyncGetter g p s).1.2) objs
    (callAsyncGetter g p s).1.1 /\
  Forall (fun e => eventSurrogate e = p) (callAsyncGetter g p s).1.2.
Proof.
  intros Hsi Hg. destruct g; simpl.
  - assert (construction s = NotStarted) as Hc.
    { eapply creating_NotStarted; [exact Hsi|]. destruct Hg; auto. }
    destruct (startConstruction_inv p _ _ _ _ _ _ Hsi Hc) as [H1 H2].
    by destruct (startConstruction p s).
  - by rewrite !app_nil_r.
  - by rewrite !app_nil_r.
Qed.

Lemma Inv_withSurrogate l tr p s' evs :
  Inv (l, tr) ->
  is_Some (surrogates l !! p) ->
  Forall (fun e => eventSurrogate e = p) evs ->
  surrogateInv (isRegistered l p) (factoryCalls p (tr ++ evs))
    (creatorCalls p (tr ++ evs)) (teardownCalls p (tr ++ evs)) (objects l) s' ->
  Inv (withSurrogate p s' l, tr ++ evs).
Proof.
  intros HI Hp Hevs Hs. unfold withSurrogate.
  apply Inv_update; auto.
  - by apply (inv_surrogates_fresh _ HI).
  - intros r Hr. by destruct (inv_services _ HI p r Hr).
  - apply (inv_objects_fresh _ HI).
Qed.

Lemma Inv_callAsyncGetter l tr p s g :
  Inv (l, tr) ->
  surrogates l !! p = Some s ->
  g = getValueAsync s \/ g = getOrCreateValueAsync s ->
  Inv (withSurrogate p (callAsyncGetter g p s).1.1 l,
       tr ++ (callAsyncGetter g p s).1.2).
Proof.
  intros HI Hs Hg.
  destruct (callAsyncGetter_inv g p _ _ _ _ _ s (inv_surrogate _ HI p s Hs) Hg)
    as [H1 H2].
  apply Inv_withSurrogate; eauto.
  by rewrite factoryCalls_app, creatorCalls_app, teardownCalls_app.
Qed.

Lemma Inv_onProxy l tr p trap :
  Inv (l, tr) ->
  (forall s, surrogates l !! p = Some s -> revoked s = false ->
             Inv ((trap s l).1.1, tr ++ (trap s l).1.2)) ->
  Inv ((onProxy p trap l).1.1, tr ++ (onProxy p trap l).1.2).
Proof.
  intros HI Htrap. unfold onProxy.
  destruct (surrogates l !! p) as [s|] eqn:Hs; [|by apply Inv_silent].
  destruct (revoked s) eqn:Hrev; [by apply Inv_silent|]. by apply Htrap.
Qed.

Lemma Inv_Get st p prop : Inv st -> Inv (exec st (Get p prop)).
Proof.
  destruct st as [l tr]. intros HI. unfold exec; simpl.
  apply Inv_onProxy; [done|]. intros s Hs Hrev. unfold get.
  repeat case_decide; try by apply Inv_silent.
  destruct (safeProperties s !! prop).
  - pose proof (Inv_callAsyncGetter l tr p s (getValueAsync s) HI Hs
                  (or_introl eq_refl)) as HI'.
    by destruct (callAsyncGetter (getValueAsync s) p s) as [[s' evs] src].
  - destruct (callGetValue _ _ _); [unfold Reflect_get|]; simpl.
    + destruct (objects l !! a); by apply Inv_silent.
    + by apply Inv_silent.
Qed.

Lemma Inv_Set st p prop v : Inv st -> Inv (exec st (Set_ p prop v)).
Proof.
  destruct st as [l tr]. intros HI. unfold exec; simpl.
  apply Inv_onProxy; [done|]. intros s Hs Hrev. unfold set.
  repeat case_decide; try by apply Inv_silent.
  destruct (safeProperties s !! prop); [by apply Inv_silent|].
  destruct (callGetValue _ _ _); [unfold Reflect_set|]; simpl.
  - destruct (objects l !! a) eqn:Ha; simpl; [|by apply Inv_silent].
    apply Inv_withObject; eauto.
  - by apply Inv_silent.
Qed.

Lemma Inv_Has st p prop : Inv st -> Inv (exec st (Has p prop)).
Proof.
  destruct st as [l tr]. intros HI. unfold exec; simpl.
  apply Inv_onProxy; [done|]. intros s Hs Hrev. unfold has.
  repeat case_decide; try by apply Inv_silent.
  destruct (safeProperties s !! prop); [by apply Inv_silent|].
  destruct (callGetValue _ _ _); [unfold Reflect_has|]; simpl.
  - destruct (objects l !! a); by apply Inv_silent.
  - by apply Inv_silent.
Qed.

Lemma Inv_Other st p t : Inv st -> Inv (exec st (Other p t)).
Proof.
  destruct st as [l tr]. intros HI. unfold exec; simpl.
  apply Inv_onProxy; [done|]. intros s Hs Hrev. by apply Inv_silent.
Qed.

Lemma Inv_Load st v : Inv st -> Inv (exec st (Load v)).
Proof.
  destruct st as [l tr]. intros HI. unfold exec; simpl.
  unfold load, getServiceRegistration.
  destruct v as [| |a]; try by apply Inv_silent.
  destruct (services l !! a) as [r|] eqn:Hr; simpl; [|by apply Inv_silent].
  destruct (inv_services _ HI a r Hr) as [-> [s Hs]]; simpl in *.
  rewrite Hs.
  pose proof (Inv_callAsyncGetter l tr a s (getOrCreateValueAsync s) HI Hs
                (or_intror eq_refl)) as HI'.
  by destruct (callAsyncGetter (getOrCreateValueAsync s) a s) as [[s' evs] src].
Qed.

Lemma Inv_destroy l tr p :
  Inv (l, tr) -> Inv ((destroy p l).1, tr ++ (destroy p l).2).
Proof.
  intros HI. unfold destroy.
  destruct (surrogates l !! p) as [s|] eqn:Hs; [|by apply Inv_silent].
  destruct (services l !! p) as [r|] eqn:Hr; [|by apply Inv_silent].
  pose proof (inv_surrogate _ HI p s Hs) as [Hwf Hrev Htd Hph]; simpl in *.
  assert (isRegistered l p = true) as Hreg.
  { unfold isRegistered. rewrite Hr. by apply bool_decide_eq_true_2. }
  rewrite Hreg in *.
  assert (forall s' evs,
    Forall (fun e => eventSurrogate e = p) evs ->
    surrogateInv false (factoryCalls p (tr ++ evs)) (creatorCalls p (tr ++ evs))
      (teardownCalls p (tr ++ evs)) (objects l) s' ->
    Inv (withSurrogate p s' (withServices (delete p (services l)) l), tr ++ evs))
    as Hupd.
  { intros s' evs Hevs Hs'. unfold withSurrogate, withServices; simpl.
    apply Inv_update; auto.
    - apply (inv_surrogates_fresh _ HI). simpl. eauto.
    - intros q Hq. by rewrite lookup_delete_ne.
    - intros r'. by rewrite lookup_delete_eq.
    - apply (inv_objects_fresh _ HI).
    - rewrite lookup_delete_eq. rewrite bool_decide_eq_false_2; [done|].
      by intros [? ?]. }
  simpl.
  unfold deferredWf in Hwf. unfold phaseInv, unsettled in Hph.
  destruct (isResolved (moduleAndValuePromise s)) eqn:Hres;
    [destruct (value (moduleAndValuePromise s)) as [result|] eqn:Hval|].
  all: destruct (state (moduleAndValuePromise s)) as [|v|e] eqn:Hst.
  all: destruct Hwf as [Hw1 Hw2]; try congruence.
  all: try (injection Hw2 as <-).
  all: apply Hupd; [by repeat constructor|].
  all: split; simpl; [first [apply reject_wf|idtac]; unfold deferredWf; simpl;
                        rewrite ?Hst; split; try congruence
                     |reflexivity
                     |rewrite ?Hst; simpl; calls_simpl; rewrite Htd; try congruence
                     |].
  all: calls_simpl; unfold phaseInv, unsettled; simpl; rewrite ?Hst; simpl.
  all: destruct (construction s) as [| | | | |[|[]]]; try done.
  all: try (destruct Hph as (? & ? & ? & ? & ?); congruence).
  all: try (destruct Hph as (? & (r0 & ? & ? & ?) & ?); congruence).
  all: try (destruct Hph as (? & ? & [?|[? ?]] & ?); congruence).
  all: unfold memoized in *; simpl; intuition congruence.
Qed.

Lemma isResolved_registered reg (d : Deferred Created) :
  deferredWf d -> unsettled reg d -> isResolved d = negb reg.
Proof.
  unfold deferredWf, unsettled. intros Hwf Hst. rewrite Hst in Hwf.
  destruct reg; by destruct Hwf.
Qed.

Lemma Inv_resumeCreate l tr p :
  Inv (l, tr) -> Inv ((resumeCreate p l).1, tr ++ (resumeCreate p l).2).
Proof.
  intros HI. unfold resumeCreate.
  destruct (surrogates l !! p) as [s|] eqn:Hs; [|by apply Inv_silent].
  pose proof (inv_surrogate _ HI p s Hs) as [Hwf Hrev Htd Hph]; simpl in *.
  unfold phaseInv in Hph.
  destruct (construction s) as [|[e|[|creator]]| | | |] eqn:Hc;
    try by apply Inv_silent.
  - destruct Hph as (Hm & Hgv & Hun & Hfc & Hcc). simpl.
    apply Inv_withSurrogate; eauto. calls_simpl.
    split; simpl; auto. unfold phaseInv; simpl.
    rewrite Hcc; simpl. split_and!; auto.
  - destruct Hph as (Hm & Hgv & Hun & Hfc & Hcc). simpl.
    apply Inv_withSurrogate; eauto. calls_simpl.
    split; simpl; auto. unfold phaseInv; simpl.
    rewrite Hcc; simpl. split_and!; auto.
  - destruct Hph as (Hm & Hgv & Hun & Hfc & Hcc).
    rewrite (isResolved_registered _ _ Hwf Hun).
    destruct (isRegistered l p) eqn:Hreg; simpl.
    + destruct (creator (injector s)) as [e|instance callback]; simpl.
      * apply Inv_withSurrogate; eauto.
        calls_simpl. rewrite Hreg.
        split; simpl; auto. unfold phaseInv; simpl.
        rewrite Hcc; simpl. split_and!; auto.
      * unfold withSurrogate, withObject; simpl.
        apply Inv_update; [exact HI| |done| | | |simpl; lia| |].
        -- apply Nat.lt_lt_succ_r, (inv_surrogates_fresh _ HI); simpl; eauto.
        -- intros r Hr. by destruct (inv_services _ HI p r Hr).
        -- intros a [o Ho]. destruct (decide (a = nextRef l)) as [->|Hne].
           ++ rewrite lookup_insert_eq; eauto.
           ++ rewrite lookup_insert_ne by done; eauto.
        -- intros a. destruct (decide (a = nextRef l)) as [->|Hne]; [lia|].
           rewrite lookup_insert_ne by done. intros Ha.
           apply Nat.lt_lt_succ_r, (inv_objects_fresh _ HI); simpl; eauto.
        -- by repeat constructor.
        -- fold (isRegistered l p). rewrite Hreg. calls_simpl.
           unfold unsettled in Hun.
           split; simpl; auto.
           ++ by apply resolve_wf.
           ++ unfold phaseInv; simpl. rewrite Hun, Hcc; simpl.
              split_and!; [exact Hm|by exists (mkCreated (nextRef l) callback)
                          |rewrite lookup_insert_eq; eauto|done|done].
    + apply Inv_withSurrogate; eauto. calls_simpl. rewrite Hreg.
      split; simpl; auto.
      unfold phaseInv; simpl. split_and!; auto.
Qed.

Lemma catchHandler_inv reg fc cc tc objs s e :
  deferredWf (moduleAndValuePromise s) ->
  revoked s = negb reg ->
  tc = (if reg then []
        else match state (moduleAndValuePromise s) with
             | Fulfilled r => [teardown r]
             | _ => []
             end) ->
  memoized s ->
  fc = [(serviceFactory s (injector s)).1] ->
  length cc <= 1 ->
  (unsettled reg (moduleAndValuePromise s) \/
   state (moduleAndValuePromise s) = Rejected e) ->
  surrogateInv reg fc cc tc objs (catchHandler e s).
Proof.
  intros Hwf Hrev Htd Hm Hfc Hcc Hst. unfold catchHandler.
  assert (state (reject e (moduleAndValuePromise s)) = Rejected e \/
          reg = false /\
          state (reject e (moduleAndValuePromise s)) = Rejected destroyedBeforeReady)
    as Hst'.
  { unfold unsettled in Hst. simpl.
    destruct Hst as [Hst|Hst]; rewrite Hst; [destruct reg|]; simpl; auto. }
  split; simpl.
  - by apply reject_wf.
  - done.
  - rewrite Htd. destruct reg; [done|]. unfold unsettled in Hst.
    destruct Hst as [Hst|Hst]; by rewrite Hst.
  - unfold phaseInv; simpl. split_and!; auto.
Qed.

Lemma Inv_react l tr p : Inv (l, tr) -> Inv (react p l, tr ++ []).
Proof.
  intros HI. unfold react.
  destruct (surrogates l !! p) as [s|] eqn:Hs; [|by apply Inv_silent].
  pose proof (inv_surrogate _ HI p s Hs) as [Hwf Hrev Htd Hph]; simpl in *.
  unfold phaseInv in Hph.
  destruct (construction s) as [| | | | |] eqn:Hc; try by apply Inv_silent.
  - apply Inv_withSurrogate; eauto. calls_simpl.
    split; simpl; auto.
  - destruct Hph as (Hm & Hgv & Hun & Hfc & Hcc).
    apply Inv_withSurrogate; eauto. calls_simpl.
    apply catchHandler_inv; auto.
  - destruct Hph as (Hm & Hgv & Hreg & Hst & Hfc & Hcc). rewrite Hst.
    apply Inv_withSurrogate; eauto. calls_simpl.
    apply catchHandler_inv; auto. rewrite Hcc; simpl; lia.
Qed.

Lemma Inv_create l tr trigger serviceFactory safeProperties injector :
  Inv (l, tr) ->
  Inv ((create trigger serviceFactory safeProperties injector l).1.1,
       tr ++ (create trigger serviceFactory safeProperties injector l).1.2).
Proof.
  intros HI. unfold create; simpl.
  set (p := nextRef l).
  set (s := mkSurrogate trigger serviceFactory safeProperties injector
              newDeferred NotReady CreateAndMemoize
              (if decide (trigger = Explicit) then ThenService
               else CreateAndMemoize) NotStarted false).
  destruct (calls_of_fresh (nextRef l) p tr (inv_events_fresh _ HI))
    as (Hfc & Hcc & Htc); [done|].
  assert (surrogateInv true (factoryCalls p tr) (creatorCalls p tr)
            (teardownCalls p tr) (objects l) s) as Hs.
  { rewrite Hfc, Hcc, Htc. split; simpl; auto.
    - apply newDeferred_wf.
    - unfold phaseInv; simpl. by split_and!. }
  assert (forall s' evs,
    Forall (fun e => eventSurrogate e = p) evs ->
    surrogateInv true (factoryCalls p (tr ++ evs)) (creatorCalls p (tr ++ evs))
      (teardownCalls p (tr ++ evs)) (objects l) s' ->
    Inv (withSurrogate p s'
           (withServices (<[p := registrationOf p]> (services l))
              (allocate l).2), tr ++ evs)) as Hupd.
  { intros s' evs Hevs Hs'. unfold withSurrogate, withServices; simpl.
    apply Inv_update; auto.
    - intros q Hq. by rewrite lookup_insert_ne.
    - intros r. rewrite lookup_insert_eq. congruence.
    - intros a Ha. apply Nat.lt_lt_succ_r, (inv_objects_fresh _ HI); by simpl.
    - rewrite lookup_insert_eq. rewrite bool_decide_eq_true_2; eauto. }
  case_decide.
  - destruct (startConstruction_inv p _ _ _ _ _ _ Hs eq_refl) as [H1 H2].
    destruct (startConstruction p s) as [s' evs]; simpl in *.
    apply Hupd; [done|]. by calls_simpl.
  - simpl. apply Hupd; [done|]. by calls_simpl.
Qed.

Lemma Inv_registrationDestroy l tr r :
  Inv (l, tr) ->
  Inv ((registrationDestroy r l).1, tr ++ (registrationDestroy r l).2).
Proof.
  destruct r; simpl; [apply Inv_destroy|apply Inv_silent].
Qed.

Lemma Inv_destroyAll rs l tr evs :
  Inv (l, tr ++ evs) ->
  Inv ((foldl destroyNext (l, evs) rs).1, tr ++ (foldl destroyNext (l, evs) rs).2).
Proof.
  revert l evs. induction rs as [|r rs IH]; intros l evs HI; simpl; [done|].
  unfold destroyNext at 2 4; simpl.
  apply IH. rewrite app_assoc. by apply Inv_registrationDestroy.
Qed.

Lemma Inv_ngOnDestroy l tr :
  Inv (l, tr) -> Inv ((ngOnDestroy l).1, tr ++ (ngOnDestroy l).2).
Proof.
  intros HI. unfold ngOnDestroy. apply (Inv_destroyAll _ l tr []).
  by rewrite app_nil_r.
Qed.

Lemma Inv_exec st op : Inv st -> Inv (exec st op).
Proof.
  destruct op.
  - destruct st as [l tr]. apply Inv_create.
  - apply Inv_Get.
  - apply Inv_Set.
  - apply Inv_Has.
  - apply Inv_Other.
  - apply Inv_Load.
  - destruct st as [l tr]. apply Inv_silent.
  - destruct st as [l tr]. apply Inv_silent.
  - destruct st as [l tr]. apply Inv_destroy.
  - destruct st as [l tr]. apply Inv_ngOnDestroy.
  - destruct st as [l tr]. apply Inv_resumeCreate.
  - destruct st as [l tr]. apply Inv_react.
Qed.

Lemma Inv_run ops st : Inv st -> Inv (run ops st).
Proof.
  revert st. induction ops as [|op ops IH]; intros st HI; simpl; [done|].
  by apply IH, Inv_exec.
Qed.

(** ** A step works on one surrogate *)

Lemma sameElsewhere_refl p l : sameElsewhere p l l [].
Proof. by split_and!. Qed.

Lemma sameElsewhere_withSurrogate p l s evs :
  Forall (fun e => eventSurrogate e = p) evs ->
  sameElsewhere p l (withSurrogate p s l) evs.
Proof.
  intros Hevs. split_and!; auto. intros q Hq; simpl.
  by rewrite lookup_insert_ne.
Qed.

Lemma sameElsewhere_withObject p l a o : sameElsewhere p l (withObject a o l) [].
Proof. by split_and!. Qed.

Lemma callAsyncGetter_events g p s :
  Forall (fun e => eventSurrogate e = p) (callAsyncGetter g p s).1.2.
Proof.
  destruct g; simpl; auto. unfold startConstruction.
  destruct (serviceFactory s (injector s)); simpl. by repeat constructor.
Qed.

Lemma onProxy_sameElsewhere p trap l :
  (forall s, sameElsewhere p l (trap s l).1.1 (trap s l).1.2) ->
  sameElsewhere p l (onProxy p trap l).1.1 (onProxy p trap l).1.2.
Proof.
  intros Htrap. unfold onProxy.
  destruct (surrogates l !! p) as [s|]; [|apply sameElsewhere_refl].
  destruct (revoked s); [apply sameElsewhere_refl|apply Htrap].
Qed.

Lemma destroy_sameElsewhere p l :
  sameElsewhere p l (destroy p l).1 (destroy p l).2.
Proof.
  unfold destroy.
  destruct (surrogates l !! p) as [s|]; [|apply sameElsewhere_refl].
  destruct (services l !! p) as [r|]; [|apply sameElsewhere_refl].
  simpl.
  assert (forall s' evs, Forall (fun e => eventSurrogate e = p) evs ->
    sameElsewhere p l
      (withSurrogate p s' (withServices (delete p (services l)) l)) evs) as Hs.
  { intros s' evs Hevs. split_and!; auto. intros q Hq; simpl.
    by rewrite lookup_insert_ne, lookup_delete_ne. }
  destruct (isResolved (moduleAndValuePromise s));
    [destruct (value (moduleAndValuePromise s))|]; apply Hs;
    by repeat constructor.
Qed.

(** Every step other than the loader's [ngOnDestroy] works on one surrogate
    and leaves the others alone. *)
Lemma step_sameElsewhere l tr op p :
  Inv (l, tr) -> target l op = Some p ->
  sameElsewhere p l (step l op).1.1 (step l op).1.2.
Proof.
  intros HI Ht.
  destruct op as [trg fac safe inj|q prop|q prop v|q prop|q t|v|v|v|q| |q|q];
    simpl in Ht; simplify_eq; simpl.
  - unfold create; simpl.
    assert (forall s' evs, Forall (fun e => eventSurrogate e = nextRef l) evs ->
      sameElsewhere (nextRef l) l
        (withSurrogate (nextRef l) s'
           (withServices (<[nextRef l := registrationOf (nextRef l)]> (services l))
              (allocate l).2)) evs) as Hs.
    { intros s' evs Hevs. split_and!; auto. intros q Hq; simpl.
      by rewrite !lookup_insert_ne. }
    case_decide.
    + unfold startConstruction; simpl. destruct (fac inj).
      apply Hs. by repeat constructor.
    + by apply Hs.
  - apply onProxy_sameElsewhere. intros s. unfold get.
    repeat case_decide; try apply sameElsewhere_refl.
    destruct (safeProperties s !! prop).
    + pose proof (callAsyncGetter_events (getValueAsync s) p s) as Hevs.
      destruct (callAsyncGetter (getValueAsync s) p s) as [[s' evs] src].
      by apply sameElsewhere_withSurrogate.
    + destruct (callGetValue _ _ _); [unfold Reflect_get|]; simpl.
      * destruct (objects l !! a); apply sameElsewhere_refl.
      * apply sameElsewhere_refl.
  - apply onProxy_sameElsewhere. intros s. unfold set.
    repeat case_decide; try apply sameElsewhere_refl.
    destruct (safeProperties s !! prop); [apply sameElsewhere_refl|].
    destruct (callGetValue _ _ _); [unfold Reflect_set|]; simpl.
    + destruct (objects l !! a); simpl;
        [apply sameElsewhere_withObject|apply sameElsewhere_refl].
    + apply sameElsewhere_refl.
  - apply onProxy_sameElsewhere. intros s. unfold has.
    repeat case_decide; try apply sameElsewhere_refl.
    destruct (safeProperties s !! prop); [apply sameElsewhere_refl|].
    destruct (callGetValue _ _ _); [unfold Reflect_has|]; simpl.
    + destruct (objects l !! a); apply sameElsewhere_refl.
    + apply sameElsewhere_refl.
  - apply onProxy_sameElsewhere. intros s. apply sameElsewhere_refl.
  - destruct v as [| |a]; simplify_eq.
    unfold load, getServiceRegistration.
    destruct (services l !! p) as [r|] eqn:Hr; simpl;
      [|apply sameElsewhere_refl].
    destruct (inv_services _ HI p r Hr) as [-> [s Hs]]; simpl in *.
    rewrite Hs.
    pose proof (callAsyncGetter_events (getOrCreateValueAsync s) p s) as Hevs.
    destruct (callAsyncGetter (getOrCreateValueAsync s) p s) as [[s' evs] src].
    by apply sameElsewhere_withSurrogate.
  - apply destroy_sameElsewhere.
  - unfold resumeCreate.
    destruct (surrogates l !! p) as [s|]; [|apply sameElsewhere_refl].
    destruct (construction s) as [|[e|[|creator]]| | | |];
      try apply sameElsewhere_refl;
      try (by apply sameElsewhere_withSurrogate).
    destruct (isResolved (moduleAndValuePromise s));
      [by apply sameElsewhere_withSurrogate|].
    destruct (creator (injector s)); simpl.
    + apply sameElsewhere_withSurrogate. by repeat constructor.
    + split_and!; [done|by repeat constructor|].
      intros q Hq; simpl. by rewrite lookup_insert_ne.
  - unfold react.
    destruct (surrogates l !! p) as [s|]; [|apply sameElsewhere_refl].
    destruct (construction s) as [| | | | |];
      try apply sameElsewhere_refl;
      try (by apply sameElsewhere_withSurrogate).
    destruct (state (moduleAndValuePromise s));
      try apply sameElsewhere_refl;
      by apply sameElsewhere_withSurrogate.
Qed.

(** A step that works on no surrogate changes neither the registry nor any
    closure. *)
Lemma step_untargeted l op :
  target l op = None -> op <> NgOnDestroy ->
  (step l op).1.1 = l /\ (step l op).1.2 = [].
Proof.
  intros Ht Hop.
  destruct op as [trg fac safe inj|q prop|q prop v|q prop|q t|v|v|v|q| |q|q];
    simpl in Ht; try done.
  by destruct v.
Qed.

(** ** Consequences of the invariant in one state *)

Lemma Inv_reachable devMode ops : Inv (run ops (start devMode)).
Proof. apply Inv_run, Inv_start. Qed.

Lemma registered_surrogate l tr p :
  Inv (l, tr) -> is_Some (services l !! p) ->
  services l !! p = Some (registrationOf p) /\ isRegistered l p = true /\
  exists s, surrogates l !! p = Some s /\ revoked s = false.
Proof.
  intros HI [r Hr].
  destruct (inv_services _ HI p r Hr) as [-> [s Hs]]; simpl in *.
  assert (isRegistered l p = true) as Hreg.
  { unfold isRegistered. apply bool_decide_eq_true_2. eauto. }
  split_and!; auto. exists s. split; [done|].
  pose proof (si_revoked _ _ _ _ _ _ (inv_surrogate _ HI p s Hs)) as Hrev.
  simpl in Hrev. by rewrite Hreg in Hrev.
Qed.

Lemma withSurrogate_id l p s :
  surrogates l !! p = Some s -> withSurrogate p s l = l.
Proof.
  intros Hs. destruct l; unfold withSurrogate; simpl in *.
  by rewrite insert_id.
Qed.

(** What the invariant says about a registered surrogate, by phase. *)
Lemma registered_phase l tr p s :
  Inv (l, tr) -> surrogates l !! p = Some s -> is_Some (services l !! p) ->
  revoked s = false /\
  match phase s with
  | NotBegun | InFlight =>
      getValue s = NotReady /\ state (moduleAndValuePromise s) = Pending /\
      isResolved (moduleAndValuePromise s) = false
  | Succeeded =>
      exists r, getValue s = ReturnService r /\
                state (moduleAndValuePromise s) = Fulfilled r /\
                isResolved (moduleAndValuePromise s) = true /\
                value (moduleAndValuePromise s) = Some r /\
                is_Some (objects l !! service r)
  | Failed =>
      exists e, construction s = Settled (inl e) /\ getValue s = Rethrow e /\
                state (moduleAndValuePromise s) = Rejected e /\
                isResolved (moduleAndValuePromise s) = true /\
                value (moduleAndValuePromise s) = None
  end.
Proof.
  intros HI Hs Hreg.
  destruct (registered_surrogate _ _ _ HI Hreg) as (_ & Hr & s' & Hs' & Hrev).
  assert (s' = s) as -> by congruence. split; [done|].
  pose proof (inv_surrogate _ HI p s Hs) as [Hwf _ _ Hph]; simpl in *.
  rewrite Hr in Hph. unfold phaseInv, unsettled in Hph. unfold phase.
  destruct (construction s) as [| | | | |[|[]]]; try done.
  - destruct Hph as (_ & _ & Hg & Hst & _).
    split_and!; auto. by apply wf_pending.
  - destruct Hph as (_ & Hg & Hst & _).
    split_and!; auto. by apply wf_pending.
  - destruct Hph as (_ & (r & Hsv & Hg & Hst) & Ho & _).
    exists r. destruct (wf_fulfilled _ _ Hwf Hst). subst.
    by split_and!.
  - destruct Hph as (_ & Hg & Hst & _).
    split_and!; auto. by apply wf_pending.
  - by destruct Hph as (_ & _ & ? & _).
  - destruct Hph as (_ & Hg & [Hst|[? _]] & _); [|done].
    exists j. destruct (wf_rejected _ _ Hwf Hst). by split_and!.
  - destruct Hph as (_ & (r & Hsv & Hg & Hst) & Ho & _).
    exists r. destruct (wf_fulfilled _ _ Hwf Hst). subst.
    by split_and!.
Qed.

Lemma isReady_registered l tr p s :
  Inv (l, tr) -> surrogates l !! p = Some s -> is_Some (services l !! p) ->
  isReady (Ref p) l = isResolved (moduleAndValuePromise s).
Proof.
  intros HI Hs Hreg.
  destruct (registered_surrogate _ _ _ HI Hreg) as (Hr & _).
  unfold isReady, getServiceRegistration. rewrite Hr; simpl. by rewrite Hs.
Qed.

Lemma value_settled {T} (cs : list (Settlement T)) (d : Deferred T) :
  isResolved d = true -> value (foldl applySettlement d cs) = value d.
Proof.
  revert d. induction cs as [|c cs IH]; intros d Hd; simpl; [done|].
  rewrite IH.
  - destruct c; simpl; [by rewrite Hd|done].
  - by destruct c.
Qed.

(** The Deferred stores a value only if the first call of a resolving
    function is a [resolve]. *)
Lemma value_first_settlement {T} (cs : list (Settlement T)) :
  value (foldl applySettlement newDeferred cs) =
  match cs with
  | CallResolve v :: _ => Some v
  | _ => None
  end.
Proof.
  destruct cs as [|c cs]; simpl; [done|].
  rewrite value_settled; by destruct c.
Qed.

(** ** Properties that hold along a run *)

(** [ngOnDestroy] of the loader is a sequence of destroy calls. *)
Lemma destroyAll_ind (P : Loader * list Event -> Prop) rs l tr evs :
  (forall st q, P st -> P (exec st (Destroy q))) ->
  P (l, tr ++ evs) ->
  P ((foldl destroyNext (l, evs) rs).1, tr ++ (foldl destroyNext (l, evs) rs).2).
Proof.
  intros Hstep. revert l evs.
  induction rs as [|r rs IH]; intros l evs HP; simpl; [done|].
  unfold destroyNext at 2 4; simpl. apply IH.
  destruct r as [q|]; simpl.
  - rewrite app_assoc. apply (Hstep (l, tr ++ evs) q HP).
  - by rewrite app_nil_r.
Qed.

Lemma run_ind (P : Loader * list Event -> Prop) (allowed : Op -> Prop) :
  (forall q, allowed (Destroy q)) ->
  (forall st op, op <> NgOnDestroy -> allowed op -> P st -> P (exec st op)) ->
  forall ops st, Forall allowed ops -> P st -> P (run ops st).
Proof.
  intros Hd Hstep ops.
  induction ops as [|op ops IH]; intros st Hall HP; simpl; [done|].
  inversion Hall as [|? ? Hop Hops]; subst.
  apply IH; [done|].
  assert (op = NgOnDestroy \/ op <> NgOnDestroy) as [->|Hne]
    by (destruct op; auto; by right).
  2: by apply Hstep.
  destruct st as [l tr]. unfold exec; simpl. unfold ngOnDestroy.
  apply (destroyAll_ind P _ l tr []).
  - intros st q HQ. by apply Hstep.
  - by rewrite app_nil_r.
Qed.

Lemma exec_elsewhere st op p :
  Inv st -> op <> NgOnDestroy -> target st.1 op <> Some p ->
  surrogates (exec st op).1 !! p = surrogates st.1 !! p /\
  services (exec st op).1 !! p = services st.1 !! p /\
  factoryCalls p (exec st op).2 = factoryCalls p st.2 /\
  creatorCalls p (exec st op).2 = creatorCalls p st.2 /\
  teardownCalls p (exec st op).2 = teardownCalls p st.2.
Proof.
  destruct st as [l tr]. intros HI Hop Ht. unfold exec; simpl in *.
  destruct (target l op) as [q|] eqn:Hq.
  - assert (p <> q) as Hne by congruence.
    destruct (step_sameElsewhere l tr op q HI Hq) as (_ & Hevs & Hsame).
    destruct (Hsame p Hne) as [-> ->].
    destruct (calls_of_other q p _ Hevs Hne) as (E1 & E2 & E3).
    rewrite factoryCalls_app, creatorCalls_app, teardownCalls_app, E1, E2, E3.
    by rewrite !app_nil_r.
  - destruct (step_untargeted l op Hq Hop) as [-> ->].
    by rewrite !app_nil_r.
Qed.

Lemma isDevMode_exec st op : isDevMode (exec st op).1 = isDevMode st.1.
Proof.
  destruct st as [l tr]. unfold exec; simpl.
  assert (forall rs acc,
            isDevMode (foldl destroyNext acc rs).1 = isDevMode acc.1) as Hall.
  { induction rs as [|r rs IH]; intros acc; [done|].
    cbn [foldl]. rewrite IH. unfold destroyNext; simpl.
    destruct r as [q|]; simpl; [|done].
    unfold destroy. repeat case_match; done. }
  destruct op as [trg fac safe inj|q prop|q prop v|q prop|q t|v|v|v|q| |q|q];
    simpl; try done.
  - unfold create, startConstruction; simpl. repeat case_match; done.
  - unfold onProxy, get, Reflect_get, callAsyncGetter, startConstruction.
    repeat case_match; done.
  - unfold onProxy, set, Reflect_set. repeat case_match; done.
  - unfold onProxy, has, Reflect_has. repeat case_match; done.
  - unfold onProxy. repeat case_match; done.
  - unfold load, registrationLoad, callAsyncGetter, startConstruction.
    repeat case_match; simplify_eq; done.
  - unfold destroy. repeat case_match; done.
  - apply (Hall _ (l, [])).
  - unfold resumeCreate. repeat case_match; unfold allocate in *; by simplify_eq.
  - unfold react. repeat case_match; done.
Qed.

(** The build mode of a loader never changes. *)
Lemma isDevMode_run devMode ops : isDevMode (run ops (start devMode)).1 = devMode.
Proof.
  assert (forall st, isDevMode (run ops st).1 = isDevMode st.1) as Hgen.
  { induction ops as [|op ops IH]; intros st; simpl; [done|].
    by rewrite IH, isDevMode_exec. }
  apply Hgen.
Qed.

(** A surrogate that is no longer registered: nothing is called for it any
    more, it stays unregistered, and its Deferred keeps its state. *)
Lemma step_unregistered l tr op p s :
  Inv (l, tr) -> target l op = Some p ->
  surrogates l !! p = Some s -> services l !! p = None ->
  (step l op).1.2 = [] /\
  services (step l op).1.1 !! p = None /\
  exists s', surrogates (step l op).1.1 !! p = Some s' /\
    revoked s' = true /\
    state (moduleAndValuePromise s') = state (moduleAndValuePromise s).
Proof.
  intros HI Ht Hs Hr.
  pose proof (inv_surrogate _ HI p s Hs) as [Hwf Hrev _ Hph]; simpl in *.
  assert (isRegistered l p = false) as Hreg.
  { unfold isRegistered. rewrite Hr. apply bool_decide_eq_false_2.
    by intros [? ?]. }
  rewrite Hreg in *. simpl in Hrev.
  assert (isResolved (moduleAndValuePromise s) = true) as Hres.
  { apply wf_isResolved; [done|]. unfold phaseInv, unsettled in Hph.
    destruct (construction s) as [| | | | |[|[]]]; try done;
      intros Hp; rewrite Hp in Hph.
    - by destruct Hph as (_ & _ & _ & ? & _).
    - by destruct Hph as (_ & _ & ? & _).
    - by destruct Hph as (_ & (? & _ & _ & ?) & _).
    - by destruct Hph as (_ & _ & ? & _).
    - by destruct Hph as (_ & _ & _ & ? & _).
    - by destruct Hph as (_ & _ & [?|[_ ?]] & _).
    - by destruct Hph as (_ & (? & _ & _ & ?) & _). }
  assert (forall e, state (reject e (moduleAndValuePromise s))
                    = state (moduleAndValuePromise s)) as Hrej.
  { intros e. simpl. apply wf_isResolved in Hres; [|done].
    by destruct (state (moduleAndValuePromise s)). }
  assert ((l, @nil Event).2 = [] /\ services l !! p = None /\
          exists s', surrogates l !! p = Some s' /\ revoked s' = true /\
            state (moduleAndValuePromise s') = state (moduleAndValuePromise s))
    as Hsame by (split_and!; eauto).
  assert (forall s', revoked s' = true ->
            state (moduleAndValuePromise s') = state (moduleAndValuePromise s) ->
            (withSurrogate p s' l, @nil Event).2 = [] /\
            services (withSurrogate p s' l) !! p = None /\
            exists s'', surrogates (withSurrogate p s' l) !! p = Some s'' /\
              revoked s'' = true /\
              state (moduleAndValuePromise s'')
              = state (moduleAndValuePromise s)) as Hupd.
  { intros s' ? ?. split_and!; auto. exists s'. simpl.
    by rewrite lookup_insert_eq. }
  destruct op as [trg fac safe inj|q prop|q prop v|q prop|q t|v|v|v|q| |q|q];
    simpl in Ht; simplify_eq; simpl.
  - pose proof (inv_surrogates_fresh _ HI (nextRef l)) as Hf. simpl in Hf.
    rewrite Hs in Hf. specialize (Hf (ltac:(eauto))). lia.
  - unfold onProxy. by rewrite Hs, Hrev.
  - unfold onProxy. by rewrite Hs, Hrev.
  - unfold onProxy. by rewrite Hs, Hrev.
  - unfold onProxy. by rewrite Hs, Hrev.
  - destruct v as [| |a]; simplify_eq.
    unfold load, getServiceRegistration. by rewrite Hr.
  - unfold destroy. by rewrite Hs, Hr.
  - unfold resumeCreate. rewrite Hs.
    destruct (construction s) as [|[e|[|creator]]| | | |]; try done;
      try (by apply Hupd).
    rewrite Hres. by apply Hupd.
  - unfold react. rewrite Hs.
    destruct (construction s) as [| | | | |]; try done;
      try (by apply Hupd).
    + apply Hupd; [done|]. apply Hrej.
    + destruct (state (moduleAndValuePromise s)) eqn:Hst; try done.
      * by apply Hupd.
      * apply Hupd; [done|]. simpl. by rewrite Hst.
Qed.

Lemma unregistered_exec p st0 st op :
  op <> NgOnDestroy -> unregisteredLike p st0 st ->
  unregisteredLike p st0 (exec st op).
Proof.
  intros Hop (HI & Hr & Hfc & Hcc & Htc & s0 & s & Hs0 & Hs & Hrev & Hst).
  split; [by apply Inv_exec|].
  destruct (decide (target st.1 op = Some p)) as [Ht|Ht].
  - destruct st as [l tr]; simpl in *.
    destruct (step_unregistered l tr op p s HI Ht Hs Hr)
      as (Hevs & Hr' & s' & Hs' & Hrev' & Hst').
    unfold exec; simpl. rewrite Hevs, app_nil_r.
    split_and!; auto. exists s0, s'. split_and!; auto. congruence.
  - destruct (exec_elsewhere st op p HI Hop Ht) as (E1 & E2 & E3 & E4 & E5).
    rewrite E2, E3, E4, E5. split_and!; auto.
    exists s0, s. by rewrite E1.
Qed.

Lemma unregistered_run p ops st :
  Inv st -> is_Some (surrogates st.1 !! p) -> services st.1 !! p = None ->
  unregisteredLike p st (run ops st).
Proof.
  intros HI [s Hs] Hr.
  apply (run_ind (unregisteredLike p st) (fun _ => True)); auto.
  - intros st' op Hop _. by apply unregistered_exec.
  - by apply Forall_true.
  - pose proof (inv_surrogate _ HI p s Hs) as [_ Hrev _ _]; simpl in *.
    assert (isRegistered st.1 p = false) as Hreg.
    { unfold isRegistered. rewrite Hr. apply bool_decide_eq_false_2.
      by intros [? ?]. }
    rewrite Hreg in Hrev.
    split_and!; auto. by exists s, s.
Qed.

Lemma destroy_registered l tr p s :
  Inv (l, tr) -> surrogates l !! p = Some s -> is_Some (services l !! p) ->
  services (destroy p l).1 !! p = None /\
  exists s', surrogates (destroy p l).1 !! p = Some s' /\
    (isResolved (moduleAndValuePromise s) = false ->
       (destroy p l).2 = [] /\
       state (moduleAndValuePromise s') = Rejected destroyedBeforeReady).
Proof.
  intros HI Hs [r Hr]. unfold destroy. rewrite Hs, Hr; simpl.
  pose proof (si_wf _ _ _ _ _ _ (inv_surrogate _ HI p s Hs)) as Hwf.
  destruct (isResolved (moduleAndValuePromise s)) eqn:Hres;
    [destruct (value (moduleAndValuePromise s))|]; simpl.
  - rewrite lookup_delete_eq, lookup_insert_eq. split; [done|]. by eexists.
  - rewrite lookup_delete_eq, lookup_insert_eq. split; [done|]. by eexists.
  - rewrite lookup_delete_eq, lookup_insert_eq. split; [done|].
    eexists. split; [done|]. intros _. split; [done|]. simpl.
    unfold deferredWf in Hwf.
    destruct (state (moduleAndValuePromise s)); destruct Hwf; simpl; congruence.
Qed.

(** The state of the Deferred of any surrogate, by phase. *)
Lemma phase_deferred l tr p s :
  Inv (l, tr) -> surrogates l !! p = Some s ->
  match phase s with
  | Succeeded => exists r, state (moduleAndValuePromise s) = Fulfilled r
  | Failed =>
      exists e, construction s = Settled (inl e) /\
        (state (moduleAndValuePromise s) = Rejected e \/
         isRegistered l p = false /\
         state (moduleAndValuePromise s) = Rejected destroyedBeforeReady)
  | NotBegun | InFlight =>
      state (moduleAndValuePromise s) =
      if isRegistered l p then Pending else Rejected destroyedBeforeReady
  end.
Proof.
  intros HI Hs.
  pose proof (inv_surrogate _ HI p s Hs) as [_ _ _ Hph]; simpl in *.
  unfold phaseInv, unsettled in Hph. unfold phase.
  destruct (construction s) as [| | | | |[|[]]]; try done.
  - by destruct Hph as (_ & _ & _ & ? & _).
  - by destruct Hph as (_ & _ & ? & _).
  - destruct Hph as (_ & (r & _ & _ & ?) & _). eauto.
  - by destruct Hph as (_ & _ & ? & _).
  - destruct Hph as (_ & _ & -> & ? & _). done.
  - destruct Hph as (_ & _ & ? & _). eauto.
  - destruct Hph as (_ & (r & _ & _ & ?) & _). eauto.
Qed.

Lemma getValue_service l tr p s r :
  Inv (l, tr) -> surrogates l !! p = Some s -> getValue s = ReturnService r ->
  state (moduleAndValuePromise s) = Fulfilled r.
Proof.
  intros HI Hs Hg.
  pose proof (inv_surrogate _ HI p s Hs) as [_ _ _ Hph]; simpl in *.
  unfold phaseInv in Hph.
  destruct (construction s) as [| | | | |[|[]]]; try done.
  - destruct Hph as (_ & _ & ? & _); congruence.
  - destruct Hph as (_ & ? & _); congruence.
  - destruct Hph as (_ & (r' & _ & ? & ?) & _); congruence.
  - destruct Hph as (_ & ? & _); congruence.
  - destruct Hph as (_ & ? & _); congruence.
  - destruct Hph as (_ & ? & _); congruence.
  - destruct Hph as (_ & (r' & _ & ? & ?) & _); congruence.
Qed.

Lemma step_keeps_surrogate l op p :
  op <> NgOnDestroy -> is_Some (surrogates l !! p) ->
  is_Some (surrogates (step l op).1.1 !! p).
Proof.
  intros Hop Hp.
  assert (forall q s', is_Some (<[q := s']> (surrogates l) !! p)) as Hins.
  { intros. apply lookup_insert_is_Some'. auto. }
  destruct op as [trg fac safe inj|q prop|q prop v|q prop|q t|v|v|v|q| |q|q];
    simpl; try done.
  - unfold create, startConstruction; simpl.
    repeat case_match; simpl; apply Hins.
  - unfold onProxy, get, Reflect_get, callAsyncGetter, startConstruction.
    repeat case_match; simplify_eq; simpl; try done; apply Hins.
  - unfold onProxy, set, Reflect_set. repeat case_match; simpl; done.
  - unfold onProxy, has, Reflect_has. repeat case_match; simpl; done.
  - unfold onProxy. repeat case_match; simpl; done.
  - unfold load, registrationLoad, callAsyncGetter, startConstruction.
    repeat case_match; simplify_eq; simpl; try done; apply Hins.
  - unfold destroy. repeat case_match; simpl; try done; apply Hins.
  - unfold resumeCreate.
    repeat case_match; unfold allocate in *; simplify_eq; simpl; try done;
      apply Hins.
  - unfold react. repeat case_match; simpl; try done; apply Hins.
Qed.

Lemma surrogate_run p ops st :
  Inv st -> is_Some (surrogates st.1 !! p) ->
  Inv (run ops st) /\ is_Some (surrogates (run ops st).1 !! p).
Proof.
  intros HI Hp.
  apply (run_ind (fun st => Inv st /\ is_Some (surrogates st.1 !! p))
           (fun _ => True)); auto.
  - intros st' op Hop _ [HI' Hp']. split; [by apply Inv_exec|].
    by apply step_keeps_surrogate.
  - by apply Forall_true.
Qed.

Lemma idle_getValueAsync l tr p s :
  Inv (l, tr) -> surrogates l !! p = Some s -> trigger s = Explicit ->
  construction s = NotStarted ->
  getValueAsync s = ThenService /\ getOrCreateValueAsync s = CreateAndMemoize /\
  factoryCalls p tr = [].
Proof.
  intros HI Hs Ht Hc.
  pose proof (inv_surrogate _ HI p s Hs) as [_ _ _ Hph]; simpl in *.
  unfold phaseInv in Hph. rewrite Hc, Ht in Hph.
  by destruct Hph as (? & ? & _ & _ & ? & _).
Qed.

Lemma step_idle l tr op p s :
  Inv (l, tr) -> target l op = Some p -> loads p op = false ->
  surrogates l !! p = Some s -> trigger s = Explicit ->
  construction s = NotStarted ->
  exists s', surrogates (step l op).1.1 !! p = Some s' /\
    trigger s' = Explicit /\ construction s' = NotStarted /\
    safeProperties s' = safeProperties s.
Proof.
  intros HI Htg Hl Hs Ht Hc.
  destruct (idle_getValueAsync _ _ _ _ HI Hs Ht Hc) as (Hga & _ & _).
  assert (exists s', surrogates l !! p = Some s' /\ trigger s' = Explicit /\
            construction s' = NotStarted /\
            safeProperties s' = safeProperties s) as Hsame by eauto.
  destruct op as [trg fac safe inj|q prop|q prop v|q prop|q t|v|v|v|q| |q|q];
    simpl in Htg; simplify_eq; simpl.
  - pose proof (inv_surrogates_fresh _ HI (nextRef l)) as Hf. simpl in Hf.
    rewrite Hs in Hf. specialize (Hf (ltac:(eauto))). lia.
  - unfold onProxy, get. rewrite Hs, Hga. simpl.
    unfold Reflect_get; repeat case_match; simplify_eq; simpl; try done.
    rewrite lookup_insert_eq; eauto.
  - unfold onProxy, set, Reflect_set. rewrite Hs.
    repeat case_match; simplify_eq; simpl; done.
  - unfold onProxy, has, Reflect_has. rewrite Hs.
    repeat case_match; simplify_eq; simpl; done.
  - unfold onProxy. rewrite Hs. repeat case_match; done.
  - destruct v as [| |a]; simplify_eq. simpl in Hl.
    by rewrite bool_decide_eq_true_2 in Hl.
  - unfold destroy. rewrite Hs.
    repeat case_match; simplify_eq; simpl; try done;
      rewrite lookup_insert_eq; eauto.
  - unfold resumeCreate. by rewrite Hs, Hc.
  - unfold react. by rewrite Hs, Hc.
Qed.

Lemma idle_run p safe ops st :
  Forall (fun op => loads p op = false) ops ->
  idle p safe st -> idle p safe (run ops st).
Proof.
  intros Hops. apply (run_ind (idle p safe) (fun op => loads p op = false)); auto.
  intros st' op Hop Hl (HI & s & Hs & Ht & Hc & Hsafe).
  split; [by apply Inv_exec|].
  destruct (decide (target st'.1 op = Some p)) as [Htg|Htg].
  - destruct st' as [l tr]; simpl in *.
    destruct (step_idle l tr op p s HI Htg Hl Hs Ht Hc) as (s' & ? & ? & ? & ?).
    exists s'. split_and!; auto. congruence.
  - destruct (exec_elsewhere st' op p HI Hop Htg) as (E1 & _).
    exists s. by rewrite E1.
Qed.

(** The calls of the construction closure so far, and the binding of the two
    async getters, by construction state. *)
Lemma construction_getters l tr p s :
  Inv (l, tr) -> surrogates l !! p = Some s ->
  match construction s with
  | NotStarted =>
      factoryCalls p tr = [] /\
      getOrCreateValueAsync s = CreateAndMemoize /\
      getValueAsync s = (if decide (trigger s = Explicit) then ThenService
                         else CreateAndMemoize)
  | _ =>
      factoryCalls p tr = [(serviceFactory s (injector s)).1] /\
      getOrCreateValueAsync s = ReturnValuePromise /\
      getValueAsync s = ReturnValuePromise
  end.
Proof.
  intros HI Hs.
  pose proof (inv_surrogate _ HI p s Hs) as [_ _ _ Hph]; simpl in *.
  unfold phaseInv, memoized in Hph.
  destruct (construction s) as [| | | | |[|[]]]; try done.
  - by destruct Hph as (? & ? & _ & _ & ? & _).
  - by destruct Hph as ([? ?] & _ & _ & ? & _).
  - by destruct Hph as ([? ?] & _ & _ & ? & _).
  - by destruct Hph as ([? ?] & _ & _ & ? & _).
  - by destruct Hph as ([? ?] & _ & _ & _ & ? & _).
  - by destruct Hph as ([? ?] & _ & _ & ? & _).
  - by destruct Hph as ([? ?] & _ & _ & ? & _).
Qed.

Lemma startConstruction_events p s :
  (startConstruction p s).2 = [InvokeFactory p (serviceFactory s (injector s)).1].
Proof.
  unfold startConstruction. by destruct (serviceFactory s (injector s)).
Qed.

Lemma startConstruction_getter p s :
  getOrCreateValueAsync (startConstruction p s).1 = ReturnValuePromise.
Proof.
  unfold startConstruction. by destruct (serviceFactory s (injector s)).
Qed.

Lemma load_twice l tr v :
  Inv (l, tr) ->
  step (step l (Load v)).1.1 (Load v)
  = ((step l (Load v)).1.1, [], (step l (Load v)).2).
Proof.
  intros HI. simpl. unfold load, getServiceRegistration.
  destruct v as [| |a]; try done.
  destruct (services l !! a) as [r|] eqn:Hr; simpl; [|by rewrite Hr].
  destruct (inv_services _ HI a r Hr) as [-> [s Hs]]; simpl in *.
  rewrite Hs.
  pose proof (construction_getters _ _ _ _ HI Hs) as Hg.
  assert (exists s',
    callAsyncGetter (getOrCreateValueAsync s) a s = (s', (callAsyncGetter (getOrCreateValueAsync s) a s).1.2, OfValuePromise a) /\
    getOrCreateValueAsync s' = ReturnValuePromise) as (s' & Hcall & Hs').
  { destruct (construction s); destruct Hg as (_ & Hg & _); rewrite Hg; simpl.
    1: { pose proof (startConstruction_getter a s).
         destruct (startConstruction a s) as [s' evs]. by exists s'. }
    all: by exists s. }
  rewrite Hcall; simpl. rewrite Hr; simpl.
  rewrite lookup_insert_eq, Hs'; simpl.
  unfold withSurrogate; simpl. by rewrite insert_insert_eq.
Qed.

(** The teardown callback of a surrogate is called at most once in a run. *)
Lemma teardown_at_most_once devMode ops p s :
  surrogates (run ops (start devMode)).1 !! p = Some s ->
  length (teardownCalls p (run ops (start devMode)).2) <= 1.
Proof.
  intros Hs. pose proof (Inv_reachable devMode ops) as HI.
  pose proof (si_teardown _ _ _ _ _ _ (inv_surrogate _ HI p s Hs)) as Htd.
  rewrite Htd. repeat case_match; simpl; lia.
Qed.

(** A builder creates on injection unless [createOn] says otherwise, and
    hands its safe members to [#create]. *)
Lemma build_lazyFactory serviceFactory injector l :
  build (Builder.lazyFactory serviceFactory) injector l
  = create OnInjection serviceFactory ∅ injector l /\
  forall t, build (Builder.createOn t (Builder.lazyFactory serviceFactory))
              injector l
            = create t serviceFactory ∅ injector l.
Proof. by split. Qed.

(** * The claims

    Every theorem below speaks about an arbitrary run of operations and jobs
    from a new loader.  "Registered" means present in [#services]; by the
    invariant a surrogate is registered exactly as long as its proxy is not
    revoked. *)

(** C1 does not hold as stated.  The demo service is created on injection and
    its construction closure rejects.  The surrogate is still registered and
    its construction has settled with a failure, but the promise of
    [whenReady], called before or after the failure, is rejected with that
    failure instead of being fulfilled. *)
Lemma whenReady_rejects_after_failed_construction :
  let before := (run [Create OnInjection brokenFactory demoSafeProperties 0]
                   (start true)).1 in
  let l := (run failedRun (start true)).1 in
  is_Some (services l !! 0) /\
  (exists s, surrogates l !! 0 = Some s /\ valuePromise s = Rejected (Thrown 1) /\
             state (moduleAndValuePromise s) = Rejected (Thrown 1)) /\
  settledAs l (whenReady (Ref 0) before) = Rejected (Thrown 1) /\
  settledAs l (whenReady (Ref 0) l) = Rejected (Thrown 1) /\
  Rejected (Thrown 1) <> Fulfilled tt.
Proof.
  split; [vm_compute; eauto|].
  split; [eexists; split; [vm_compute; reflexivity|by vm_compute]|].
  split; [by vm_compute|]. split; [by vm_compute|]. done.
Qed.

(** C1, amended.  The promise that [whenReady(v)] returned in some state of a
    run has settled, in every later state, the way the [await] of the
    registration's Deferred settles: for a surrogate registered at the call
    it is fulfilled once construction has succeeded, rejected with the
    construction failure once construction has failed (with the destruction
    error when the surrogate had been destroyed first), rejected with the
    destruction error once the surrogate has been destroyed before its
    construction settled, and pending otherwise.  For a value that is not
    registered as a surrogate at the call it is fulfilled immediately. *)
Theorem whenReady_settles_with_the_deferred devMode ops1 ops2 v :
  let st1 := run ops1 (start devMode) in
  let st2 := run ops2 st1 in
  let ready := settledAs st2.1 (whenReady v st1.1) in
  match v with
  | Ref p =>
      match services st1.1 !! p with
      | Some _ =>
          exists s2, surrogates st2.1 !! p = Some s2 /\
            ready = awaited (state (moduleAndValuePromise s2)) /\
            match phase s2 with
            | Succeeded => ready = Fulfilled tt
            | Failed =>
                exists e, valuePromise s2 = Rejected e /\
                  (ready = Rejected e \/
                   services st2.1 !! p = None /\
                   ready = Rejected destroyedBeforeReady)
            | NotBegun | InFlight =>
                ready = if isRegistered st2.1 p then Pending
                        else Rejected destroyedBeforeReady
            end
      | None => ready = Fulfilled tt
      end
  | _ => ready = Fulfilled tt
  end.
Proof.
  intros st1 st2 ready. destruct v as [| |p]; try done.
  destruct (services st1.1 !! p) as [r|] eqn:Hr.
  2: { unfold ready, whenReady, getServiceRegistration. by rewrite Hr. }
  pose proof (Inv_reachable devMode ops1) as HI. fold st1 in HI.
  assert (Inv (st1.1, st1.2)) as HI1 by (by destruct st1).
  destruct (registered_surrogate _ _ _ HI1 (ltac:(eauto)))
    as (Hr1 & _ & s1 & Hs1 & _).
  destruct (surrogate_run p ops2 st1 HI) as [HI2 [s2 Hs2]]; [eauto|].
  fold st2 in HI2, Hs2.
  assert (Inv (st2.1, st2.2)) as HI2' by (by destruct st2).
  assert (ready = awaited (state (moduleAndValuePromise s2))) as Hready.
  { unfold ready, whenReady, getServiceRegistration.
    rewrite Hr1; simpl. by rewrite Hs2. }
  exists s2. split_and!; auto.
  pose proof (phase_deferred _ _ _ _ HI2' Hs2) as Hph.
  rewrite Hready. unfold phase, valuePromise in *.
  destruct (construction s2) as [| | | | |[|[]]]; simpl in *.
  - rewrite Hph. by destruct (isRegistered st2.1 p).
  - rewrite Hph. by destruct (isRegistered st2.1 p).
  - destruct Hph as [r' ->]. done.
  - rewrite Hph. by destruct (isRegistered st2.1 p).
  - rewrite Hph. by destruct (isRegistered st2.1 p).
  - destruct Hph as (e & [= <-] & [->|[Hreg ->]]); exists j; simpl; auto.
    split; [done|]. right. split; [|done].
    unfold isRegistered in Hreg. apply bool_decide_eq_false_1 in Hreg.
    by apply eq_None_not_Some.
  - destruct Hph as [r' ->]. done.
  - destruct Hph as [r' ->]. done.
Qed.

(** C2.  For a registered surrogate [isReady] is false while construction has
    not begun or is in flight, and true once it has succeeded and once it has
    failed; it is true exactly when the Deferred is settled, which is exactly
    when [getValue] has been rebound to the outcome.  For a value that is not
    registered as a surrogate [isReady] is true. *)
Theorem isReady_iff_settled devMode ops :
  let l := (run ops (start devMode)).1 in
  (forall p s, surrogates l !! p = Some s -> is_Some (services l !! p) ->
     isReady (Ref p) l = match phase s with
                         | NotBegun | InFlight => false
                         | Succeeded | Failed => true
                         end /\
     (isReady (Ref p) l = true <-> state (moduleAndValuePromise s) <> Pending) /\
     (isReady (Ref p) l = true <-> getValue s <> NotReady)) /\
  (forall v, (forall p, v = Ref p -> services l !! p = None) ->
             isReady v l = true).
Proof.
  intros l.
  pose proof (Inv_reachable devMode ops) as HI.
  destruct (run ops (start devMode)) as [l0 tr]; simpl in *. subst l.
  split.
  - intros p s Hs Hreg.
    rewrite (isReady_registered _ _ _ _ HI Hs Hreg).
    destruct (registered_phase _ _ _ _ HI Hs Hreg) as [_ Hph].
    destruct (phase s).
    + destruct Hph as (-> & -> & ->). split_and!; [done| |]; by split.
    + destruct Hph as (-> & -> & ->). split_and!; [done| |]; by split.
    + destruct Hph as (r & -> & -> & -> & _). split_and!; [done| |]; by split.
    + destruct Hph as (e & _ & -> & -> & -> & _). split_and!; [done| |]; by split.
  - intros v Hv. unfold isReady, getServiceRegistration.
    destruct v as [| |a]; try done. by rewrite (Hv a eq_refl).
Qed.

(** A failed construction reports ready; a pending one does not. *)
Example failed_construction_reports_ready :
  isReady (Ref 0) (run failedRun (start true)).1 = true /\
  isReady (Ref 0) (run [Create OnInjection brokenFactory demoSafeProperties 0]
                     (start true)).1 = false /\
  isReady (Prim 5) (run failedRun (start true)).1 = true.
Proof. vm_compute. by split_and!. Qed.

(** C3.  In every run the construction closure of a surrogate has been called
    at most once.  While construction has not started no call has been made,
    and the next [load], or the next read of a safe member under [OnAccess],
    makes the one call and returns [valuePromise]; once it has started,
    exactly one call has been made and every [load] and every read of a safe
    member returns the same [valuePromise] without a call and without
    changing the loader.  A surrogate created with [OnInjection] makes its
    call while it is created.  A second [load] of the same value changes
    nothing and returns what the first returned. *)
Theorem construction_attempted_at_most_once devMode ops p s :
  let st := run ops (start devMode) in
  let inner := (serviceFactory s (injector s)).1 in
  surrogates st.1 !! p = Some s ->
  length (factoryCalls p st.2) <= 1 /\
  match construction s with
  | NotStarted =>
      factoryCalls p st.2 = [] /\
      (is_Some (services st.1 !! p) ->
         (exists l', step st.1 (Load (Ref p)) =
                     (l', [InvokeFactory p inner],
                      Normal (PromiseOf (OfValuePromise p)))) /\
         (trigger s = OnAccess ->
          forall prop safeGetter,
            safeProperties s !! prop = Some safeGetter ->
            intercepted prop = false ->
            exists l', step st.1 (Get p prop) =
                       (l', [InvokeFactory p inner],
                        Normal (SafeForward safeGetter (OfValuePromise p)))))
  | _ =>
      factoryCalls p st.2 = [inner] /\
      (is_Some (services st.1 !! p) ->
         step st.1 (Load (Ref p)) =
           (st.1, [], Normal (PromiseOf (OfValuePromise p))) /\
         forall prop safeGetter,
           safeProperties s !! prop = Some safeGetter ->
           intercepted prop = false ->
           step st.1 (Get p prop) =
             (st.1, [], Normal (SafeForward safeGetter (OfValuePromise p))))
  end /\
  (forall serviceFactory safe injector,
     (step st.1 (Create OnInjection serviceFactory safe injector)).1.2
     = [InvokeFactory (nextRef st.1) (serviceFactory injector).1]) /\
  (forall v, step (step st.1 (Load v)).1.1 (Load v)
             = ((step st.1 (Load v)).1.1, [], (step st.1 (Load v)).2)).
Proof.
  intros st inner Hs.
  pose proof (Inv_reachable devMode ops) as HI. fold st in HI.
  assert (Inv (st.1, st.2)) as HI' by (by destruct st).
  pose proof (construction_getters _ _ _ _ HI' Hs) as Hg.
  assert (forall prop, intercepted prop = false ->
            prop <> "ngOnDestroy" /\ prop <> "constructor") as Hint.
  { intros prop H. unfold intercepted in H.
    apply orb_false_elim in H as [Hn1 Hn2].
    by apply bool_decide_eq_false_1 in Hn1, Hn2. }
  split_and!.
  - destruct (construction s); destruct Hg as (-> & _); simpl; lia.
  - destruct (construction s) eqn:Hc; destruct Hg as (Hfc & Hgo & Hga);
      (split; [done|]); intros Hreg;
      destruct (registered_surrogate _ _ _ HI' Hreg) as (Hr & _ & s' & Hs' & Hrev);
      assert (s' = s) as -> by congruence.
    1: { split.
      - simpl. unfold load, getServiceRegistration. rewrite Hr; simpl.
        rewrite Hs, Hgo; simpl.
        pose proof (startConstruction_events p s) as Hev.
        destruct (startConstruction p s) as [s1 evs]; simpl in *. subst evs.
        eauto.
      - intros Ht prop g Hsafe Hi. destruct (Hint prop Hi) as [Hn1 Hn2].
        simpl. unfold onProxy, get. rewrite Hs, Hrev, Hsafe, Hga, Ht.
        rewrite !decide_False by done. simpl.
        pose proof (startConstruction_events p s) as Hev.
        destruct (startConstruction p s) as [s1 evs]; simpl in *. subst evs.
        eauto. }
    all: split;
      [simpl; unfold load, getServiceRegistration; rewrite Hr; simpl;
       rewrite Hs, Hgo; simpl; by rewrite withSurrogate_id
      |intros prop g Hsafe Hi; destruct (Hint prop Hi) as [Hn1 Hn2];
       simpl; unfold onProxy, get; rewrite Hs, Hrev, Hsafe, Hga;
       rewrite !decide_False by done; simpl; by rewrite withSurrogate_id].
  - intros f safe inj. simpl. unfold create, startConstruction; simpl.
    by destruct (f inj).
  - intros v. by apply (load_twice _ _ _ HI').
Qed.

(** C3 on the demo service: created on access, then triggered three times. *)
Lemma construction_attempted_at_most_once_witness :
  let st := run [Create OnAccess demoFactory demoSafeProperties 0;
                 Get 0 "safePromise"; Load (Ref 0); Get 0 "safePromiseMethod"]
              (start true) in
  surrogates st.1 !! 0 = Some (awaitingSurrogate OnAccess) /\
  length (factoryCalls 0 st.2) <= 1.
Proof.
  assert (surrogates
            (run [Create OnAccess demoFactory demoSafeProperties 0;
                  Get 0 "safePromise"; Load (Ref 0);
                  Get 0 "safePromiseMethod"] (start true)).1 !! 0
          = Some (awaitingSurrogate OnAccess)) as Hs
    by (vm_compute; reflexivity).
  split; [exact Hs|].
  exact (proj1 (construction_attempted_at_most_once true
    [Create OnAccess demoFactory demoSafeProperties 0; Get 0 "safePromise";
     Load (Ref 0); Get 0 "safePromiseMethod"] 0 _ Hs)).
Defined.

(** C4.  A registered surrogate whose construction has not begun or is in
    flight is destroyed, and the run goes on in any way.  Then the
    registration is gone and stays gone; the Deferred is rejected with the
    destruction error and holds no value, so a [whenReady] promise obtained
    before the destroy is rejected with that error; [getValue] never returns
    a real instance, a pending [create()] that comes back with a creator
    finds the Deferred settled and returns it without calling the creator,
    and no creator call is made after the destroy; the teardown callback has
    not been called (so at most once); and a further call of [destroy] does
    nothing. *)
Theorem destroy_before_ready devMode ops1 ops2 p s :
  let st0 := run ops1 (start devMode) in
  surrogates st0.1 !! p = Some s -> is_Some (services st0.1 !! p) ->
  phase s = NotBegun \/ phase s = InFlight ->
  let st1 := exec st0 (Destroy p) in
  let st2 := run ops2 st1 in
  services st1.1 !! p = None /\ services st2.1 !! p = None /\
  (exists s2, surrogates st2.1 !! p = Some s2 /\
     state (moduleAndValuePromise s2) = Rejected destroyedBeforeReady /\
     value (moduleAndValuePromise s2) = None /\
     (forall r, getValue s2 <> ReturnService r) /\
     (forall creator,
        construction s2 = AtAwait (inr (LazilyCreated creator)) ->
        resumeCreate p st2.1 =
          (withSurrogate p (setConstruction Adopting s2) st2.1, []))) /\
  settledAs st2.1 (whenReady (Ref p) st0.1) = Rejected destroyedBeforeReady /\
  creatorCalls p st2.2 = creatorCalls p st0.2 /\
  teardownCalls p st2.2 = [] /\
  length (teardownCalls p st2.2) <= 1 /\
  step st2.1 (Destroy p) = (st2.1, [], Normal (Val Undefined)).
Proof.
  intros st0 Hs Hreg Hph st1 st2.
  pose proof (Inv_reachable devMode ops1) as HI. fold st0 in HI.
  assert (Inv (st0.1, st0.2)) as HI0 by (by destruct st0).
  destruct (registered_phase _ _ _ _ HI0 Hs Hreg) as [Hrev Hphase].
  assert (isResolved (moduleAndValuePromise s) = false) as Hres.
  { destruct Hph as [Hph|Hph]; rewrite Hph in Hphase;
      by destruct Hphase as (_ & _ & ?). }
  destruct (destroy_registered _ _ _ _ HI0 Hs Hreg)
    as (Hr1 & s1 & Hs1 & Hpending).
  destruct (Hpending Hres) as [Hevs1 Hst1].
  destruct (registered_surrogate _ _ _ HI0 Hreg) as (Hr0 & Hisreg & _).
  pose proof (si_teardown _ _ _ _ _ _ (inv_surrogate _ HI0 p s Hs)) as Htd0.
  simpl in Htd0. rewrite Hisreg in Htd0.
  destruct (unregistered_run p ops2 st1)
    as (HI2 & Hr2 & _ & Hcc2 & Htc2 & s1' & s2 & Hs1' & Hs2 & Hrev2 & Hst2).
  { by apply Inv_exec. }
  { unfold st1, exec; simpl. eauto. }
  { by unfold st1, exec; simpl. }
  fold st2 in HI2, Hr2, Hcc2, Htc2, Hs2.
  assert (s1' = s1) as -> by (unfold st1, exec in Hs1'; simpl in Hs1'; congruence).
  rewrite Hst1 in Hst2.
  assert (Inv (st2.1, st2.2)) as HI2' by (by destruct st2).
  pose proof (si_wf _ _ _ _ _ _ (inv_surrogate _ HI2' p s2 Hs2)) as Hwf2.
  destruct (wf_rejected _ _ Hwf2 Hst2) as [Hres2 Hval2].
  assert (teardownCalls p st2.2 = []) as Htd2.
  { rewrite Htc2. unfold st1, exec; simpl.
    by rewrite teardownCalls_app, Htd0, Hevs1. }
  split_and!; auto.
  - exists s2. split_and!; auto.
    + intros r Hg.
      pose proof (getValue_service _ _ _ _ _ HI2' Hs2 Hg). congruence.
    + intros creator Hc. unfold resumeCreate. by rewrite Hs2, Hc, Hres2.
  - unfold whenReady, getServiceRegistration. rewrite Hr0; simpl.
    by rewrite Hs2, Hst2.
  - rewrite Hcc2. unfold st1, exec; simpl.
    by rewrite creatorCalls_app, Hevs1, app_nil_r.
  - rewrite Htd2; simpl; lia.
  - simpl. unfold destroy. by rewrite Hs2, Hr2.
Qed.

(** C4 on the demo service, destroyed while its import is pending. *)
Lemma destroy_before_ready_witness :
  let st0 := run [Create OnAccess demoFactory demoSafeProperties 0;
                  Get 0 "safePromise"] (start true) in
  let st2 := run [ResumeCreate 0; React 0; Destroy 0] (exec st0 (Destroy 0)) in
  surrogates st0.1 !! 0 = Some (awaitingSurrogate OnAccess) /\
  is_Some (services st0.1 !! 0) /\
  (phase (awaitingSurrogate OnAccess) = NotBegun \/
   phase (awaitingSurrogate OnAccess) = InFlight) /\
  settledAs st2.1 (whenReady (Ref 0) st0.1) = Rejected destroyedBeforeReady /\
  creatorCalls 0 st2.2 = [] /\
  teardownCalls 0 st2.2 = [].
Proof.
  assert (surrogates
            (run [Create OnAccess demoFactory demoSafeProperties 0;
                  Get 0 "safePromise"] (start true)).1 !! 0
          = Some (awaitingSurrogate OnAccess)) as Hs
    by (vm_compute; reflexivity).
  assert (is_Some (services
            (run [Create OnAccess demoFactory demoSafeProperties 0;
                  Get 0 "safePromise"] (start true)).1 !! 0)) as Hreg
    by (vm_compute; eauto).
  assert (phase (awaitingSurrogate OnAccess) = NotBegun \/
          phase (awaitingSurrogate OnAccess) = InFlight) as Hph
    by (right; reflexivity).
  pose proof (destroy_before_ready true
    [Create OnAccess demoFactory demoSafeProperties 0; Get 0 "safePromise"]
    [ResumeCreate 0; React 0; Destroy 0] 0 _ Hs Hreg Hph)
    as (_ & _ & _ & Hready & Hcc & Htd & _).
  split; [exact Hs|]. split; [exact Hreg|]. split; [exact Hph|].
  split; [exact Hready|]. split; [exact Hcc|exact Htd].
Defined.

(** C5 does not hold as stated.  After the construction of the demo service
    has failed, construction has not completed successfully, yet [get], [set]
    and [has] of an unsafe member throw the construction failure, which is
    not a [ServiceNotReadyError]. *)
Lemma unsafe_access_after_failed_construction :
  let l := (run failedRun (start true)).1 in
  is_Some (services l !! 0) /\
  intercepted "unsafeProperty" = false /\
  (exists s, surrogates l !! 0 = Some s /\ phase s = Failed /\
             safeProperties s !! "unsafeProperty" = None) /\
  step l (Get 0 "unsafeProperty") = (l, [], Throw (Thrown 1)) /\
  step l (Set_ 0 "unsafeProperty" (Prim 1)) = (l, [], Throw (Thrown 1)) /\
  step l (Has 0 "unsafeProperty") = (l, [], Throw (Thrown 1)) /\
  (forall msg, Thrown 1 <> ServiceNotReadyError msg).
Proof.
  split; [vm_compute; eauto|]. split; [reflexivity|].
  split; [eexists; split; [vm_compute; reflexivity|by vm_compute]|].
  split; [by vm_compute|]. split; [by vm_compute|]. split; [by vm_compute|].
  done.
Qed.

(** C5, amended.  For a registered surrogate and a member name that is not
    declared safe and not intercepted: while construction has not begun or is
    in flight, [get], [set] and [has] throw [ServiceNotReadyError] and change
    nothing; once construction has failed they throw the failure that
    [valuePromise] and the Deferred were rejected with; once it has succeeded
    [get] returns the value the real instance holds under that name
    ([undefined] when it holds none), [set] stores the new value in the real
    instance and returns true, and [has] tells whether the real instance has
    the member. *)
Theorem unsafe_member_access devMode ops p s prop :
  let l := (run ops (start devMode)).1 in
  surrogates l !! p = Some s -> is_Some (services l !! p) ->
  safeProperties s !! prop = None -> intercepted prop = false ->
  match phase s with
  | NotBegun | InFlight =>
      step l (Get p prop) = (l, [], Throw (serviceNotReady devMode prop)) /\
      (forall newValue, step l (Set_ p prop newValue) =
                        (l, [], Throw (serviceNotReady devMode prop))) /\
      step l (Has p prop) = (l, [], Throw (serviceNotReady devMode prop))
  | Failed =>
      exists e, valuePromise s = Rejected e /\
        state (moduleAndValuePromise s) = Rejected e /\
        step l (Get p prop) = (l, [], Throw e) /\
        (forall newValue, step l (Set_ p prop newValue) = (l, [], Throw e)) /\
        step l (Has p prop) = (l, [], Throw e)
  | Succeeded =>
      exists r o, state (moduleAndValuePromise s) = Fulfilled r /\
        objects l !! service r = Some o /\
        step l (Get p prop) =
          (l, [], Normal (Val (default Undefined (o !! prop)))) /\
        (forall newValue,
           step l (Set_ p prop newValue) =
             (withObject (service r) (<[prop := newValue]> o) l, [],
              Normal (Bool true)) /\
           objects (withObject (service r) (<[prop := newValue]> o) l)
             !! service r = Some (<[prop := newValue]> o)) /\
        step l (Has p prop) =
          (l, [], Normal (Bool (bool_decide (is_Some (o !! prop)))))
  end.
Proof.
  intros l Hs Hreg Hsafe Hint.
  pose proof (Inv_reachable devMode ops) as HI.
  pose proof (isDevMode_run devMode ops) as Hdev.
  destruct (run ops (start devMode)) as [l0 tr]; simpl in *. subst l.
  rewrite <- Hdev.
  destruct (registered_phase _ _ _ _ HI Hs Hreg) as [Hrev Hph].
  unfold intercepted in Hint. apply orb_false_elim in Hint as [Hn1 Hn2].
  apply bool_decide_eq_false_1 in Hn1, Hn2.
  unfold onProxy, get, set, has. rewrite Hs, Hrev, Hsafe.
  rewrite !decide_False by done.
  unfold phase in *.
  destruct (construction s) as [| | | | |[|[]]] eqn:Hc; simpl.
  - destruct Hph as (Hg & _). rewrite Hg; simpl.
    split_and!; intros; by rewrite ?decide_False by done.
  - destruct Hph as (Hg & _). rewrite Hg; simpl.
    split_and!; intros; by rewrite ?decide_False by done.
  - destruct Hph as (r & -> & Hst & _ & _ & [o Ho]). exists r, o. simpl.
    unfold Reflect_get, Reflect_set, Reflect_has. rewrite Ho.
    split_and!; auto. intros newValue. rewrite decide_False by done.
    split; [done|]. simpl. apply lookup_insert_eq.
  - destruct Hph as (Hg & _). rewrite Hg; simpl.
    split_and!; intros; by rewrite ?decide_False by done.
  - destruct Hph as (Hg & _). rewrite Hg; simpl.
    split_and!; intros; by rewrite ?decide_False by done.
  - destruct Hph as (e & He & -> & Hst & _). exists e. simpl.
    unfold valuePromise. rewrite Hc. simplify_eq.
    split_and!; intros; by rewrite ?decide_False by done.
  - destruct Hph as (r & -> & Hst & _ & _ & [o Ho]). exists r, o. simpl.
    unfold Reflect_get, Reflect_set, Reflect_has. rewrite Ho.
    split_and!; auto. intros newValue. rewrite decide_False by done.
    split; [done|]. simpl. apply lookup_insert_eq.
  - destruct Hph as (r & -> & Hst & _ & _ & [o Ho]). exists r, o. simpl.
    unfold Reflect_get, Reflect_set, Reflect_has. rewrite Ho.
    split_and!; auto. intros newValue. rewrite decide_False by done.
    split; [done|]. simpl. apply lookup_insert_eq.
Qed.

(** C5 on the demo service before any trigger. *)
Lemma unsafe_member_access_witness :
  let l := (run [Create OnAccess demoFactory demoSafeProperties 0] (start true)).1 in
  surrogates l !! 0 = Some (idleSurrogate OnAccess) /\
  is_Some (services l !! 0) /\
  safeProperties (idleSurrogate OnAccess) !! "unsafeProperty" = None /\
  intercepted "unsafeProperty" = false /\
  step l (Get 0 "unsafeProperty")
  = (l, [], Throw (serviceNotReady true "unsafeProperty")).
Proof.
  assert (surrogates (run [Create OnAccess demoFactory demoSafeProperties 0]
                        (start true)).1 !! 0 = Some (idleSurrogate OnAccess))
    as Hs by (vm_compute; reflexivity).
  assert (is_Some (services (run [Create OnAccess demoFactory demoSafeProperties 0]
                        (start true)).1 !! 0)) as Hreg by (vm_compute; eauto).
  assert (safeProperties (idleSurrogate OnAccess) !! "unsafeProperty" = None)
    as Hsafe by (vm_compute; reflexivity).
  split_and!; [exact Hs|exact Hreg|exact Hsafe|reflexivity|].
  exact (proj1 (unsafe_member_access true
    [Create OnAccess demoFactory demoSafeProperties 0] 0 _ "unsafeProperty"
    Hs Hreg Hsafe eq_refl)).
Defined.

(** C6.  For a registered surrogate, in whatever state its construction is,
    each of the eight traps other than [get], [set] and [has] throws
    [OperationNotSupportedError] and changes nothing, and so does [set] on
    every member declared safe. *)
Theorem structural_operations_not_supported devMode ops p :
  let l := (run ops (start devMode)).1 in
  is_Some (services l !! p) ->
  (forall t, step l (Other p t) =
             (l, [], Throw (OperationNotSupportedError
                              ("Operation " +:+ trapName t
                                 +:+ " is not supported on lazy services")))) /\
  exists s, surrogates l !! p = Some s /\
    forall prop newValue, is_Some (safeProperties s !! prop) ->
      exists msg, step l (Set_ p prop newValue) =
                  (l, [], Throw (OperationNotSupportedError msg)).
Proof.
  intros l Hreg.
  pose proof (Inv_reachable devMode ops) as HI.
  destruct (run ops (start devMode)) as [l0 tr]; simpl in *. subst l.
  destruct (registered_surrogate _ _ _ HI Hreg) as (_ & _ & s & Hs & Hrev).
  split.
  - intros t. simpl. unfold onProxy. by rewrite Hs, Hrev.
  - exists s. split; [done|]. intros prop newValue [g Hg].
    simpl. unfold onProxy, set. rewrite Hs, Hrev, Hg.
    case_decide; eauto.
Qed.

(** C6 on the demo service: [Object.keys] of the surrogate. *)
Lemma structural_operations_not_supported_witness :
  let l := (run [Create Explicit demoFactory demoSafeProperties 0] (start true)).1 in
  is_Some (services l !! 0) /\
  step l (Other 0 ownKeys)
  = (l, [], Throw (OperationNotSupportedError
                     "Operation ownKeys is not supported on lazy services")).
Proof.
  assert (is_Some (services (run [Create Explicit demoFactory demoSafeProperties 0]
                               (start true)).1 !! 0)) as Hreg
    by (vm_compute; eauto).
  split; [exact Hreg|].
  exact (proj1 (structural_operations_not_supported true
    [Create Explicit demoFactory demoSafeProperties 0] 0 Hreg) ownKeys).
Defined.

(** C7.  A surrogate is created with the [Explicit] trigger and the run goes
    on in any way that does not call [load] on it.  Then its construction
    closure has not been called and construction has not started; and as long
    as it is registered, [isReady] is false, the Deferred is pending, and
    reading a member declared safe returns the forwarding wrapper on
    [moduleAndValuePromise.then(v => v.service)] without any call and without
    changing the loader. *)
Theorem explicit_trigger_waits_for_load
    devMode ops1 serviceFactory safe injector ops2 :
  let st0 := run ops1 (start devMode) in
  let p := nextRef st0.1 in
  let st1 := exec st0 (Create Explicit serviceFactory safe injector) in
  let st2 := run ops2 st1 in
  forallb (fun op => negb (loads p op)) ops2 = true ->
  (step st0.1 (Create Explicit serviceFactory safe injector)).2
    = Normal (Val (Ref p)) /\
  factoryCalls p st2.2 = [] /\
  exists s, surrogates st2.1 !! p = Some s /\ construction s = NotStarted /\
    (is_Some (services st2.1 !! p) ->
       isReady (Ref p) st2.1 = false /\
       state (moduleAndValuePromise s) = Pending /\
       forall prop safeGetter,
         safe !! prop = Some safeGetter -> intercepted prop = false ->
         step st2.1 (Get p prop) =
           (st2.1, [], Normal (SafeForward safeGetter (OfDeferredService p)))).
Proof.
  intros st0 p st1 st2 Hops.
  pose proof (Inv_reachable devMode ops1) as HI. fold st0 in HI.
  assert (idle p safe st1) as Hidle1.
  { split; [by apply Inv_exec|]. unfold st1, exec, p; simpl.
    unfold create; simpl. rewrite lookup_insert_eq. eauto. }
  assert (idle p safe st2) as (HI2 & s & Hs & Ht & Hc & Hsafe).
  { apply idle_run; [|done]. apply Forall_forall. intros op Hin.
    rewrite forallb_forall in Hops. apply negb_true_iff, Hops.
    by apply list_elem_of_In. }
  assert (Inv (st2.1, st2.2)) as HI2' by (by destruct st2).
  destruct (idle_getValueAsync _ _ _ _ HI2' Hs Ht Hc) as (Hga & _ & Hfc).
  split_and!; [done|done|].
  exists s. split_and!; auto. intros Hreg.
  destruct (registered_phase _ _ _ _ HI2' Hs Hreg) as [Hrev Hph].
  unfold phase in Hph. rewrite Hc in Hph. destruct Hph as (_ & Hst & Hres).
  split_and!; auto.
  - by rewrite (isReady_registered _ _ _ _ HI2' Hs Hreg).
  - intros prop g Hg Hint.
    unfold intercepted in Hint. apply orb_false_elim in Hint as [Hn1 Hn2].
    apply bool_decide_eq_false_1 in Hn1, Hn2.
    simpl. unfold onProxy, get. rewrite Hs, Hrev, Hsafe, Hg, Hga.
    rewrite !decide_False by done. simpl.
    by rewrite withSurrogate_id.
Qed.

(** C7 on the demo service: safe and unsafe reads, jobs, and a [load] of
    another value. *)
Lemma explicit_trigger_waits_for_load_witness :
  let ops2 := [Get 0 "safePromise"; Get 0 "unsafeProperty"; ResumeCreate 0;
               React 0; Load (Ref 1); IsReady (Ref 0)] in
  let st2 := run ops2 (exec (run [] (start true))
                         (Create Explicit demoFactory demoSafeProperties 0)) in
  forallb (fun op => negb (loads 0 op)) ops2 = true /\
  factoryCalls 0 st2.2 = [].
Proof.
  split; [reflexivity|].
  exact (proj1 (proj2 (explicit_trigger_waits_for_load true [] demoFactory
    demoSafeProperties 0
    [Get 0 "safePromise"; Get 0 "unsafeProperty"; ResumeCreate 0; React 0;
     Load (Ref 1); IsReady (Ref 0)] eq_refl))).
Defined.

(** C8.  A call of the closure of a differential factory evaluates the
    determinant function once; it then calls the closure registered for the
    determinant, or else the fallback closure, and has that closure's
    outcome; with neither it throws [UnexpectedDeterminantError] whose
    message quotes [String(determinant)].  In the loader, a surrogate built
    from the closure has had it called not at all, or once with that one
    evaluation; and when neither a registered closure nor a fallback exists,
    [load] followed by the reaction of [valuePromise] leaves [valuePromise]
    and the Deferred rejected with that error and [getValue] rethrowing it. *)
Theorem differential_selection `{Countable DeterminantT}
    (toString : DeterminantT -> string) (f : DifferentialLazyFactory)
    (inj : Injector) :
  let determinant := determine f inj in
  let call := differentialClosure toString f inj in
  let error :=
    UnexpectedDeterminantError
      ("Got determinant " +:+ quote +:+ toString determinant +:+ quote
         +:+ " which has not been registered") in
  determinantEvaluations call.1 = 1 /\
  (forall fn, serviceFactories f !! determinant = Some fn ->
     call = ([EvalDeterminant; CallImplementation (fn inj).1], (fn inj).2)) /\
  (forall fn, serviceFactories f !! determinant = None ->
     fallbackServiceFactory f = Some fn ->
     call = ([EvalDeterminant; CallImplementation (fn inj).1], (fn inj).2)) /\
  (serviceFactories f !! determinant = None ->
   fallbackServiceFactory f = None ->
   call = ([EvalDeterminant], FactoryThrows error)) /\
  forall devMode ops p s,
    let st := run ops (start devMode) in
    surrogates st.1 !! p = Some s ->
    serviceFactory s = differentialClosure toString f -> injector s = inj ->
    (factoryCalls p st.2 = [] \/ factoryCalls p st.2 = [call.1]) /\
    (serviceFactories f !! determinant = None ->
     fallbackServiceFactory f = None ->
     is_Some (services st.1 !! p) -> construction s = NotStarted ->
     let st' := exec (exec st (Load (Ref p))) (React p) in
     factoryCalls p st'.2 = [[EvalDeterminant]] /\
     exists s', surrogates st'.1 !! p = Some s' /\
       valuePromise s' = Rejected error /\
       state (moduleAndValuePromise s') = Rejected error /\
       getValue s' = Rethrow error).
Proof.
  intros determinant call error.
  assert (forall fn, selected f determinant = Some fn ->
            call = ([EvalDeterminant; CallImplementation (fn inj).1], (fn inj).2))
    as Hsel.
  { intros fn Hfn. unfold call, differentialClosure. fold determinant.
    rewrite Hfn. by destruct (fn inj). }
  assert (selected f determinant = None ->
            call = ([EvalDeterminant], FactoryThrows error)) as Hnone.
  { intros Hn. unfold call, differentialClosure. fold determinant.
    by rewrite Hn. }
  split_and!.
  - destruct (selected f determinant) as [fn|] eqn:Hfn.
    + by rewrite (Hsel fn).
    + by rewrite Hnone.
  - intros fn Hfn. apply Hsel. unfold selected. by rewrite Hfn.
  - intros fn Hn Hfn. apply Hsel. unfold selected. by rewrite Hn.
  - intros Hn Hfb. apply Hnone. unfold selected. by rewrite Hn.
  - intros devMode ops p s st Hs Hsf Hinj.
    pose proof (Inv_reachable devMode ops) as HI. fold st in HI.
    assert (Inv (st.1, st.2)) as HI' by (by destruct st).
    pose proof (construction_getters _ _ _ _ HI' Hs) as Hg.
    rewrite Hsf, Hinj in Hg. fold call in Hg.
    split.
    + destruct (construction s); destruct Hg as (-> & _); auto.
    + intros Hn Hfb Hreg Hc st'. rewrite Hc in Hg.
      destruct Hg as (Hfc & Hgo & _).
      destruct (registered_surrogate _ _ _ HI' Hreg) as (Hr & _).
      destruct (registered_phase _ _ _ _ HI' Hs Hreg) as [_ Hph].
      unfold phase in Hph. rewrite Hc in Hph. destruct Hph as (_ & Hst & _).
      assert (call = ([EvalDeterminant], FactoryThrows error)) as Hcall.
      { apply Hnone. unfold selected. by rewrite Hn. }
      unfold st', exec; simpl.
      unfold load, getServiceRegistration. rewrite Hr; simpl.
      rewrite Hs, Hgo; simpl. unfold startConstruction.
      rewrite Hsf, Hinj. fold call. rewrite Hcall; simpl.
      unfold react; simpl. rewrite lookup_insert_eq; simpl.
      rewrite lookup_insert_eq. split.
      * rewrite !factoryCalls_app, Hfc; simpl. by rewrite decide_True.
      * eexists. split; [done|]. simpl. by rewrite Hst.
Qed.

(** Closures for "A" and "B", no fallback, determinant "C". *)
Example differential_unexpected_determinant :
  let f := setImplementation "B" demoFactory
             (setImplementation "A" demoFactory
                (differentialLazyFactory (fun _ => "C") None)) in
  differentialClosure id f 0
  = ([EvalDeterminant],
     FactoryThrows
       (UnexpectedDeterminantError
          ("Got determinant " +:+ quote +:+ "C" +:+ quote
             +:+ " which has not been registered"))).
Proof. vm_compute. reflexivity. Qed.


(** C9.  Once a registered surrogate has been destroyed, in every later state
    its proxy is revoked and it is not registered: [get] of any member (a
    safe one, [ngOnDestroy], [constructor] or any other), [set], [has] and
    every other trap throw the [TypeError] of a revoked proxy and change
    nothing, while a further call of the destroy closure returns normally
    and changes nothing. *)
Theorem destroyed_surrogate_is_revoked devMode ops1 ops2 p :
  let st1 := run ops1 (start devMode) in
  is_Some (services st1.1 !! p) ->
  let st2 := run ops2 (exec st1 (Destroy p)) in
  (exists s, surrogates st2.1 !! p = Some s /\ revoked s = true) /\
  services st2.1 !! p = None /\
  (forall prop, step st2.1 (Get p prop) = (st2.1, [], Throw revokedProxy)) /\
  (forall prop newValue,
     step st2.1 (Set_ p prop newValue) = (st2.1, [], Throw revokedProxy)) /\
  (forall prop, step st2.1 (Has p prop) = (st2.1, [], Throw revokedProxy)) /\
  (forall t, step st2.1 (Other p t) = (st2.1, [], Throw revokedProxy)) /\
  step st2.1 (Destroy p) = (st2.1, [], Normal (Val Undefined)).
Proof.
  intros st1 Hreg st2.
  pose proof (Inv_reachable devMode ops1) as HI. fold st1 in HI.
  destruct (registered_surrogate st1.1 st1.2 p) as (_ & _ & s & Hs & _);
    [by destruct st1|done|].
  assert (Inv (st1.1, st1.2)) as HI' by (by destruct st1).
  destruct (destroy_registered _ _ _ _ HI' Hs Hreg) as (Hr1 & s1 & Hs1 & _).
  destruct (unregistered_run p ops2 (exec st1 (Destroy p)))
    as (_ & Hr2 & _ & _ & _ & _ & s2 & _ & Hs2 & Hrev2 & _).
  { by apply Inv_exec. }
  { unfold exec; simpl. eauto. }
  { by unfold exec; simpl. }
  fold st2 in Hr2, Hs2.
  split_and!; eauto; intros; simpl; unfold onProxy, destroy;
    by rewrite Hs2, ?Hrev2, ?Hr2.
Qed.

(** C9 on the demo service, destroyed while its import is pending. *)
Lemma destroyed_surrogate_is_revoked_witness :
  let st1 := run [Create OnAccess demoFactory demoSafeProperties 0;
                  Get 0 "safePromise"] (start true) in
  let st2 := run [ResumeCreate 0; React 0] (exec st1 (Destroy 0)) in
  is_Some (services st1.1 !! 0) /\
  step st2.1 (Get 0 "safePromise") = (st2.1, [], Throw revokedProxy) /\
  step st2.1 (Get 0 "ngOnDestroy") = (st2.1, [], Throw revokedProxy).
Proof.
  assert (is_Some (services
            (run [Create OnAccess demoFactory demoSafeProperties 0;
                  Get 0 "safePromise"] (start true)).1 !! 0)) as Hreg
    by (vm_compute; eauto).
  pose proof (destroyed_surrogate_is_revoked true
    [Create OnAccess demoFactory demoSafeProperties 0; Get 0 "safePromise"]
    [ResumeCreate 0; React 0] 0 Hreg) as (_ & _ & Hget & _).
  split; [exact Hreg|]. split; apply Hget.
Defined.

(** C10.  When the Deferred of a registered surrogate is rejected, it reports
    [isResolved] and holds no value; the destroy closure then calls no
    teardown callback, returns normally and removes the registration.  The
    Deferred holds a value only if the first call of its resolving functions
    was a [resolve]. *)
Theorem destroy_after_failed_construction devMode ops p e :
  let l := (run ops (start devMode)).1 in
  is_Some (services l !! p) ->
  settledAs l (OfDeferred p) = Rejected e ->
  (exists s, surrogates l !! p = Some s /\
     state (moduleAndValuePromise s) = Rejected e /\
     isResolved (moduleAndValuePromise s) = true /\
     value (moduleAndValuePromise s) = None) /\
  step l (Destroy p) = ((destroy p l).1, [], Normal (Val Undefined)) /\
  services (destroy p l).1 !! p = None /\
  (forall cs : list (Settlement Created),
     value (foldl applySettlement newDeferred cs) =
     match cs with
     | CallResolve v :: _ => Some v
     | _ => None
     end).
Proof.
  intros l Hreg Hrej.
  pose proof (Inv_reachable devMode ops) as HI.
  destruct (run ops (start devMode)) as [l0 tr]; simpl in *. subst l.
  destruct (registered_surrogate _ _ _ HI Hreg) as (Hr & _ & s & Hs & Hrev).
  rewrite Hs in Hrej.
  assert (state (moduleAndValuePromise s) = Rejected e) as Hst.
  { destruct (state (moduleAndValuePromise s)); simpl in Hrej; congruence. }
  pose proof (si_wf _ _ _ _ _ _ (inv_surrogate _ HI p s Hs)) as Hwf.
  destruct (wf_rejected _ _ Hwf Hst) as [Hres Hval].
  split_and!.
  - by exists s.
  - unfold destroy. rewrite Hs, Hr; simpl. by rewrite Hres, Hval.
  - unfold destroy. rewrite Hs, Hr; simpl. rewrite Hres, Hval; simpl.
    apply lookup_delete_eq.
  - apply value_first_settlement.
Qed.

(** C10 on the demo service after its import failed. *)
Lemma destroy_after_failed_construction_witness :
  let l := (run failedRun (start true)).1 in
  is_Some (services l !! 0) /\
  settledAs l (OfDeferred 0) = Rejected (Thrown 1) /\
  step l (Destroy 0) = ((destroy 0 l).1, [], Normal (Val Undefined)).
Proof.
  assert (is_Some (services (run failedRun (start true)).1 !! 0)) as Hreg
    by (vm_compute; eauto).
  assert (settledAs (run failedRun (start true)).1 (OfDeferred 0)
          = Rejected (Thrown 1)) as Hrej by (vm_compute; reflexivity).
  split; [exact Hreg|]. split; [exact Hrej|].
  exact (proj1 (proj2 (destroy_after_failed_construction true failedRun 0
                         (Thrown 1) Hreg Hrej))).
Defined.

(** The demo service through its whole life. *)
Example demo_round_trip :
  let st := run [Create OnInjection demoFactory demoSafeProperties 0;
                 ResumeCreate 0; React 0; Set_ 0 "counter" (Prim 3)]
              (start false) in
  isReady (Ref 0) st.1 = true /\
  (step st.1 (Get 0 "unsafeProperty")).2 = Normal (Val (Prim 42)) /\
  (step st.1 (Get 0 "counter")).2 = Normal (Val (Prim 3)) /\
  (step st.1 (Has 0 "missing")).2 = Normal (Bool false) /\
  (step st.1 (Get 0 "safePromise")).2
  = Normal (SafeForward (SafeProperty promise) (OfValuePromise 0)) /\
  (run [Destroy 0; Destroy 0; NgOnDestroy] st).2
  = [InvokeFactory 0 []; InvokeCreator 0; InvokeTeardown 0 7].
Proof. vm_compute. by split_and!. Qed.

(** * Further properties

    What else the embedded code guarantees, in the order of the life of a
    surrogate. *)

(** ** utils.ts: [Deferred] *)

(** X1.  A Deferred on which [resolve] and [reject] are called any number of
    times, in any order, is settled by the first of the calls: its promise
    is fulfilled or rejected with what that call passed, whatever follows;
    [isResolved] is true as soon as one call was made; and a value is stored
    exactly when the first call was a [resolve]. *)
Theorem deferred_first_settlement_wins {T} (cs : list (Settlement T)) :
  let d := foldl applySettlement newDeferred cs in
  state d = match cs with
            | [] => Pending
            | CallResolve v :: _ => Fulfilled v
            | CallReject e :: _ => Rejected e
            end /\
  isResolved d = match cs with [] => false | _ => true end /\
  value d = match cs with CallResolve v :: _ => Some v | _ => None end.
Proof.
  assert (forall (cs : list (Settlement T)) d, state d <> Pending ->
            isResolved d = true ->
            state (foldl applySettlement d cs) = state d /\
            isResolved (foldl applySettlement d cs) = true) as Hkeep.
  { clear cs. induction cs as [|c cs IH]; intros d Hst Hres; simpl; [done|].
    destruct (IH (applySettlement d c)) as [-> ->].
    - destruct c; simpl; by destruct (state d).
    - by destruct c.
    - split; [|done]. destruct c; simpl; by destruct (state d). }
  intros d. split_and!.
  - destruct cs as [|c cs]; [done|]. unfold d; simpl.
    destruct (Hkeep cs (applySettlement newDeferred c)) as [-> _];
      by destruct c.
  - destruct cs as [|c cs]; [done|]. unfold d; simpl.
    destruct (Hkeep cs (applySettlement newDeferred c)) as [_ ->];
      by destruct c.
  - apply value_first_settlement.
Qed.

(** ** [LazyServiceLoader.ngOnDestroy] *)

(** The loop of [ngOnDestroy] over registrations that belong to their keys is
    a run of destroy calls. *)
Lemma destroyAll_run kvs :
  Forall (fun kv : nat * Registration => kv.2 = registrationOf kv.1) kvs ->
  forall l evs tr,
    ((foldl destroyNext (l, evs) kvs.*2).1,
     tr ++ (foldl destroyNext (l, evs) kvs.*2).2)
    = run (Destroy <$> kvs.*1) (l, tr ++ evs).
Proof.
  induction 1 as [|[p r] kvs Hr _ IH]; intros l evs tr; [done|].
  simpl in Hr. subst r. simpl.
  unfold destroyNext at 2 4. simpl.
  rewrite IH. unfold exec. simpl. by rewrite app_assoc.
Qed.

Lemma ngOnDestroy_run st :
  Inv st ->
  exec st NgOnDestroy = run (Destroy <$> (map_to_list (services st.1)).*1) st.
Proof.
  intros HI. destruct st as [l tr]. unfold exec. simpl. unfold ngOnDestroy.
  rewrite (destroyAll_run (map_to_list (services l))).
  - by rewrite app_nil_r.
  - apply Forall_forall. intros [p r] Hin%elem_of_map_to_list.
    by destruct (inv_services _ HI p r Hin).
Qed.

Lemma destroy_unregisters l tr p :
  Inv (l, tr) -> services (destroy p l).1 !! p = None.
Proof.
  intros HI. destruct (services l !! p) as [r|] eqn:Hreg.
  - destruct (inv_services _ HI p r Hreg) as [_ [s Hs]].
    by destruct (destroy_registered l tr p s HI Hs) as [? _]; [by eexists|].
  - unfold destroy. destruct (surrogates l !! p); by rewrite ?Hreg.
Qed.

Lemma destroys_services ps :
  forall st q r, Inv st ->
    services (run (Destroy <$> ps) st).1 !! q = Some r ->
    services st.1 !! q = Some r /\ q ∉ ps.
Proof.
  induction ps as [|p ps IH]; intros st q r HI Hq; simpl in *.
  - split; [done|]. apply not_elem_of_nil.
  - destruct (IH _ q r (Inv_exec st (Destroy p) HI) Hq) as [Hq' Hnin].
    destruct (decide (q = p)) as [->|Hne].
    + destruct st as [l tr]. unfold exec in Hq'. simpl in Hq'.
      by rewrite (destroy_unregisters l tr p HI) in Hq'.
    + destruct (exec_elsewhere st (Destroy p) q HI) as (_ & Hsv & _);
        [done|simpl; congruence|].
      rewrite Hsv in Hq'. split; [done|]. by apply not_elem_of_cons.
Qed.

Lemma destroy_keeps_construction l tr p q s :
  Inv (l, tr) -> surrogates l !! q = Some s ->
  exists s', surrogates (destroy p l).1 !! q = Some s' /\
    construction s' = construction s /\ getValue s' = getValue s.
Proof.
  intros HI Hs. destruct (decide (q = p)) as [->|Hne].
  - unfold destroy. rewrite Hs.
    destruct (services l !! p); [|by eauto].
    simpl. destruct (isResolved (moduleAndValuePromise s)).
    + destruct (value (moduleAndValuePromise s)); simpl;
        rewrite lookup_insert_eq; by eexists.
    + simpl. rewrite lookup_insert_eq. by eexists.
  - destruct (exec_elsewhere (l, tr) (Destroy p) q HI) as (Hsu & _);
      [done|simpl; congruence|].
    simpl in Hsu. rewrite Hsu. by eauto.
Qed.

Lemma destroys_keep_construction ps :
  forall st q s, Inv st -> surrogates st.1 !! q = Some s ->
    exists s', surrogates (run (Destroy <$> ps) st).1 !! q = Some s' /\
      construction s' = construction s /\ getValue s' = getValue s.
Proof.
  induction ps as [|p ps IH]; intros st q s HI Hs; simpl.
  - by eauto.
  - destruct st as [l tr].
    destruct (destroy_keeps_construction l tr p q s HI Hs) as (s1 & Hs1 & Hc1 & Hg1).
    destruct (IH (exec (l, tr) (Destroy p)) q s1) as (s2 & Hs2 & Hc2 & Hg2).
    + by apply Inv_exec.
    + done.
    + exists s2. split_and!; [done|congruence|congruence].
Qed.

(** X2.  [LazyServiceLoader.ngOnDestroy] in any state of any run: afterwards
    nothing is registered and [isReady] is true of every value.  Every
    surrogate there has ever been has a revoked proxy and an unchanged
    construction state; if its construction had not begun or was in flight
    its Deferred is rejected with the destruction error and its teardown
    callback was never called; if it had succeeded the teardown callback of
    its result has been called exactly once in the whole run (by an earlier
    destroy or by this call); if it had failed no teardown was called.  A
    second [ngOnDestroy] changes nothing and calls nothing. *)
Theorem ngOnDestroy_destroys_every_surrogate devMode ops :
  let st := run ops (start devMode) in
  let st' := exec st NgOnDestroy in
  services st'.1 = ∅ /\
  (forall v, isReady v st'.1 = true) /\
  (forall p s, surrogates st.1 !! p = Some s ->
     exists s', surrogates st'.1 !! p = Some s' /\
       revoked s' = true /\
       construction s' = construction s /\
       match phase s with
       | NotBegun | InFlight =>
           state (moduleAndValuePromise s') = Rejected destroyedBeforeReady /\
           teardownCalls p st'.2 = []
       | Succeeded =>
           exists r, getValue s = ReturnService r /\
             state (moduleAndValuePromise s') = Fulfilled r /\
             teardownCalls p st'.2 = [teardown r]
       | Failed => teardownCalls p st'.2 = []
       end) /\
  exec st' NgOnDestroy = st'.
Proof.
  intros st st'.
  assert (Inv st) as HI by apply Inv_reachable.
  assert (Inv st') as HI' by by apply Inv_exec.
  assert (services st'.1 = ∅) as Hempty.
  { apply map_empty. intros q. apply eq_None_not_Some. intros [r Hq].
    unfold st' in Hq. rewrite ngOnDestroy_run in Hq by done.
    apply destroys_services in Hq as [Hq Hnin]; [|done].
    apply Hnin. apply list_elem_of_fmap. exists (q, r). split; [done|].
    by apply elem_of_map_to_list. }
  split_and!.
  - done.
  - intros [| |q]; try done. unfold isReady, getServiceRegistration.
    by rewrite Hempty.
  - intros p s Hs.
    destruct (destroys_keep_construction (map_to_list (services st.1)).*1 st p s)
      as (s' & Hs' & Hc & Hg); [done..|].
    rewrite <- ngOnDestroy_run in Hs' by done. fold st' in Hs'.
    exists s'. split; [done|].
    destruct st' as [l' tr'] eqn:Hst'. simpl in *.
    pose proof (inv_surrogate _ HI' p s' Hs') as [Hwf Hrev Htd Hph].
    simpl in *.
    assert (isRegistered l' p = false) as Hreg.
    { unfold isRegistered. rewrite Hempty. apply bool_decide_eq_false.
      rewrite lookup_empty. by intros [? ?]. }
    rewrite Hreg in *. split; [done|]. split; [done|].
    unfold phase. rewrite <- Hc. unfold phaseInv in Hph.
    destruct (construction s') as [|a|a|e| |[e|[a|r]]] eqn:Hcs; simpl in *.
    + destruct Hph as (_ & _ & _ & Hu & _). unfold unsettled in Hu.
      rewrite Hu in Htd. done.
    + destruct Hph as (_ & _ & Hu & _). unfold unsettled in Hu.
      rewrite Hu in Htd. done.
    + destruct Hph as (_ & (r & _ & Hgv & Hst) & _).
      exists r. rewrite <- Hg. rewrite Hst in Htd. done.
    + destruct Hph as (_ & _ & Hu & _). unfold unsettled in Hu.
      rewrite Hu in Htd. done.
    + destruct Hph as (_ & _ & _ & Hu & _). rewrite Hu in Htd. done.
    + destruct Hph as (_ & _ & [Hu|[_ Hu]] & _); by rewrite Hu in Htd.
    + destruct Hph as (_ & (r & _ & Hgv & Hst) & _).
      exists r. rewrite <- Hg. rewrite Hst in Htd. done.
    + done.
  - destruct st' as [l' tr']. unfold exec. simpl in *. unfold ngOnDestroy.
    rewrite Hempty, map_to_list_empty. simpl. by rewrite app_nil_r.
Qed.

(** ** The course of a construction *)

(** X3.  [#create], whatever the trigger and whatever the construction closure
    does (also when it throws at once): it returns a proxy with an identity
    that was neither registered nor in use, registers it, and leaves every
    other surrogate and registration as they were.  Right after the call the
    surrogate is not ready and its Deferred is pending, the construction
    closure has been called once under [OnInjection] and not at all
    otherwise, no creator has been called, and reading a member that is not
    safe throws [ServiceNotReadyError]. *)
Theorem new_surrogate_is_not_ready devMode ops t serviceFactory safe inj :
  let st0 := run ops (start devMode) in
  let p := nextRef st0.1 in
  let st := exec st0 (Create t serviceFactory safe inj) in
  (step st0.1 (Create t serviceFactory safe inj)).2 = Normal (Val (Ref p)) /\
  surrogates st0.1 !! p = None /\ services st0.1 !! p = None /\
  is_Some (services st.1 !! p) /\
  isReady (Ref p) st.1 = false /\
  settledAs st.1 (whenReady (Ref p) st.1) = Pending /\
  factoryCalls p st.2 = (if decide (t = OnInjection)
                         then [(serviceFactory inj).1] else []) /\
  creatorCalls p st.2 = [] /\
  (forall prop, safe !! prop = None -> intercepted prop = false ->
     step st.1 (Get p prop) = (st.1, [], Throw (serviceNotReady devMode prop))) /\
  (forall q, q <> p ->
     surrogates st.1 !! q = surrogates st0.1 !! q /\
     services st.1 !! q = services st0.1 !! q).
Proof.
  intros st0 p st.
  assert (Inv st0) as HI0 by apply Inv_reachable.
  assert (isDevMode st0.1 = devMode) as Hdev by apply isDevMode_run.
  destruct st0 as [l0 tr0] eqn:Hst0. simpl in *.
  destruct (calls_of_fresh (nextRef l0) p tr0) as (Hf & Hc & _);
    [apply (inv_events_fresh _ HI0)|done|].
  assert (surrogates l0 !! p = None) as Hfresh.
  { apply eq_None_not_Some. intros Hsome.
    pose proof (inv_surrogates_fresh _ HI0 p Hsome) as Hlt. simpl in Hlt.
    unfold p in Hlt. lia. }
  assert (services l0 !! p = None) as Hfresh'.
  { apply eq_None_not_Some. intros [r Hr].
    destruct (inv_services _ HI0 p r Hr) as [_ Hsome].
    simpl in Hsome. rewrite Hfresh in Hsome. by destruct Hsome. }
  unfold st, exec, step, create. simpl.
  destruct (serviceFactory inj) as [inner out] eqn:Hfac.
  destruct t; simpl; unfold startConstruction; simpl; rewrite ?Hfac; simpl;
    unfold isReady, settledAs, whenReady, getServiceRegistration; simpl;
    rewrite !lookup_insert_eq; simpl; rewrite ?lookup_insert_eq; simpl;
    calls_simpl; rewrite ?Hf, ?Hc; simpl; rewrite ?decide_True by done.
  all: split_and!; try done.
  all: try (intros prop Hnone Hni; unfold intercepted in Hni;
    apply orb_false_elim in Hni as [Hn1 Hn2];
    apply bool_decide_eq_false in Hn1, Hn2;
    unfold onProxy, get; simpl; rewrite lookup_insert_eq; simpl;
    rewrite !decide_False by done; rewrite Hnone; simpl; by rewrite Hdev).
  all: intros q Hq; fold p; by rewrite !lookup_insert_ne.
Qed.

(** The closure of a new surrogate once its construction closure has been
    called: [load] right after [#create] gets there under every trigger. *)
Lemma create_then_load l tr t serviceFactory safe inj :
  Inv (l, tr) ->
  let p := nextRef l in
  let st := run [Create t serviceFactory safe inj; Load (Ref p)] (l, tr) in
  Inv st /\
  services st.1 !! p = Some (registrationOf p) /\
  isDevMode st.1 = isDevMode l /\
  factoryCalls p st.2 = [(serviceFactory inj).1] /\
  creatorCalls p st.2 = [] /\ teardownCalls p st.2 = [] /\
  exists s, surrogates st.1 !! p = Some s /\
    safeProperties s = safe /\ injector s = inj /\ revoked s = false /\
    moduleAndValuePromise s = newDeferred /\
    getValue s = NotReady /\
    construction s = match (serviceFactory inj).2 with
                     | FactoryThrows e => Raised e
                     | FactoryRejects e => AtAwait (inl e)
                     | FactoryYields y => AtAwait (inr y)
                     end.
Proof.
  intros HI p st.
  assert (Inv st) as HI' by by apply Inv_run.
  split; [done|].
  destruct (calls_of_fresh (nextRef l) p tr) as (Hf & Hc & Ht);
    [apply (inv_events_fresh _ HI)|done|].
  unfold st, run, exec, step, load, create. subst p. simpl.
  destruct (serviceFactory inj) as [inner out] eqn:Hfac.
  destruct t;
    repeat (simpl; unfold registrationLoad, callAsyncGetter, startConstruction;
            simpl; rewrite ?lookup_insert_eq, ?Hfac).
  all: split; [reflexivity|]; split; [reflexivity|].
  all: calls_simpl; rewrite ?Hf, ?Hc, ?Ht; simpl.
  all: split_and!; [reflexivity..|].
  all: eexists; split; [reflexivity|]; done.
Qed.

Lemma not_intercepted prop :
  intercepted prop = false -> prop <> "ngOnDestroy" /\ prop <> "constructor".
Proof.
  unfold intercepted. intros [H1 H2]%orb_false_elim.
  by apply bool_decide_eq_false in H1, H2.
Qed.

(** X4.  A surrogate is created with any trigger; its construction closure
    yields a lazily created value whose creator returns an instance and a
    destroy callback.  After [load] and the two jobs of the construction
    (the continuation of [create()] and the reaction of [valuePromise]) the
    surrogate is ready, the promises of [load] and of [whenReady] are
    fulfilled, the closure and the creator were each called exactly once and
    the teardown not at all; [get] and [has] of a member that is not safe
    answer from the created instance; and destroying the surrogate calls
    the destroy callback. *)
Theorem construction_succeeds
    devMode ops t serviceFactory safe inj creator instance callback :
  let st0 := run ops (start devMode) in
  let p := nextRef st0.1 in
  let st := run [Create t serviceFactory safe inj; Load (Ref p);
                 ResumeCreate p; React p] st0 in
  (serviceFactory inj).2 = FactoryYields (LazilyCreated creator) ->
  creator inj = CreatorReturns instance callback ->
  isReady (Ref p) st.1 = true /\
  settledAs st.1 (OfValuePromise p) = Fulfilled tt /\
  settledAs st.1 (whenReady (Ref p) st.1) = Fulfilled tt /\
  factoryCalls p st.2 = [(serviceFactory inj).1] /\
  creatorCalls p st.2 = [tt] /\
  teardownCalls p st.2 = [] /\
  (forall prop, safe !! prop = None -> intercepted prop = false ->
     step st.1 (Get p prop) =
       (st.1, [], Normal (Val (default Undefined (instance !! prop)))) /\
     step st.1 (Has p prop) =
       (st.1, [], Normal (Bool (bool_decide (is_Some (instance !! prop)))))) /\
  (step st.1 (Destroy p)).1.2 = [InvokeTeardown p callback].
Proof.
  intros st0 p st Hfac Hcr.
  assert (Inv st0) as HI0 by apply Inv_reachable.
  destruct st0 as [l0 tr0] eqn:Hst0.
  destruct (create_then_load l0 tr0 t serviceFactory safe inj HI0)
    as (HI1 & Hreg & _ & Hf & Hc & Ht & s1 & Hs1 & Hsafe & Hinj & Hrev & Hd & Hg & Hcs).
  rewrite Hfac in Hcs.
  change st with
    (exec (exec (run [Create t serviceFactory safe inj; Load (Ref p)] (l0, tr0))
             (ResumeCreate p)) (React p)).
  simpl in p. fold p in HI1, Hreg, Hf, Hc, Ht, Hs1.
  destruct (run [Create t serviceFactory safe inj; Load (Ref p)] (l0, tr0))
    as [l1 tr1]. simpl in *. clear st.
  unfold exec, step. simpl. unfold resumeCreate.
  rewrite Hs1, Hcs, Hd, Hinj, Hcr. simpl.
  unfold react. simpl. rewrite lookup_insert_eq. simpl.
  unfold isReady, settledAs, whenReady, getServiceRegistration. simpl.
  rewrite Hreg. simpl. rewrite !lookup_insert_eq. simpl.
  calls_simpl. rewrite Hf, Hc, Ht. simpl.
  split_and!; try reflexivity.
  - intros prop Hnone [Hn1 Hn2]%not_intercepted.
    unfold onProxy, get, has. simpl. rewrite !lookup_insert_eq. simpl.
    rewrite Hrev, Hsafe, Hnone. rewrite !decide_False by done.
    simpl. unfold Reflect_get, Reflect_has. simpl.
    by rewrite !lookup_insert_eq.
  - unfold destroy. simpl. by rewrite !lookup_insert_eq, Hreg.
Qed.

(** X4 on the demo service, created on access. *)
Lemma construction_succeeds_witness :
  let st := run readyRun (start true) in
  (demoFactory 0).2
  = FactoryYields (LazilyCreated (fun _ => CreatorReturns LazyServiceImpl 7)) /\
  isReady (Ref 0) st.1 = true /\
  creatorCalls 0 st.2 = [tt].
Proof.
  pose proof (construction_succeeds true [] OnAccess demoFactory
                demoSafeProperties 0
                (fun _ => CreatorReturns LazyServiceImpl 7) LazyServiceImpl 7
                eq_refl eq_refl) as H.
  split; [reflexivity|].
  split; [exact (proj1 H)|exact (proj1 (proj2 (proj2 (proj2 (proj2 H)))))].
Defined.

(** X5.  A surrogate is created with any trigger and its construction fails
    with [e]: the closure throws or rejects with [e], or it yields something
    that was not made by one of the [createFrom...] functions ([e] is then
    the configuration error, worded by [isDevMode]), or the creator throws
    [e].  [#create] still returns the proxy normally.  After [load] and the
    two jobs the surrogate reports ready, the promises of [load] and of
    [whenReady] are rejected with [e], the closure was called once and the
    creator only if it was reached; [get], [has] and [set] of a member that
    is not safe throw [e]; and destroying the surrogate calls no
    teardown. *)
Theorem construction_failure_is_captured
    devMode ops t serviceFactory safe inj e :
  let st0 := run ops (start devMode) in
  let p := nextRef st0.1 in
  let st := run [Create t serviceFactory safe inj; Load (Ref p);
                 ResumeCreate p; React p] st0 in
  match (serviceFactory inj).2 with
  | FactoryThrows e' | FactoryRejects e' => e' = e
  | FactoryYields NotLazilyCreated => factoryDidNotCreate devMode = e
  | FactoryYields (LazilyCreated creator) => creator inj = CreatorThrows e
  end ->
  (step st0.1 (Create t serviceFactory safe inj)).2 = Normal (Val (Ref p)) /\
  isReady (Ref p) st.1 = true /\
  settledAs st.1 (OfValuePromise p) = Rejected e /\
  settledAs st.1 (whenReady (Ref p) st.1) = Rejected e /\
  factoryCalls p st.2 = [(serviceFactory inj).1] /\
  creatorCalls p st.2 = match (serviceFactory inj).2 with
                        | FactoryYields (LazilyCreated _) => [tt]
                        | _ => []
                        end /\
  (forall prop, safe !! prop = None -> intercepted prop = false ->
     step st.1 (Get p prop) = (st.1, [], Throw e) /\
     step st.1 (Has p prop) = (st.1, [], Throw e) /\
     forall newValue, step st.1 (Set_ p prop newValue) = (st.1, [], Throw e)) /\
  step st.1 (Destroy p)
  = ((step st.1 (Destroy p)).1.1, [], Normal (Val Undefined)).
Proof.
  intros st0 p st Hfail.
  assert (Inv st0) as HI0 by apply Inv_reachable.
  assert (isDevMode st0.1 = devMode) as Hdev by apply isDevMode_run.
  destruct st0 as [l0 tr0] eqn:Hst0.
  destruct (create_then_load l0 tr0 t serviceFactory safe inj HI0)
    as (HI1 & Hreg & Hdev1 & Hf & Hc & Ht & s1 & Hs1 & Hsafe & Hinj & Hrev & Hd & Hg & Hcs).
  split.
  { simpl. unfold create, startConstruction. simpl.
    destruct t; simpl; [by destruct (serviceFactory inj)|done..]. }
  change st with
    (exec (exec (run [Create t serviceFactory safe inj; Load (Ref p)] (l0, tr0))
             (ResumeCreate p)) (React p)).
  simpl in p. fold p in HI1, Hreg, Hdev1, Hf, Hc, Ht, Hs1.
  destruct (run [Create t serviceFactory safe inj; Load (Ref p)] (l0, tr0))
    as [l1 tr1]. simpl in *. clear st. rewrite Hdev in Hdev1.
  unfold exec, step. simpl. unfold resumeCreate. rewrite Hs1, Hcs.
  destruct (serviceFactory inj).2 as [e'|e'|[|creator]]; simpl;
    rewrite ?Hd, ?Hinj, ?Hdev1, ?Hfail; try subst e'; simpl;
    unfold react; simpl; rewrite ?lookup_insert_eq, ?Hs1, ?Hcs; simpl;
    unfold isReady, settledAs, whenReady, getServiceRegistration; simpl;
    rewrite Hreg; simpl; rewrite !lookup_insert_eq; simpl;
    rewrite ?Hd; simpl;
    calls_simpl; rewrite Hf, Hc; simpl.
  all: split_and!; try reflexivity.
  all: try (intros prop Hnone [Hn1 Hn2]%not_intercepted;
    unfold onProxy, get, has, set; simpl; rewrite ?lookup_insert_eq; simpl;
    rewrite ?Hrev, ?Hsafe, ?Hnone; rewrite !decide_False by done; done).
  all: unfold destroy; simpl; rewrite ?lookup_insert_eq, ?Hreg; simpl;
    by rewrite ?Hd.
Qed.

(** X5 on the demo service when its import fails. *)
Lemma construction_failure_is_captured_witness :
  let st := run [Create OnInjection brokenFactory demoSafeProperties 0;
                 Load (Ref 0); ResumeCreate 0; React 0] (start true) in
  (brokenFactory 0).2 = FactoryRejects (Thrown 1) /\
  isReady (Ref 0) st.1 = true /\
  settledAs st.1 (OfValuePromise 0) = Rejected (Thrown 1).
Proof.
  pose proof (construction_failure_is_captured true [] OnInjection
                brokenFactory demoSafeProperties 0 (Thrown 1) eq_refl) as H.
  split; [reflexivity|].
  split; [exact (proj1 (proj2 H))|exact (proj1 (proj2 (proj2 H)))].
Defined.

(** X6.  Reading a safe member of a registered surrogate whose trigger is not
    [Explicit] does to the loader exactly what [load] does, with the same
    calls of the construction closure, and the wrapper it returns waits for
    the promise that [load] waits for.  Under [Explicit], before
    construction has started, the read changes nothing and the wrapper
    waits for the Deferred. *)
Theorem safe_access_is_an_implicit_load devMode ops p s prop safeGetter :
  let l := (run ops (start devMode)).1 in
  surrogates l !! p = Some s -> is_Some (services l !! p) ->
  safeProperties s !! prop = Some safeGetter -> intercepted prop = false ->
  if decide (trigger s = Explicit)
  then
    construction s = NotStarted ->
    step l (Get p prop)
    = (l, [], Normal (SafeForward safeGetter (OfDeferredService p)))
  else
    (step l (Get p prop)).1 = (step l (Load (Ref p))).1 /\
    (step l (Get p prop)).2 = Normal (SafeForward safeGetter (OfValuePromise p)) /\
    (step l (Load (Ref p))).2 = Normal (PromiseOf (OfValuePromise p)).
Proof.
  intros l Hs Hreg Hsafe Hni.
  pose proof (Inv_reachable devMode ops) as HI.
  destruct (run ops (start devMode)) as [l0 tr]; simpl in *. subst l.
  destruct (registered_surrogate _ _ _ HI Hreg) as (Hr & _ & s' & Hs' & Hrev).
  rewrite Hs in Hs'. injection Hs' as <-.
  unfold intercepted in Hni. apply orb_false_elim in Hni as [Hn1 Hn2].
  apply bool_decide_eq_false in Hn1, Hn2.
  pose proof (construction_getters l0 tr p s HI Hs) as Hcg.
  unfold onProxy, load, getServiceRegistration, get. rewrite Hs, Hrev, Hr. simpl.
  rewrite Hs.
  rewrite (decide_False (P := prop = "ngOnDestroy")) by done.
  rewrite (decide_False (P := prop = "constructor")) by done.
  rewrite Hsafe.
  case_decide as Htr.
  - intros Hc. rewrite Hc in Hcg. destruct Hcg as (_ & _ & ->).
    simpl. by rewrite withSurrogate_id.
  - destruct (construction s); destruct Hcg as (_ & -> & ->);
      rewrite ?decide_False by done; simpl;
      by destruct (startConstruction p s).
Qed.

(** X6 on the demo service: the first read of [safePromise]. *)
Lemma safe_access_is_an_implicit_load_witness :
  let l := (run [Create OnAccess demoFactory demoSafeProperties 0]
              (start true)).1 in
  surrogates l !! 0 = Some (idleSurrogate OnAccess) /\
  is_Some (services l !! 0) /\
  safeProperties (idleSurrogate OnAccess) !! "safePromise"
  = Some (SafeProperty promise) /\
  intercepted "safePromise" = false /\
  (step l (Get 0 "safePromise")).1 = (step l (Load (Ref 0))).1.
Proof.
  assert (surrogates (run [Create OnAccess demoFactory demoSafeProperties 0]
                        (start true)).1 !! 0
          = Some (idleSurrogate OnAccess)) as Hs by (vm_compute; reflexivity).
  assert (is_Some (services
            (run [Create OnAccess demoFactory demoSafeProperties 0]
               (start true)).1 !! 0)) as Hreg by (vm_compute; eauto).
  assert (safeProperties (idleSurrogate OnAccess) !! "safePromise"
          = Some (SafeProperty promise)) as Hsafe by (vm_compute; reflexivity).
  split_and!; [exact Hs|exact Hreg|exact Hsafe|reflexivity|].
  exact (proj1 (safe_access_is_an_implicit_load true
                  [Create OnAccess demoFactory demoSafeProperties 0] 0
                  (idleSurrogate OnAccess) "safePromise" (SafeProperty promise)
                  Hs Hreg Hsafe eq_refl)).
Defined.

(** ** After the construction *)

(** Once [getValue] has been rebound, the construction is over. *)
Lemma settled_surrogate l tr p s :
  Inv (l, tr) -> surrogates l !! p = Some s -> getValue s <> NotReady ->
  memoized s /\ isResolved (moduleAndValuePromise s) = true /\
  ((exists a, construction s = Returned a) \/
   (exists v, construction s = Settled v)).
Proof.
  intros HI Hs Hg.
  pose proof (inv_surrogate _ HI p s Hs) as [Hwf _ _ Hph]. simpl in *.
  unfold phaseInv in Hph.
  destruct (construction s) as [|a|a|e| |[e|[a|r]]] eqn:Hc.
  - by destruct Hph as (_ & _ & ? & _).
  - by destruct Hph as (_ & ? & _).
  - destruct Hph as (Hm & (r & _ & _ & Hst) & _).
    split_and!; [done| |by eauto]. by destruct (wf_fulfilled _ _ Hwf Hst).
  - by destruct Hph as (_ & ? & _).
  - by destruct Hph as (_ & ? & _).
  - destruct Hph as (Hm & _ & Hst & _).
    split_and!; [done| |by eauto].
    destruct Hst as [Hst|[_ Hst]]; by destruct (wf_rejected _ _ Hwf Hst).
  - destruct Hph as (Hm & (r & _ & _ & Hst) & _).
    split_and!; [done| |by eauto]. by destruct (wf_fulfilled _ _ Hwf Hst).
  - done.
Qed.

Lemma step_settled l tr op p s :
  Inv (l, tr) -> op <> NgOnDestroy -> surrogates l !! p = Some s ->
  getValue s <> NotReady ->
  factoryCalls p (step l op).1.2 = [] /\
  creatorCalls p (step l op).1.2 = [] /\
  exists s', surrogates (step l op).1.1 !! p = Some s' /\
    getValue s' = getValue s /\
    moduleAndValuePromise s' = moduleAndValuePromise s.
Proof.
  intros HI Hop Hs Hg.
  destruct (target l op) as [q|] eqn:Ht.
  2:{ destruct (step_untargeted l op Ht Hop) as [-> ->]. same_surrogate. }
  destruct (decide (q = p)) as [->|Hne].
  2:{ destruct (step_sameElsewhere l tr op q HI Ht) as (_ & Hev & Hsame).
      destruct (calls_of_other q p _ Hev) as (-> & -> & _); [done|].
      destruct (Hsame p) as [-> _]; [done|]. same_surrogate. }
  destruct (settled_surrogate l tr p s HI Hs Hg) as ([Hm1 Hm2] & Hres & Hc).
  destruct op as [trg fac safe inj|q prop|q prop v|q prop|q t|v|v|v|q| |q|q];
    simpl in Ht; try done;
    try (injection Ht as Ht; first [subst q|idtac]).
  - pose proof (inv_surrogates_fresh _ HI p) as Hlt. simpl in Hlt.
    rewrite Hs in Hlt. specialize (Hlt ltac:(by eexists)). lia.
  - simpl. unfold onProxy. rewrite Hs. destruct (revoked s); [same_surrogate|].
    unfold get. repeat case_decide; [same_surrogate..|].
    destruct (safeProperties s !! prop).
    + rewrite Hm2. simpl. same_surrogate.
    + destruct (callGetValue _ _ _); [|same_surrogate].
      unfold Reflect_get. destruct (objects l !! _); same_surrogate.
  - simpl. unfold onProxy. rewrite Hs. destruct (revoked s); [same_surrogate|].
    unfold set. repeat case_decide; [same_surrogate..|].
    destruct (safeProperties s !! prop); [same_surrogate|].
    destruct (callGetValue _ _ _); [|same_surrogate].
    unfold Reflect_set. destruct (objects l !! _); same_surrogate.
  - simpl. unfold onProxy. rewrite Hs. destruct (revoked s); [same_surrogate|].
    unfold has. repeat case_decide; [same_surrogate..|].
    destruct (safeProperties s !! prop); [same_surrogate|].
    destruct (callGetValue _ _ _); [|same_surrogate].
    unfold Reflect_has. destruct (objects l !! _); same_surrogate.
  - simpl. unfold onProxy. rewrite Hs. destruct (revoked s); same_surrogate.
  - destruct v as [| |a]; try done. injection Ht as ->.
    simpl. unfold load, getServiceRegistration.
    destruct (services l !! p) as [r|] eqn:Hr; simpl; [|same_surrogate].
    destruct (inv_services _ HI p r Hr) as [-> _]. simpl.
    rewrite Hs, Hm1. simpl. same_surrogate.
  - simpl. unfold destroy. rewrite Hs.
    destruct (services l !! p); [|same_surrogate]. simpl. rewrite Hres.
    destruct (value (moduleAndValuePromise s)); simpl;
      same_surrogate.
  - simpl. unfold resumeCreate. rewrite Hs.
    destruct Hc as [[a ->]|[v ->]]; same_surrogate.
  - simpl. unfold react. rewrite Hs.
    destruct Hc as [[a ->]|[v ->]]; [|same_surrogate].
    simpl. same_surrogate.
Qed.

Lemma settled_run p s ops st :
  Inv st -> surrogates st.1 !! p = Some s -> getValue s <> NotReady ->
  Inv (run ops st) /\
  factoryCalls p (run ops st).2 = factoryCalls p st.2 /\
  creatorCalls p (run ops st).2 = creatorCalls p st.2 /\
  exists s2, surrogates (run ops st).1 !! p = Some s2 /\
    getValue s2 = getValue s /\
    moduleAndValuePromise s2 = moduleAndValuePromise s.
Proof.
  intros HI Hs Hg.
  apply (run_ind (fun st' => Inv st' /\
           factoryCalls p st'.2 = factoryCalls p st.2 /\
           creatorCalls p st'.2 = creatorCalls p st.2 /\
           exists s2, surrogates st'.1 !! p = Some s2 /\
             getValue s2 = getValue s /\
             moduleAndValuePromise s2 = moduleAndValuePromise s)
           (fun _ => True)).
  - done.
  - intros [l tr] op Hop _ (HI' & Hf & Hc & s' & Hs' & Hg' & Hd').
    simpl in *.
    destruct (step_settled l tr op p s' HI' Hop Hs')
      as (Hf2 & Hc2 & s'' & Hs'' & Hg'' & Hd''); [congruence|].
    split; [by apply (Inv_exec (l, tr))|].
    unfold exec. simpl. calls_simpl. rewrite Hf2, Hc2, !app_nil_r.
    split_and!; [done..|]. exists s''. split_and!; [done|congruence..].
  - by apply Forall_true.
  - split_and!; [done..|]. by exists s.
Qed.

(** X7.  Once [getValue] of a surrogate has been rebound (to return the real
    instance or to rethrow the failure), it stays bound to that in every
    continuation of the run, also across destroy: the Deferred keeps its
    state, neither the construction closure nor the creator is called
    again, and [load] changes nothing and calls nothing. *)
Theorem construction_outcome_is_final devMode ops1 ops2 p s :
  let st1 := run ops1 (start devMode) in
  let st2 := run ops2 st1 in
  surrogates st1.1 !! p = Some s -> getValue s <> NotReady ->
  exists s2, surrogates st2.1 !! p = Some s2 /\
    getValue s2 = getValue s /\
    state (moduleAndValuePromise s2) = state (moduleAndValuePromise s) /\
    factoryCalls p st2.2 = factoryCalls p st1.2 /\
    creatorCalls p st2.2 = creatorCalls p st1.2 /\
    (step st2.1 (Load (Ref p))).1 = (st2.1, []).
Proof.
  intros st1 st2 Hs Hg.
  assert (Inv st1) as HI1 by apply Inv_reachable.
  destruct (settled_run p s ops2 st1 HI1 Hs Hg)
    as (HI2 & Hf & Hc & s2 & Hs2 & Hg2 & Hd2).
  fold st2 in HI2, Hf, Hc, Hs2.
  destruct st2 as [l2 tr2]. simpl in *.
  destruct (settled_surrogate l2 tr2 p s2 HI2 Hs2) as ([Hm1 Hm2] & Hres & _);
    [congruence|].
  exists s2. split_and!; [done|done|by rewrite Hd2|done|done|].
  unfold load, getServiceRegistration.
  destruct (services l2 !! p) as [r|] eqn:Hr; simpl; [|done].
  destruct (inv_services _ HI2 p r Hr) as [-> _]. simpl.
  rewrite Hs2, Hm1. simpl. by rewrite withSurrogate_id.
Qed.

(** X7 on the constructed demo service: a further [load] and stray jobs. *)
Lemma construction_outcome_is_final_witness :
  let st1 := run readyRun (start true) in
  let st2 := run [Load (Ref 0); ResumeCreate 0; React 0] st1 in
  surrogates st1.1 !! 0 = Some readySurrogate /\
  getValue readySurrogate <> NotReady /\
  creatorCalls 0 st2.2 = creatorCalls 0 st1.2.
Proof.
  assert (surrogates (run readyRun (start true)).1 !! 0 = Some readySurrogate)
    as Hs by (vm_compute; reflexivity).
  assert (getValue readySurrogate <> NotReady) as Hg by (simpl; discriminate).
  split; [exact Hs|]. split; [exact Hg|].
  destruct (construction_outcome_is_final true readyRun
              [Load (Ref 0); ResumeCreate 0; React 0] 0 readySurrogate Hs Hg)
    as (s2 & _ & _ & _ & _ & Hc & _).
  exact Hc.
Defined.

(** X8.  [isReady] of a surrogate never goes back to false: if it is true in
    some state of a run, it is true in every later state. *)
Theorem readiness_is_monotone devMode ops1 ops2 p :
  let st1 := run ops1 (start devMode) in
  let st2 := run ops2 st1 in
  is_Some (surrogates st1.1 !! p) ->
  isReady (Ref p) st1.1 = true -> isReady (Ref p) st2.1 = true.
Proof.
  intros st1 st2 [s Hs] Hready.
  assert (Inv st1) as HI1 by apply Inv_reachable.
  destruct (services st1.1 !! p) as [r|] eqn:Hr.
  - destruct st1 as [l1 tr1] eqn:Hst1. simpl in *.
    rewrite (isReady_registered l1 tr1 p s HI1 Hs) in Hready by by eexists.
    pose proof (inv_surrogate _ HI1 p s Hs) as [Hwf _ _ Hph]. simpl in *.
    assert (getValue s <> NotReady) as Hg.
    { intros Hg.
      destruct (registered_phase l1 tr1 p s HI1 Hs) as [_ Hp]; [by eexists|].
      destruct (phase s).
      - destruct Hp as (_ & _ & Hres). congruence.
      - destruct Hp as (_ & _ & Hres). congruence.
      - destruct Hp as (r' & Hg' & _). congruence.
      - destruct Hp as (e & _ & Hg' & _). congruence. }
    destruct (settled_run p s ops2 (l1, tr1) HI1 Hs Hg)
      as (HI2 & _ & _ & s2 & Hs2 & _ & Hd2).
    fold st2 in HI2, Hs2. destruct st2 as [l2 tr2]. simpl in *.
    unfold isReady, getServiceRegistration.
    destruct (services l2 !! p) as [r2|] eqn:Hr2; simpl; [|done].
    destruct (inv_services _ HI2 p r2 Hr2) as [-> _]. simpl.
    by rewrite Hs2, Hd2.
  - destruct (unregistered_run p ops2 st1 HI1) as (_ & Hnone & _);
      [by eexists|done|].
    fold st2 in Hnone. unfold isReady, getServiceRegistration.
    by rewrite Hnone.
Qed.

(** X8 on the constructed demo service, destroyed afterwards. *)
Lemma readiness_is_monotone_witness :
  let st1 := run readyRun (start true) in
  is_Some (surrogates st1.1 !! 0) /\
  isReady (Ref 0) st1.1 = true /\
  isReady (Ref 0) (run [Destroy 0; Load (Ref 0)] st1).1 = true.
Proof.
  assert (is_Some (surrogates (run readyRun (start true)).1 !! 0)) as Hs
    by (vm_compute; eauto).
  assert (isReady (Ref 0) (run readyRun (start true)).1 = true) as Hr
    by (vm_compute; reflexivity).
  split; [exact Hs|]. split; [exact Hr|].
  exact (readiness_is_monotone true readyRun [Destroy 0; Load (Ref 0)] 0 Hs Hr).
Defined.

(** X9.  Destroying a registered surrogate whose construction has succeeded
    calls the destroy callback of its result, once; in every continuation
    this stays the only teardown call, the surrogate stays unregistered, a
    [whenReady] promise obtained before the destroy stays fulfilled, every
    [get] throws the [TypeError] of a revoked proxy, and a further destroy
    does nothing.  The destroy itself leaves the real instances untouched. *)
Theorem destroy_after_successful_construction devMode ops1 ops2 p s :
  let st0 := run ops1 (start devMode) in
  surrogates st0.1 !! p = Some s -> is_Some (services st0.1 !! p) ->
  phase s = Succeeded ->
  let st1 := exec st0 (Destroy p) in
  let st2 := run ops2 st1 in
  exists r, getValue s = ReturnService r /\
    (step st0.1 (Destroy p)).1.2 = [InvokeTeardown p (teardown r)] /\
    teardownCalls p st0.2 = [] /\
    teardownCalls p st2.2 = [teardown r] /\
    objects st1.1 = objects st0.1 /\
    services st2.1 !! p = None /\
    settledAs st2.1 (whenReady (Ref p) st0.1) = Fulfilled tt /\
    (forall prop, step st2.1 (Get p prop) = (st2.1, [], Throw revokedProxy)) /\
    step st2.1 (Destroy p) = (st2.1, [], Normal (Val Undefined)).
Proof.
  intros st0 Hs Hreg Hph st1 st2.
  assert (Inv st0) as HI by apply Inv_reachable.
  assert (Inv st1) as HI1 by by apply Inv_exec.
  destruct st0 as [l tr] eqn:Hst0. simpl in *.
  destruct (registered_surrogate _ _ _ HI Hreg) as (Hr & Hisreg & _).
  destruct (registered_phase l tr p s HI Hs Hreg) as [Hrev Hp].
  rewrite Hph in Hp. destruct Hp as (r & Hg & Hst & Hres & Hval & Hobj).
  pose proof (si_teardown _ _ _ _ _ _ (inv_surrogate _ HI p s Hs)) as Htd.
  simpl in Htd. rewrite Hisreg in Htd.
  assert (destroy p l =
          (withSurrogate p (revoke s) (withServices (delete p (services l)) l),
           [InvokeTeardown p (teardown r)])) as Hdes.
  { unfold destroy. rewrite Hs, Hr. simpl. by rewrite Hres, Hval. }
  assert (st1 = (withSurrogate p (revoke s)
                   (withServices (delete p (services l)) l),
                 tr ++ [InvokeTeardown p (teardown r)])) as Hst1.
  { unfold st1, exec. simpl. by rewrite Hdes. }
  destruct (unregistered_run p ops2 st1 HI1) as (HI2 & Hnone & _ & _ & Htd2 & s1 & s2 & Hs1 & Hs2 & Hrev2 & Hst2).
  { rewrite Hst1. simpl. rewrite lookup_insert_eq. by eexists. }
  { rewrite Hst1. simpl. apply lookup_delete_eq. }
  fold st2 in HI2, Hnone, Htd2, Hs2.
  rewrite Hst1 in Hs1, Htd2. simpl in Hs1, Htd2.
  rewrite lookup_insert_eq in Hs1. injection Hs1 as <-. simpl in Hst2.
  exists r. split_and!.
  - done.
  - by rewrite Hdes.
  - done.
  - rewrite Htd2. calls_simpl. by rewrite Htd.
  - change (objects st1.1 = objects l). by rewrite Hst1.
  - done.
  - unfold whenReady, getServiceRegistration. rewrite Hr. simpl.
    by rewrite Hs2, Hst2, Hst.
  - intros prop. simpl. unfold onProxy. by rewrite Hs2, Hrev2.
  - simpl. unfold destroy. rewrite Hs2, Hnone. by destruct st2.
Qed.

(** X9 on the constructed demo service. *)
Lemma destroy_after_successful_construction_witness :
  let st0 := run readyRun (start true) in
  let st2 := run [Get 0 "unsafeProperty"; Destroy 0] (exec st0 (Destroy 0)) in
  surrogates st0.1 !! 0 = Some readySurrogate /\
  is_Some (services st0.1 !! 0) /\
  phase readySurrogate = Succeeded /\
  exists r, getValue readySurrogate = ReturnService r /\
    teardownCalls 0 st2.2 = [teardown r].
Proof.
  assert (surrogates (run readyRun (start true)).1 !! 0 = Some readySurrogate)
    as Hs by (vm_compute; reflexivity).
  assert (is_Some (services (run readyRun (start true)).1 !! 0)) as Hreg
    by (vm_compute; eauto).
  split; [exact Hs|]. split; [exact Hreg|]. split; [reflexivity|].
  destruct (destroy_after_successful_construction true readyRun
              [Get 0 "unsafeProperty"; Destroy 0] 0 readySurrogate Hs Hreg
              eq_refl) as (r & Hg & _ & _ & Htd & _).
  exists r. split; [exact Hg|exact Htd].
Defined.

(** X10.  A registered surrogate is destroyed while its construction is in
    flight.  A [load] at that moment returns [valuePromise], which is
    pending.  In no continuation of the run is [valuePromise] fulfilled, and
    once the two jobs of the construction have run it is rejected; the
    creator is not called after the destroy and no teardown callback is
    ever called. *)
Theorem destroy_rejects_pending_load devMode ops1 ops2 p s :
  let st0 := run ops1 (start devMode) in
  surrogates st0.1 !! p = Some s -> is_Some (services st0.1 !! p) ->
  phase s = InFlight ->
  let st2 := run ops2 (exec st0 (Destroy p)) in
  let st3 := run [ResumeCreate p; React p] st2 in
  step st0.1 (Load (Ref p)) = (st0.1, [], Normal (PromiseOf (OfValuePromise p))) /\
  settledAs st0.1 (OfValuePromise p) = Pending /\
  settledAs st2.1 (OfValuePromise p) <> Fulfilled tt /\
  (exists e, settledAs st3.1 (OfValuePromise p) = Rejected e) /\
  creatorCalls p st3.2 = creatorCalls p st0.2 /\
  teardownCalls p st3.2 = [].
Proof.
  intros st0 Hs Hreg Hph st2 st3.
  assert (Inv st0) as HI by apply Inv_reachable.
  set (st1 := exec st0 (Destroy p)) in *.
  assert (Inv st1) as HI1 by by apply Inv_exec.
  destruct st0 as [l tr] eqn:Hst0. simpl in *.
  destruct (registered_surrogate _ _ _ HI Hreg) as (Hr & Hisreg & _).
  destruct (registered_phase l tr p s HI Hs Hreg) as [Hrev Hp].
  rewrite Hph in Hp. destruct Hp as (Hg & Hst & Hres).
  pose proof (construction_getters l tr p s HI Hs) as Hcg.
  pose proof (si_teardown _ _ _ _ _ _ (inv_surrogate _ HI p s Hs)) as Htd.
  simpl in Htd. rewrite Hisreg in Htd.
  assert (factoryCalls p tr = [(serviceFactory s (injector s)).1] /\
          getOrCreateValueAsync s = ReturnValuePromise /\
          valuePromise s = Pending) as (Hfc & Hm & Hvp).
  { unfold phase in Hph. unfold valuePromise.
    destruct (construction s) as [|a|a|e| |[e|v]]; try done;
      by destruct Hcg as (? & ? & _). }
  assert (destroy p l =
          (withSurrogate p
             (setDeferred (reject destroyedBeforeReady (moduleAndValuePromise s))
                (revoke s))
             (withServices (delete p (services l)) l), [])) as Hdes.
  { unfold destroy. rewrite Hs, Hr. simpl. by rewrite Hres. }
  assert (st1 = (withSurrogate p
             (setDeferred (reject destroyedBeforeReady (moduleAndValuePromise s))
                (revoke s))
             (withServices (delete p (services l)) l), tr)) as Hst1.
  { unfold st1, exec. simpl. by rewrite Hdes, app_nil_r. }
  destruct (unregistered_run p ops2 st1 HI1)
    as (HI2 & Hnone & Hfc2 & Hcc2 & Htd2 & s1 & s2 & Hs1 & Hs2 & Hrev2 & Hst2).
  { rewrite Hst1. simpl. rewrite lookup_insert_eq. by eexists. }
  { rewrite Hst1. simpl. apply lookup_delete_eq. }
  fold st2 in HI2, Hnone, Hfc2, Hcc2, Htd2, Hs2.
  rewrite Hst1 in Hs1, Hfc2, Hcc2, Htd2. simpl in Hs1, Hfc2, Hcc2, Htd2.
  rewrite lookup_insert_eq in Hs1. injection Hs1 as <-. simpl in Hst2.
  unfold reject in Hst2. simpl in Hst2. rewrite Hst in Hst2. simpl in Hst2.
  destruct st2 as [l2 tr2] eqn:Est2. simpl in *.
  pose proof (inv_surrogate _ HI2 p s2 Hs2) as [Hwf2 _ _ Hph2]. simpl in *.
  destruct (wf_rejected _ _ Hwf2 Hst2) as [Hres2 _].
  assert (match construction s2 with
          | AtAwait _ | Raised _ | Adopting | Settled (inl _) => True
          | _ => False
          end) as Hcase.
  { unfold phaseInv in Hph2.
    destruct (construction s2) as [|a|a|e| |[e|[a|r]]]; try done.
    - destruct Hph2 as (_ & _ & _ & _ & Hfc' & _). congruence.
    - destruct Hph2 as (_ & (r & _ & _ & Hst') & _). congruence.
    - destruct Hph2 as (_ & (r & _ & _ & Hst') & _). congruence. }
  split_and!.
  - unfold load, getServiceRegistration. rewrite Hr. simpl.
    rewrite Hs, Hm. simpl. by rewrite withSurrogate_id.
  - by rewrite Hs, Hvp.
  - rewrite Hs2. unfold valuePromise.
    by destruct (construction s2) as [|a|a|e| |[e|v]].
  - unfold st3, run, exec, step. simpl. unfold resumeCreate. rewrite Hs2.
    destruct (construction s2) as [|[e|[|creator]]|a|e| |[e|v]] eqn:Hc2;
      try done; simpl; rewrite ?Hres2; simpl;
      unfold react; simpl; rewrite ?lookup_insert_eq, ?Hs2; simpl;
      rewrite ?Hc2, ?Hst2; simpl; rewrite ?lookup_insert_eq, ?Hs2; simpl;
      unfold valuePromise; rewrite ?Hc2; simpl; by eauto.
  - unfold st3, run, exec, step. simpl. unfold resumeCreate. rewrite Hs2.
    destruct (construction s2) as [|[e|[|creator]]|a|e| |[e|v]] eqn:Hc2;
      try done; simpl; rewrite ?Hres2; simpl; by rewrite ?app_nil_r.
  - unfold st3, run, exec, step. simpl. unfold resumeCreate. rewrite Hs2.
    destruct (construction s2) as [|[e|[|creator]]|a|e| |[e|v]] eqn:Hc2;
      try done; simpl; rewrite ?Hres2; simpl; rewrite ?app_nil_r; congruence.
Qed.

(** X10 on the demo service, destroyed while its import is pending. *)
Lemma destroy_rejects_pending_load_witness :
  let st0 := run [Create OnAccess demoFactory demoSafeProperties 0;
                  Get 0 "safePromise"] (start true) in
  let st3 := run [ResumeCreate 0; React 0] (run [] (exec st0 (Destroy 0))) in
  surrogates st0.1 !! 0 = Some (awaitingSurrogate OnAccess) /\
  is_Some (services st0.1 !! 0) /\
  phase (awaitingSurrogate OnAccess) = InFlight /\
  (exists e, settledAs st3.1 (OfValuePromise 0) = Rejected e) /\
  teardownCalls 0 st3.2 = [].
Proof.
  assert (surrogates (run [Create OnAccess demoFactory demoSafeProperties 0;
                           Get 0 "safePromise"] (start true)).1 !! 0
          = Some (awaitingSurrogate OnAccess)) as Hs
    by (vm_compute; reflexivity).
  assert (is_Some (services
            (run [Create OnAccess demoFactory demoSafeProperties 0;
                  Get 0 "safePromise"] (start true)).1 !! 0)) as Hreg
    by (vm_compute; eauto).
  split; [exact Hs|]. split; [exact Hreg|]. split; [reflexivity|].
  pose proof (destroy_rejects_pending_load true
                [Create OnAccess demoFactory demoSafeProperties 0;
                 Get 0 "safePromise"] [] 0 (awaitingSurrogate OnAccess)
                Hs Hreg eq_refl) as H.
  split; [exact (proj1 (proj2 (proj2 (proj2 H))))
         |exact (proj2 (proj2 (proj2 (proj2 (proj2 H)))))].
Defined.

(** X11.  In every state of every run, for every surrogate: its creator has
    been called at most once and its teardown callback at most once; the
    creator only after the construction closure was called; the teardown
    only after the creator returned and the surrogate was unregistered, and
    with the destroy callback the Deferred holds.  The construction has
    succeeded exactly when the Deferred is fulfilled. *)
Theorem creator_and_teardown_discipline devMode ops p s :
  let st := run ops (start devMode) in
  surrogates st.1 !! p = Some s ->
  length (creatorCalls p st.2) <= 1 /\
  length (teardownCalls p st.2) <= 1 /\
  (creatorCalls p st.2 <> [] ->
   factoryCalls p st.2 = [(serviceFactory s (injector s)).1]) /\
  (forall callback, teardownCalls p st.2 = [callback] ->
     creatorCalls p st.2 = [tt] /\ services st.1 !! p = None /\
     exists r, state (moduleAndValuePromise s) = Fulfilled r /\
       teardown r = callback) /\
  (phase s = Succeeded <-> exists r, state (moduleAndValuePromise s) = Fulfilled r).
Proof.
  intros st Hs.
  assert (Inv st) as HI by apply Inv_reachable.
  destruct st as [l tr]. simpl in *.
  pose proof (inv_surrogate _ HI p s Hs) as [Hwf Hrev Htd Hph]. simpl in *.
  unfold phaseInv in Hph. unfold phase.
  assert (isRegistered l p = false -> services l !! p = None) as Hunreg.
  { unfold isRegistered. intros Hb%bool_decide_eq_false.
    by apply eq_None_not_Some. }
  destruct (construction s) as [|a|a|e| |[e|[a|r]]] eqn:Hc; try done.
  - destruct Hph as (_ & _ & _ & Hu & Hfc & Hcc). unfold unsettled in Hu.
    rewrite Hcc, Htd, Hu. destruct (isRegistered l p); simpl;
      split_and!; try done; try lia; (split; [done|by intros [? ?]]).
  - destruct Hph as (_ & _ & Hu & Hfc & Hcc). unfold unsettled in Hu.
    rewrite Hcc, Htd, Hu. destruct (isRegistered l p); simpl;
      split_and!; try done; try lia; (split; [done|by intros [? ?]]).
  - destruct Hph as (_ & (r & _ & _ & Hst) & _ & Hfc & Hcc).
    rewrite Hcc, Htd, Hst, Hfc.
    destruct (isRegistered l p) eqn:Hreg; simpl;
      split_and!; try done; try lia; try (split; by eauto).
    intros callback [= <-]. split_and!; [done|by apply Hunreg|by eauto].
  - destruct Hph as (_ & _ & Hu & Hfc & Hcc). unfold unsettled in Hu.
    rewrite Htd, Hu, Hfc. destruct (isRegistered l p); simpl;
      split_and!; try done; try lia; (split; [done|by intros [? ?]]).
  - destruct Hph as (_ & _ & _ & Hst & Hfc & Hcc).
    rewrite Hcc, Htd, Hst, Hfc. destruct (isRegistered l p); simpl;
      split_and!; try done; try lia; (split; [done|by intros [? ?]]).
  - destruct Hph as (_ & _ & Hst & Hfc & Hcc).
    rewrite Htd, Hfc.
    destruct Hst as [Hst|[_ Hst]]; rewrite Hst;
      destruct (isRegistered l p); simpl;
      split_and!; try done; try lia; (split; [done|by intros [? ?]]).
  - destruct Hph as (_ & (r & _ & _ & Hst) & _ & Hfc & Hcc).
    rewrite Hcc, Htd, Hst, Hfc.
    destruct (isRegistered l p) eqn:Hreg; simpl;
      split_and!; try done; try lia; try (split; by eauto).
    intros callback [= <-]. split_and!; [done|by apply Hunreg|by eauto].
Qed.

(** X11 on the constructed demo service. *)
Lemma creator_and_teardown_discipline_witness :
  let st := run readyRun (start true) in
  surrogates st.1 !! 0 = Some readySurrogate /\
  length (creatorCalls 0 st.2) <= 1 /\
  length (teardownCalls 0 st.2) <= 1.
Proof.
  assert (surrogates (run readyRun (start true)).1 !! 0 = Some readySurrogate)
    as Hs by (vm_compute; reflexivity).
  split; [exact Hs|].
  pose proof (creator_and_teardown_discipline true readyRun 0 readySurrogate Hs)
    as H.
  split; [exact (proj1 H)|exact (proj1 (proj2 H))].
Defined.

(** ** The proxy *)

(** X12.  For a registered surrogate in any state of its construction, and
    whatever was declared safe: [get] of [ngOnDestroy] returns the destroy
    closure and [get] of [constructor] the fake constructor, [has] of
    [ngOnDestroy] is true, [set] of [ngOnDestroy] throws
    [OperationNotSupportedError], and [has] of a member declared safe is
    true; none of them changes the loader or starts the construction. *)
Theorem administrative_members devMode ops p :
  let l := (run ops (start devMode)).1 in
  is_Some (services l !! p) ->
  step l (Get p "ngOnDestroy") = (l, [], Normal (DestroyFn p)) /\
  step l (Get p "constructor") = (l, [], Normal (FakeConstructor p)) /\
  step l (Has p "ngOnDestroy") = (l, [], Normal (Bool true)) /\
  (forall newValue,
     step l (Set_ p "ngOnDestroy" newValue) =
       (l, [], Throw (OperationNotSupportedError "ngOnDestroy cannot be edited"))) /\
  exists s, surrogates l !! p = Some s /\
    forall prop, is_Some (safeProperties s !! prop) ->
      step l (Has p prop) = (l, [], Normal (Bool true)).
Proof.
  intros l Hreg.
  pose proof (Inv_reachable devMode ops) as HI.
  destruct (run ops (start devMode)) as [l0 tr]; simpl in *. subst l.
  destruct (registered_surrogate _ _ _ HI Hreg) as (_ & _ & s & Hs & Hrev).
  unfold onProxy. rewrite Hs, Hrev.
  split_and!; try done.
  exists s. split; [done|]. intros prop [g Hg]. unfold has.
  case_decide; [done|]. by rewrite Hg.
Qed.

(** X12 on the demo service before any trigger. *)
Lemma administrative_members_witness :
  let l := (run [Create Explicit demoFactory demoSafeProperties 0]
              (start true)).1 in
  is_Some (services l !! 0) /\
  step l (Get 0 "ngOnDestroy") = (l, [], Normal (DestroyFn 0)).
Proof.
  assert (is_Some (services
            (run [Create Explicit demoFactory demoSafeProperties 0]
               (start true)).1 !! 0)) as Hreg by (vm_compute; eauto).
  split; [exact Hreg|].
  exact (proj1 (administrative_members true
                  [Create Explicit demoFactory demoSafeProperties 0] 0 Hreg)).
Defined.



(** X14.  In every state of every run the proxy of a surrogate is revoked
    exactly when the surrogate is not registered; a revoked proxy throws on
    every [get]; and the identity the next object will get is used by no
    surrogate and no real instance. *)
Theorem proxy_revoked_iff_unregistered devMode ops p s :
  let l := (run ops (start devMode)).1 in
  surrogates l !! p = Some s ->
  (revoked s = true <-> services l !! p = None) /\
  (revoked s = true ->
   forall prop, step l (Get p prop) = (l, [], Throw revokedProxy)) /\
  p < nextRef l /\
  objects l !! nextRef l = None /\ surrogates l !! nextRef l = None.
Proof.
  intros l Hs.
  pose proof (Inv_reachable devMode ops) as HI.
  destruct (run ops (start devMode)) as [l0 tr]; simpl in *. subst l.
  pose proof (si_revoked _ _ _ _ _ _ (inv_surrogate _ HI p s Hs)) as Hrev.
  simpl in Hrev. unfold isRegistered in Hrev.
  split_and!.
  - rewrite Hrev. case_bool_decide as Hreg; simpl.
    + split; [done|]. intros Hn. rewrite Hn in Hreg. by destruct Hreg.
    + split; [|done]. intros _. by apply eq_None_not_Some.
  - intros Ht prop. unfold onProxy. by rewrite Hs, Ht.
  - apply (inv_surrogates_fresh _ HI p). by eexists.
  - apply eq_None_not_Some. intros Hsome.
    pose proof (inv_objects_fresh _ HI _ Hsome). simpl in *. lia.
  - apply eq_None_not_Some. intros Hsome.
    pose proof (inv_surrogates_fresh _ HI _ Hsome). simpl in *. lia.
Qed.

(** X14 on the constructed demo service. *)
Lemma proxy_revoked_iff_unregistered_witness :
  let l := (run readyRun (start true)).1 in
  surrogates l !! 0 = Some readySurrogate /\
  (revoked readySurrogate = true <-> services l !! 0 = None).
Proof.
  assert (surrogates (run readyRun (start true)).1 !! 0 = Some readySurrogate)
    as Hs by (vm_compute; reflexivity).
  split; [exact Hs|].
  exact (proj1 (proxy_revoked_iff_unregistered true readyRun 0 readySurrogate
                  Hs)).
Defined.

(** X15.  An operation or job on the surrogate [q] leaves every other
    surrogate [p] alone: its closure and registration, what [isReady]
    reports, what its Deferred and its [valuePromise] have settled to, and
    the calls made for it are the same before and after. *)
Theorem operations_do_not_interfere devMode ops op q p :
  let st := run ops (start devMode) in
  let st' := exec st op in
  target st.1 op = Some q -> q <> p ->
  surrogates st'.1 !! p = surrogates st.1 !! p /\
  services st'.1 !! p = services st.1 !! p /\
  isReady (Ref p) st'.1 = isReady (Ref p) st.1 /\
  settledAs st'.1 (OfDeferred p) = settledAs st.1 (OfDeferred p) /\
  settledAs st'.1 (OfValuePromise p) = settledAs st.1 (OfValuePromise p) /\
  factoryCalls p st'.2 = factoryCalls p st.2 /\
  creatorCalls p st'.2 = creatorCalls p st.2 /\
  teardownCalls p st'.2 = teardownCalls p st.2.
Proof.
  intros st st' Ht Hne.
  assert (Inv st) as HI by apply Inv_reachable.
  destruct (exec_elsewhere st op p HI) as (Hsu & Hsv & Hf & Hc & Htd).
  - intros ->. simpl in Ht. done.
  - rewrite Ht. congruence.
  - fold st' in Hsu, Hsv, Hf, Hc, Htd.
    unfold isReady, getServiceRegistration, registrationIsReady, settledAs.
    rewrite Hsu, Hsv. split_and!; try done.
    destruct (services st.1 !! p) as [r|] eqn:Hr; simpl; [|done].
    destruct (inv_services _ HI p r Hr) as [-> _]. simpl. simpl in Hsu. by rewrite Hsu.
Qed.

(** X15 on two surrogates of the demo service: [load] of the first. *)
Lemma operations_do_not_interfere_witness :
  let st := run [Create OnAccess demoFactory demoSafeProperties 0;
                 Create Explicit demoFactory demoSafeProperties 0]
              (start true) in
  target st.1 (Load (Ref 0)) = Some 0 /\ 0 <> 1 /\
  factoryCalls 1 (exec st (Load (Ref 0))).2 = factoryCalls 1 st.2.
Proof.
  assert (0 <> 1) as Hne by lia.
  split; [reflexivity|]. split; [exact Hne|].
  pose proof (operations_do_not_interfere true
                [Create OnAccess demoFactory demoSafeProperties 0;
                 Create Explicit demoFactory demoSafeProperties 0]
                (Load (Ref 0)) 0 1 eq_refl Hne) as H.
  exact (proj1 (proj2 (proj2 (proj2 (proj2 (proj2 H)))))).
Defined.

(** ** The builders *)

(** X16.  [setImplementation(d, fn)] on a differential factory: the closure
    afterwards calls [fn] when the determinant is [d] and otherwise behaves
    as before; a second registration for the same determinant replaces the
    first; registrations for different determinants commute; the fallback
    is kept. *)
Theorem setImplementation_round_trip `{Countable DeterminantT}
    (toString : DeterminantT -> string) (f : DifferentialLazyFactory)
    (determinant : DeterminantT) (fn : LazyFactoryFn) (inj : Injector) :
  let closure g := differentialClosure toString g inj in
  closure (setImplementation determinant fn f) =
    (if decide (determine f inj = determinant)
     then ([EvalDeterminant; CallImplementation (fn inj).1], (fn inj).2)
     else closure f) /\
  (forall fn0,
     closure (setImplementation determinant fn
                (setImplementation determinant fn0 f))
     = closure (setImplementation determinant fn f)) /\
  (forall determinant' fn', determinant' <> determinant ->
     closure (setImplementation determinant fn
                (setImplementation determinant' fn' f))
     = closure (setImplementation determinant' fn'
                  (setImplementation determinant fn f))) /\
  fallbackServiceFactory (setImplementation determinant fn f)
  = fallbackServiceFactory f.
Proof.
  intros closure. unfold closure, differentialClosure, selected. simpl.
  split_and!.
  - case_decide as Hd.
    + rewrite Hd, lookup_insert_eq. by destruct (fn inj).
    + by rewrite lookup_insert_ne.
  - intros fn0. by rewrite insert_insert_eq.
  - intros d' fn' Hne. by rewrite insert_insert_ne.
  - done.
Qed.

(** X17.  What a [lazyFactory] builder declares for a member name (other than
    [ngOnDestroy] and [constructor]) holds for the surrogates it creates:
    after [markSafeMethod] a read of the member returns the method wrapper of
    the declared type on the promise the trigger selects, [has] is true and
    [set] throws; [markSafeProperty] does the same with the property
    wrapper, but throws [TypeError] for the type void; of two declarations
    for the same name, and of two calls of [createOn], the last one
    counts. *)
Theorem builder_declarations_reach_the_surrogate
    devMode ops (b : Builder.LazyFactory) name type inj :
  let l := (run ops (start devMode)).1 in
  let p := nextRef l in
  let src := if decide (Builder.trigger b = Explicit)
             then OfDeferredService p else OfValuePromise p in
  let created b' := (build b' inj l).1.1 in
  intercepted name = false ->
  (let l' := created (Builder.markSafeMethod name type b) in
   (step l' (Get p name)).2 = Normal (SafeForward (SafeMethod type) src) /\
   step l' (Has p name) = (l', [], Normal (Bool true)) /\
   forall newValue,
     step l' (Set_ p name newValue) =
       (l', [], Throw (OperationNotSupportedError
                         "Properties marked as safe properties cannot be edited"))) /\
  (forall b', Builder.markSafeProperty name type b = Normal b' ->
     type <> void /\
     (step (created b') (Get p name)).2
     = Normal (SafeForward (SafeProperty type) src)) /\
  Builder.markSafeProperty name void b
  = Throw (TypeError "Unsupported safe property type: void") /\
  (forall type0,
     build (Builder.markSafeMethod name type
              (Builder.markSafeMethod name type0 b)) inj l
     = build (Builder.markSafeMethod name type b) inj l) /\
  (forall t t0,
     build (Builder.createOn t (Builder.createOn t0 b)) inj l
     = build (Builder.createOn t b) inj l).
Proof.
  intros l p src created Hni.
  unfold intercepted in Hni. apply orb_false_elim in Hni as [Hn1 Hn2].
  apply bool_decide_eq_false in Hn1, Hn2.
  assert (forall g b',
            Builder.trigger b' = Builder.trigger b ->
            Builder.safeProperties b' !! name = Some g ->
            (step (created b') (Get p name)).2 = Normal (SafeForward g src) /\
            step (created b') (Has p name) = (created b', [], Normal (Bool true)) /\
            forall newValue,
              step (created b') (Set_ p name newValue) =
              (created b', [], Throw (OperationNotSupportedError
                 "Properties marked as safe properties cannot be edited")))
    as Hsafe.
  { intros g b' Htr Hg. unfold created, build, create, src. rewrite Htr.
    destruct (Builder.serviceFactory b' inj) as [inner out] eqn:Hfac.
    destruct (Builder.trigger b);
      repeat (simpl; unfold onProxy, get, set, has, callAsyncGetter,
                startConstruction;
              simpl; rewrite ?lookup_insert_eq, ?Hfac, ?Hg;
              rewrite ?decide_False by done);
      done. }
  split_and!.
  - apply Hsafe; [done|]. simpl. apply lookup_insert_eq.
  - intros b' Hb'. destruct type; simpl in Hb'; try done;
      injection Hb' as <-; (split; [done|]);
      apply Hsafe; try done; simpl; apply lookup_insert_eq.
  - done.
  - intros type0. unfold build, Builder.markSafeMethod. simpl.
    by rewrite insert_insert_eq.
  - done.
Qed.

(** X17 on a builder for the demo service. *)
Lemma builder_declarations_reach_the_surrogate_witness :
  let l := (run [] (start true)).1 in
  let b := Builder.markSafeMethod "safeVoidMethod" void
             (Builder.createOn OnAccess (Builder.lazyFactory demoFactory)) in
  intercepted "safeVoidMethod" = false /\
  (step (build b 0 l).1.1 (Get 0 "safeVoidMethod")).2
  = Normal (SafeForward (SafeMethod void) (OfValuePromise 0)).
Proof.
  split; [reflexivity|].
  exact (proj1 (proj1 (builder_declarations_reach_the_surrogate true []
                         (Builder.createOn OnAccess
                            (Builder.lazyFactory demoFactory))
                         "safeVoidMethod" void 0 eq_refl))).
Defined.
